(** * usbwhy: log classification, device/log correlation and heuristic analysis

    A shallow embedding of [usbwhy/log_parser.py], [usbwhy/device_enum.py]
    (the [USBDevice] record) and [usbwhy/analyzer.py], followed by the
    properties established about them.

    Text.  A Python [str] is modelled as a [string] whose characters are the
    code points 0..255; the character predicates below follow Python's
    Unicode tables on that range ([str.lower], [str.isspace], and the [re]
    classes [\d], [\w], [\s] of a [str] pattern).  Strings holding code
    points above U+00FF are outside the model.

    Objects.  [USBDevice] and [LogEntry] define neither [__eq__] nor
    [__hash__], so dictionaries, sets and [in] compare them by identity.
    Each record therefore carries an object identity ([oid]) and the
    containers of the analyzer are keyed by it. *)

From Stdlib Require Import Bool Arith Lia List Ascii String Permutation.
From Stdlib Require Import ZArith DecimalString.
Import ListNotations.

Open Scope string_scope.
Open Scope list_scope.
Open Scope nat_scope.

(* ------------------------------------------------------------------ *)
(** ** Characters *)

Definition in_range (lo hi : nat) (c : ascii) : bool :=
  (lo <=? nat_of_ascii c) && (nat_of_ascii c <=? hi).

(** [str.lower] on one code point below 256: A-Z, U+00C0-U+00D6 and
    U+00D8-U+00DE move up by 32, everything else is unchanged. *)
Definition lower_char (c : ascii) : ascii :=
  if in_range 65 90 c || in_range 192 214 c || in_range 216 222 c
  then ascii_of_nat (nat_of_ascii c + 32)
  else c.

(** [str.isspace] / [\s]: TAB..CR, FS..US, space, NEL and NBSP. *)
Definition is_space (c : ascii) : bool :=
  in_range 9 13 c || in_range 28 32 c
  || (nat_of_ascii c =? 133) || (nat_of_ascii c =? 160).

(** [\d]: the decimal digits. *)
Definition is_digit (c : ascii) : bool := in_range 48 57 c.

(** [\w]: alphanumeric code points and the underscore. *)
Definition is_word (c : ascii) : bool :=
  in_range 48 57 c || in_range 65 90 c || in_range 97 122 c
  || (nat_of_ascii c =? 95)
  || (nat_of_ascii c =? 170) || (nat_of_ascii c =? 178)
  || (nat_of_ascii c =? 179) || (nat_of_ascii c =? 181)
  || (nat_of_ascii c =? 185) || (nat_of_ascii c =? 186)
  || in_range 188 190 c
  || in_range 192 214 c || in_range 216 246 c || in_range 248 255 c.

Definition is_char (x : ascii) (c : ascii) : bool := Ascii.eqb c x.

(** A literal letter under [re.IGNORECASE]. *)
Definition is_char_ci (x : ascii) (c : ascii) : bool :=
  Ascii.eqb (lower_char c) (lower_char x).

(* ------------------------------------------------------------------ *)
(** ** Strings *)

(** [s.lower()] *)
Fixpoint lower (s : string) : string :=
  match s with
  | EmptyString => EmptyString
  | String c s' => String (lower_char c) (lower s')
  end.

(** [s.startswith(p)] *)
Fixpoint starts_with (p s : string) : bool :=
  match p, s with
  | EmptyString, _ => true
  | String _ _, EmptyString => false
  | String a p', String b s' => Ascii.eqb a b && starts_with p' s'
  end.

(** [s[n:]] *)
Fixpoint drop (n : nat) (s : string) : string :=
  match n, s with
  | O, _ => s
  | S _, EmptyString => EmptyString
  | S n', String _ s' => drop n' s'
  end.

(** [sub in s] *)
Fixpoint contains (sub s : string) : bool :=
  starts_with sub s ||
  match s with
  | EmptyString => false
  | String _ s' => contains sub s'
  end.

(** [any(word in s for word in words)] *)
Definition contains_any (words : list string) (s : string) : bool :=
  existsb (fun w => contains w s) words.

(** [s.split(sep, 1)[1]] when [sep in s]: what follows the first
    occurrence of [sep]. *)
Fixpoint after_first (sep s : string) : option string :=
  if starts_with sep s then Some (drop (length sep) s)
  else match s with
       | EmptyString => None
       | String _ s' => after_first sep s'
       end.

(** [s.rsplit(sep, 1)[1]] when [sep in s]: what follows the last
    occurrence of [sep]. *)
Fixpoint after_last (sep s : string) : option string :=
  match s with
  | EmptyString => if starts_with sep s then Some (drop (length sep) s) else None
  | String _ s' =>
      match after_last sep s' with
      | Some r => Some r
      | None => if starts_with sep s then Some (drop (length sep) s) else None
      end
  end.

Fixpoint lstrip (s : string) : string :=
  match s with
  | EmptyString => EmptyString
  | String c s' => if is_space c then lstrip s' else s
  end.

Fixpoint rstrip (s : string) : string :=
  match s with
  | EmptyString => EmptyString
  | String c s' =>
      match rstrip s' with
      | EmptyString => if is_space c then EmptyString else String c EmptyString
      | r => String c r
      end
  end.

(** [s.strip()] *)
Definition strip (s : string) : string := rstrip (lstrip s).

(** [str(n)] for a non-negative integer, as an f-string renders it. *)
Definition str_of_nat (n : nat) : string :=
  NilEmpty.string_of_uint (Nat.to_uint n).

(** An [Optional[str]] inside an f-string. *)
Definition fmt_opt (o : option string) : string :=
  match o with
  | Some s => s
  | None => "None"
  end.

(** Truthiness of an [Optional[str]]: neither [None] nor empty. *)
Definition truthy (o : option string) : bool :=
  match o with
  | Some s => negb (String.eqb s "")
  | None => false
  end.

(* ------------------------------------------------------------------ *)
(** ** A backtracking matcher for the [re] patterns of the parser *)

Inductive regex : Type :=
| RChar (p : ascii -> bool)          (* one character of a class *)
| RSeq (a b : regex)                 (* a b *)
| ROpt (a : regex)                   (* a?  (greedy) *)
| RStar (a : regex)                  (* a*  (greedy) *)
| RGroup (n : nat) (a : regex).      (* capturing group number n *)

(** [a+] *)
Definition RPlus (a : regex) : regex := RSeq a (RStar a).

(** The groups captured so far, most recent first. *)
Definition captures := list (nat * string).

Fixpoint group (n : nat) (c : captures) : option string :=
  match c with
  | [] => None
  | (m, s) :: c' => if m =? n then Some s else group n c'
  end.

(** A greedy repetition of [body]: one more iteration first, the
    continuation [k] when that fails.  An iteration has to consume text, so
    [fuel] iterations are enough for a text of length [fuel]. *)
Fixpoint star_loop {A : Type}
  (body : string -> captures -> (string -> captures -> option A) -> option A)
  (k : string -> captures -> option A)
  (fuel : nat) (s : string) (caps : captures) {struct fuel} : option A :=
  match fuel with
  | O => k s caps
  | S fuel' =>
      match body s caps
              (fun s' c' =>
                 if length s' <? length s then star_loop body k fuel' s' c'
                 else None) with
      | Some x => Some x
      | None => k s caps
      end
  end.

(** [re_match r s caps k]: match [r] at the start of [s], then hand the
    rest of the text and the captures to the continuation [k]; alternatives
    are tried in the order of a backtracking matcher (longest repetition
    first). *)
Fixpoint re_match {A : Type} (r : regex) (s : string) (caps : captures)
  (k : string -> captures -> option A) {struct r} : option A :=
  match r with
  | RChar p =>
      match s with
      | String c s' => if p c then k s' caps else None
      | EmptyString => None
      end
  | RSeq a b => re_match a s caps (fun s' c' => re_match b s' c' k)
  | ROpt a =>
      match re_match a s caps k with
      | Some x => Some x
      | None => k s caps
      end
  | RStar a => star_loop (re_match a) k (length s) s caps
  | RGroup n a =>
      re_match a s caps
        (fun s' c' => k s' ((n, substring 0 (length s - length s') s) :: c'))
  end.

(** [re.search(r, s)]: the match at the leftmost position that has one. *)
Fixpoint re_search (r : regex) (s : string) : option captures :=
  match re_match r s [] (fun _ c => Some c) with
  | Some c => Some c
  | None =>
      match s with
      | EmptyString => None
      | String _ s' => re_search r s'
      end
  end.

Fixpoint seq_of (l : list regex) (last : regex) : regex :=
  match l with
  | [] => last
  | a :: l' => RSeq a (seq_of l' last)
  end.

(** The bus-device pattern of [extract_device_info], compiled with
    [re.IGNORECASE]: an optional non-capturing prefix [usb\s+]; group 1,
    [\d+-\d+] followed by any number of [\.\d+]; then one character of
    the class [\s:]. *)
Definition bus_device_pattern : regex :=
  RSeq (ROpt (seq_of [RChar (is_char_ci "u"); RChar (is_char_ci "s");
                      RChar (is_char_ci "b")] (RPlus (RChar is_space))))
    (RSeq (RGroup 1
             (seq_of [RPlus (RChar is_digit); RChar (is_char "-");
                      RPlus (RChar is_digit)]
                (RStar (RSeq (RChar (is_char ".")) (RPlus (RChar is_digit))))))
       (RChar (fun c => is_space c || is_char ":" c))).

(** The vendor:product pattern: group 1 [\w{4}], a colon, group 2 [\w{4}]. *)
Definition word4 : regex :=
  seq_of [RChar is_word; RChar is_word; RChar is_word] (RChar is_word).

Definition vendor_product_pattern : regex :=
  RSeq (RGroup 1 word4) (RSeq (RChar (is_char ":")) (RGroup 2 word4)).

(* ------------------------------------------------------------------ *)
(** ** device_enum.py: the device record *)

Module USBDevice.

Record t : Type := mk
  { oid : nat;                      (* object identity *)
    device_id : string;
    vendor_id : option string;
    product_id : option string;
    vendor_name : option string;
    product_name : option string;
    device_class : option string;
    speed : option string;
    driver : option string;
    busnum : option string;
    devnum : option string;
    parent_id : option string }.

(** [USBDevice(device_id)]: every other attribute starts as [None]. *)
Definition new (o : nat) (id : string) : t :=
  mk o id None None None None None None None None None None.

Definition get_id_vendor_product (d : t) : option string :=
  match vendor_id d, product_id d with
  | Some v, Some p =>
      if negb (String.eqb v "") && negb (String.eqb p "")
      then Some (v ++ ":" ++ p)%string
      else None
  | _, _ => None
  end.

(** [d1 is d2] *)
Definition same (d1 d2 : t) : bool := oid d1 =? oid d2.

End USBDevice.

(* ------------------------------------------------------------------ *)
(** ** log_parser.py *)

Inductive Category : Type :=
| info | error | warning | reset | disconnect | over_current
| timeout | descriptor_error | enumeration_error.

(** Timestamps are never produced by the parser; the type only has to
    exist. *)
Definition datetime : Type := Z.

Module LogEntry.

Record t : Type := mk
  { oid : nat;                      (* object identity *)
    message : string;
    timestamp : option datetime;
    raw_line : string;
    device_id : option string;
    vendor_product : option string;
    category : Category }.

(** [_categorize]: the first rule that applies to the lowered message. *)
Definition categorize (message : string) : Category :=
  let msg_lower := lower message in
  if contains_any ["over-current"; "overcurrent"] msg_lower then over_current
  else if contains "reset" msg_lower && contains "usb" msg_lower then reset
  else if contains "disconnect" msg_lower && contains "usb" msg_lower
       then disconnect
  else if contains "error" msg_lower || contains "failed" msg_lower then error
  else if contains "timeout" msg_lower then timeout
  else if contains "descriptor read" msg_lower then descriptor_error
  else if contains "cannot enumerate" msg_lower
          || contains "enumeration failed" msg_lower
       then enumeration_error
  else if contains "warning" msg_lower || contains "warn" msg_lower
       then warning
  else info.

(** [__init__]: the identifiers start as [None], the category is
    computed from [message]. *)
Definition new (o : nat) (message : string) (timestamp : option datetime)
  (raw_line : string) : t :=
  mk o message timestamp raw_line None None (categorize message).

Definition set_device_id (v : option string) (e : t) : t :=
  mk (oid e) (message e) (timestamp e) (raw_line e) v (vendor_product e)
     (category e).

Definition set_vendor_product (v : option string) (e : t) : t :=
  mk (oid e) (message e) (timestamp e) (raw_line e) (device_id e) v
     (category e).

(** [extract_device_info]: both searches read [self.message]. *)
Definition extract_device_info (e : t) : t :=
  let e1 :=
    match re_search bus_device_pattern (message e) with
    | Some m => set_device_id (group 1 m) e
    | None => e
    end in
  match re_search vendor_product_pattern (message e) with
  | Some m =>
      set_vendor_product
        (Some (fmt_opt (group 1 m) ++ ":" ++ fmt_opt (group 2 m))%string)
        (set_device_id None e1)
  | None => e1
  end.

(** [e1 is e2] *)
Definition same (e1 e2 : t) : bool := oid e1 =? oid e2.

End LogEntry.

(** [parse_timestamp]: every pattern is searched, nothing is converted, and
    the function returns [None] on every path. *)
Definition parse_timestamp (line : string) : option datetime := None.

Definition usb_keywords : list string :=
  ["usb"; "over-current"; "overcurrent"; "reset"; "disconnect";
   "descriptor read"; "cannot enumerate"; "enumeration failed"; "timeout"].

(** The prefix strip of [filter_usb_entries]: after the first "] " if there
    is one, else after the last ": " if there is one, else the whole line. *)
Definition strip_prefix (line : string) : string :=
  match after_first "] " line with
  | Some rest => rest
  | None =>
      match after_last ": " line with
      | Some rest => rest
      | None => line
      end
  end.

(** One iteration of the loop of [filter_usb_entries]; [next] is the
    identity given to the entry if one is created. *)
Definition filter_line (next : nat) (line : string) : option LogEntry.t :=
  let line_lower := lower line in
  if contains_any usb_keywords line_lower then
    let message := strip_prefix line in
    let timestamp := parse_timestamp line in
    let entry := LogEntry.new next (strip message) timestamp line in
    Some (LogEntry.extract_device_info entry)
  else None.

Fixpoint filter_usb_entries_from (next : nat) (log_lines : list string)
  : list LogEntry.t :=
  match log_lines with
  | [] => []
  | line :: rest =>
      match filter_line next line with
      | Some entry => entry :: filter_usb_entries_from (S next) rest
      | None => filter_usb_entries_from next rest
      end
  end.

Definition filter_usb_entries (log_lines : list string) : list LogEntry.t :=
  filter_usb_entries_from 0 log_lines.

(* ------------------------------------------------------------------ *)
(** ** Dictionaries in insertion order *)

Section Dict.

Context {K V : Type}.
Variable key_eqb : K -> K -> bool.

Definition dict : Type := list (K * V).

(** [d.get(k)] *)
Fixpoint dict_get (k : K) (d : dict) : option V :=
  match d with
  | [] => None
  | (k', v) :: d' => if key_eqb k' k then Some v else dict_get k d'
  end.

(** [d[k] = v]: an existing key keeps its place. *)
Fixpoint dict_set (k : K) (v : V) (d : dict) : dict :=
  match d with
  | [] => [(k, v)]
  | (k', v') :: d' =>
      if key_eqb k' k then (k', v) :: d' else (k', v') :: dict_set k v d'
  end.

End Dict.

Arguments dict : clear implicits.

(** [d[k].append(x)] on a [defaultdict(list)] *)
Definition dict_append {K X : Type} (key_eqb : K -> K -> bool) (k : K) (x : X)
  (d : dict K (list X)) : dict K (list X) :=
  match dict_get key_eqb k d with
  | Some l => dict_set key_eqb k (l ++ [x]) d
  | None => dict_set key_eqb k [x] d
  end.

(* ------------------------------------------------------------------ *)
(** ** analyzer.py *)

Module DeviceAnalysis.

Record t : Type := mk
  { device : USBDevice.t;
    log_entries : list LogEntry.t;
    issues : list string;
    reset_count : nat;
    disconnect_count : nat;
    error_count : nat;
    warning_count : nat;
    over_current_count : nat;
    timeout_count : nat;
    descriptor_error_count : nat;
    enumeration_error_count : nat }.

Definition new (d : USBDevice.t) : t := mk d [] [] 0 0 0 0 0 0 0 0.

Definition with_counts (a : t) (entries : list LogEntry.t)
  (r d e w o tm de ee : nat) : t :=
  mk (device a) entries (issues a) r d e w o tm de ee.

(** [add_log_entry]: append, then count by category; [info] has no
    counter. *)
Definition add_log_entry (entry : LogEntry.t) (a : t) : t :=
  let l := log_entries a ++ [entry] in
  let r := reset_count a in
  let d := disconnect_count a in
  let e := error_count a in
  let w := warning_count a in
  let o := over_current_count a in
  let tm := timeout_count a in
  let de := descriptor_error_count a in
  let ee := enumeration_error_count a in
  match LogEntry.category entry with
  | reset => with_counts a l (r + 1) d e w o tm de ee
  | disconnect => with_counts a l r (d + 1) e w o tm de ee
  | error => with_counts a l r d (e + 1) w o tm de ee
  | warning => with_counts a l r d e (w + 1) o tm de ee
  | over_current => with_counts a l r d e w (o + 1) tm de ee
  | timeout => with_counts a l r d e w o (tm + 1) de ee
  | descriptor_error => with_counts a l r d e w o tm (de + 1) ee
  | enumeration_error => with_counts a l r d e w o tm de (ee + 1)
  | info => with_counts a l r d e w o tm de ee
  end.

Definition frequent_resets_issue (total_resets : nat) : string :=
  ("Frequent resets/reconnects (" ++ str_of_nat total_resets
   ++ " occurrences) - possible cable, port, or power problem")%string.

Definition multiple_resets_issue (total_resets : nat) : string :=
  ("Multiple resets/reconnects (" ++ str_of_nat total_resets
   ++ " occurrences) - check cable and port connection")%string.

Definition over_current_issue (n : nat) : string :=
  ("Over-current detected (" ++ str_of_nat n
   ++ " times) - device may be drawing too much power or hub has power issue")%string.

Definition descriptor_issue (n : nat) : string :=
  ("Device descriptor read errors (" ++ str_of_nat n
   ++ " times) - possible hardware connection problem")%string.

Definition enumeration_issue (n : nat) : string :=
  ("Enumeration failed (" ++ str_of_nat n
   ++ " times) - device may not be responding properly")%string.

Definition timeout_issue (n : nat) : string :=
  ("USB timeouts (" ++ str_of_nat n
   ++ " times) - device may be slow or unresponsive")%string.

Definition unknown_class_issue : string :=
  "Unknown device class - driver may not be available".

Definition no_driver_issue (cls : string) : string :=
  ("No driver bound - device class " ++ cls
   ++ " may not have a matching kernel module")%string.

Definition errors_issue (n : nat) : string :=
  ("Multiple errors detected (" ++ str_of_nat n
   ++ " times) - device may be malfunctioning")%string.

(** [self.issues.append(s)] *)
Definition add_issue (s : string) (a : t) : t :=
  mk (device a) (log_entries a) (issues a ++ [s])
     (reset_count a) (disconnect_count a) (error_count a) (warning_count a)
     (over_current_count a) (timeout_count a) (descriptor_error_count a)
     (enumeration_error_count a).

(** The checks of [analyze], one per [if] block of the source. *)
Definition check_resets (a : t) : t :=
  let total_resets := reset_count a + disconnect_count a in
  if 5 <=? total_resets then add_issue (frequent_resets_issue total_resets) a
  else if 3 <=? total_resets
       then add_issue (multiple_resets_issue total_resets) a
  else a.

Definition check_over_current (a : t) : t :=
  if 0 <? over_current_count a
  then add_issue (over_current_issue (over_current_count a)) a
  else a.

Definition check_descriptor (a : t) : t :=
  if 0 <? descriptor_error_count a
  then add_issue (descriptor_issue (descriptor_error_count a)) a
  else a.

Definition check_enumeration (a : t) : t :=
  if 0 <? enumeration_error_count a
  then add_issue (enumeration_issue (enumeration_error_count a)) a
  else a.

Definition check_timeouts (a : t) : t :=
  if 0 <? timeout_count a
  then add_issue (timeout_issue (timeout_count a)) a
  else a.

Definition check_driver (a : t) : t :=
  match USBDevice.driver (device a), USBDevice.device_class (device a) with
  | None, Some cls =>
      if negb (String.eqb cls "") then
        if existsb (String.eqb cls) ["00"; "0"; "ff"]
        then add_issue unknown_class_issue a
        else add_issue (no_driver_issue cls) a
      else a
  | _, _ => a
  end.

Definition check_errors (a : t) : t :=
  if 3 <=? error_count a
  then add_issue (errors_issue (error_count a)) a
  else a.

(** [analyze]: the checks run in source order on the same object. *)
Definition analyze (a : t) : t :=
  check_errors
    (check_driver
       (check_timeouts
          (check_enumeration
             (check_descriptor (check_over_current (check_resets a)))))).

End DeviceAnalysis.

Definition device_logs_t : Type := dict USBDevice.t (list LogEntry.t).

(** The two lookup tables of [match_logs_to_devices]. *)
Definition by_id_t : Type := dict string USBDevice.t.
Definition by_vp_t : Type := dict string (list USBDevice.t).

(** One iteration of the loop that fills the lookup tables. *)
Definition index_device (tables : by_id_t * by_vp_t) (device : USBDevice.t)
  : by_id_t * by_vp_t :=
  let devices_by_id :=
    if negb (String.eqb (USBDevice.device_id device) "")
    then dict_set String.eqb (USBDevice.device_id device) device (fst tables)
    else fst tables in
  let devices_by_vp :=
    match USBDevice.get_id_vendor_product device with
    | Some vp_id =>
        if negb (String.eqb vp_id "")
        then dict_append String.eqb vp_id device (snd tables)
        else snd tables
    | None => snd tables
    end in
  (devices_by_id, devices_by_vp).

Definition build_tables (devices : list USBDevice.t) : by_id_t * by_vp_t :=
  fold_left index_device devices ([], []).

(** One iteration of the loop over the log entries. *)
Definition match_entry (tables : by_id_t * by_vp_t)
  (device_logs : device_logs_t) (entry : LogEntry.t) : device_logs_t :=
  let devices_by_id := fst tables in
  let devices_by_vp := snd tables in
  let '(device_logs1, matched) :=
    match LogEntry.device_id entry with
    | Some id =>
        if negb (String.eqb id "") then
          match dict_get String.eqb id devices_by_id with
          | Some device =>
              (dict_append USBDevice.same device entry device_logs, true)
          | None => (device_logs, false)
          end
        else (device_logs, false)
    | None => (device_logs, false)
    end in
  if negb matched then
    match LogEntry.vendor_product entry with
    | Some vp =>
        if negb (String.eqb vp "") then
          match dict_get String.eqb vp devices_by_vp with
          | Some targets =>
              fold_left
                (fun logs device => dict_append USBDevice.same device entry logs)
                targets device_logs1
          | None => device_logs1
          end
        else device_logs1
    | None => device_logs1
    end
  else device_logs1.

Definition match_logs_to_devices (devices : list USBDevice.t)
  (log_entries : list LogEntry.t) : device_logs_t :=
  fold_left (match_entry (build_tables devices)) log_entries [].

(** [device in devices] on a list: identity of the object. *)
Definition device_in (device : USBDevice.t) (devices : list USBDevice.t)
  : bool :=
  existsb (USBDevice.same device) devices.

(** [DeviceAnalysis(device)] and one [add_log_entry] per entry, then
    [analyze()]. *)
Definition collect (device : USBDevice.t) (entries : list LogEntry.t)
  : DeviceAnalysis.t :=
  fold_left (fun a e => DeviceAnalysis.add_log_entry e a) entries
    (DeviceAnalysis.new device).

Definition analysis_of (device : USBDevice.t) (entries : list LogEntry.t)
  : DeviceAnalysis.t :=
  DeviceAnalysis.analyze (collect device entries).

(** The two loops of [analyze_devices] over a given correlation result. *)
Definition analyses_from (devices : list USBDevice.t)
  (device_logs : device_logs_t) : list DeviceAnalysis.t :=
  let listed :=
    map (fun device =>
           analysis_of device
             (match dict_get USBDevice.same device device_logs with
              | Some entries => entries
              | None => []
              end))
        devices in
  let traces :=
    flat_map (fun kv : USBDevice.t * list LogEntry.t =>
                if negb (device_in (fst kv) devices)
                then [analysis_of (fst kv) (snd kv)]
                else [])
             device_logs in
  listed ++ traces.

Definition analyze_devices (devices : list USBDevice.t)
  (log_entries : list LogEntry.t) : list DeviceAnalysis.t :=
  analyses_from devices (match_logs_to_devices devices log_entries).

(** [entry in matched_entries] on a set of entry objects. *)
Definition entry_in (entry : LogEntry.t) (s : list LogEntry.t) : bool :=
  existsb (LogEntry.same entry) s.

(** [matched_entries.update(entries)] *)
Definition set_update (s entries : list LogEntry.t) : list LogEntry.t :=
  fold_left (fun acc e => if entry_in e acc then acc else acc ++ [e]) entries s.

Definition get_unmatched_logs (devices : list USBDevice.t)
  (log_entries : list LogEntry.t) : list LogEntry.t :=
  let device_logs := match_logs_to_devices devices log_entries in
  let matched_entries :=
    fold_left (fun s kv => set_update s (snd kv)) device_logs [] in
  filter (fun entry => negb (entry_in entry matched_entries)) log_entries.

(** The core of [main]: the analyses and the unmatched entries of one run. *)
Definition diagnose (devices : list USBDevice.t) (log_lines : list string)
  : list DeviceAnalysis.t * list LogEntry.t :=
  let log_entries := filter_usb_entries log_lines in
  (analyze_devices devices log_entries, get_unmatched_logs devices log_entries).

(* ------------------------------------------------------------------ *)
(** ** Notions used by the statements *)

(** What each rule of the analyzer reports for given counters and device:
    nothing or one issue. *)
Definition positive_rule (n : nat) (issue : nat -> string) : list string :=
  if 0 <? n then [issue n] else [].

Definition resets_rule (a : DeviceAnalysis.t) : list string :=
  let total_resets :=
    DeviceAnalysis.reset_count a + DeviceAnalysis.disconnect_count a in
  if 5 <=? total_resets
  then [DeviceAnalysis.frequent_resets_issue total_resets]
  else if 3 <=? total_resets
       then [DeviceAnalysis.multiple_resets_issue total_resets]
  else [].

Definition driver_rule (a : DeviceAnalysis.t) : list string :=
  match USBDevice.driver (DeviceAnalysis.device a),
        USBDevice.device_class (DeviceAnalysis.device a) with
  | None, Some cls =>
      if String.eqb cls "" then []
      else if existsb (String.eqb cls) ["00"; "0"; "ff"]
           then [DeviceAnalysis.unknown_class_issue]
           else [DeviceAnalysis.no_driver_issue cls]
  | _, _ => []
  end.

Definition errors_rule (a : DeviceAnalysis.t) : list string :=
  if 3 <=? DeviceAnalysis.error_count a
  then [DeviceAnalysis.errors_issue (DeviceAnalysis.error_count a)]
  else [].

(** The issues after the resets/reconnects rule, in display order. *)
Definition other_rules (a : DeviceAnalysis.t) : list string :=
  positive_rule (DeviceAnalysis.over_current_count a)
    DeviceAnalysis.over_current_issue
  ++ positive_rule (DeviceAnalysis.descriptor_error_count a)
       DeviceAnalysis.descriptor_issue
  ++ positive_rule (DeviceAnalysis.enumeration_error_count a)
       DeviceAnalysis.enumeration_issue
  ++ positive_rule (DeviceAnalysis.timeout_count a)
       DeviceAnalysis.timeout_issue
  ++ driver_rule a
  ++ errors_rule a.

(** The issues the whole rule set derives from an analysis. *)
Definition rule_issues (a : DeviceAnalysis.t) : list string :=
  resets_rule a ++ other_rules a.

(** [self.issues.extend(l)] *)
Definition add_issues (l : list string) (a : DeviceAnalysis.t)
  : DeviceAnalysis.t :=
  DeviceAnalysis.mk (DeviceAnalysis.device a) (DeviceAnalysis.log_entries a)
    (DeviceAnalysis.issues a ++ l)
    (DeviceAnalysis.reset_count a) (DeviceAnalysis.disconnect_count a)
    (DeviceAnalysis.error_count a) (DeviceAnalysis.warning_count a)
    (DeviceAnalysis.over_current_count a) (DeviceAnalysis.timeout_count a)
    (DeviceAnalysis.descriptor_error_count a)
    (DeviceAnalysis.enumeration_error_count a).

(** An issue of the resets/reconnects rule, of either tier. *)
Definition is_resets_issue (s : string) : bool :=
  starts_with "Frequent resets/reconnects" s
  || starts_with "Multiple resets/reconnects" s.

(** The device and the log lines of the end-to-end scenario. *)
Definition scenario_device : USBDevice.t :=
  USBDevice.mk 0 "1-1.2" (Some "1234") (Some "5678") None None (Some "ff")
    None None None None None.

Definition scenario_lines : list string :=
  ["usb 1-1.2: reset"; "usb 1-1.2: reset"; "usb 1-1.2: reset";
   "usb 1-1.2: over-current detected"].

(** The same four messages behind a ring-buffer time stamp. *)
Definition scenario_lines_stamped : list string :=
  ["[  101.5] usb 1-1.2: reset"; "[  102.5] usb 1-1.2: reset";
   "[  103.5] usb 1-1.2: reset"; "[  104.5] usb 1-1.2: over-current detected"].

(** The category rules as a table, in priority order: a test on the
    lowered text and the category it assigns. *)
Definition category_rules : list ((string -> bool) * Category) :=
  [ (fun m => contains "over-current" m || contains "overcurrent" m,
     over_current);
    (fun m => contains "reset" m && contains "usb" m, reset);
    (fun m => contains "disconnect" m && contains "usb" m, disconnect);
    (fun m => contains "error" m || contains "failed" m, error);
    (fun m => contains "timeout" m, timeout);
    (fun m => contains "descriptor read" m, descriptor_error);
    (fun m => contains "cannot enumerate" m || contains "enumeration failed" m,
     enumeration_error);
    (fun m => contains "warning" m || contains "warn" m, warning) ].

(** No rule of the table applies to a text. *)
Definition no_rule_matches (text : string) : bool :=
  forallb (fun rule => negb (fst rule (lower text))) category_rules.

(** A text of length [n] made of characters of one class. *)
Fixpoint all_chars (p : ascii -> bool) (s : string) : bool :=
  match s with
  | EmptyString => true
  | String c s' => p c && all_chars p s'
  end.

Definition is_word4 (s : string) : bool :=
  (length s =? 4) && all_chars is_word s.

(** A vendor:product pair at the very start of a text. *)
Definition vp_prefix (s : string) : option (string * string) :=
  match s with
  | String a1 (String a2 (String a3 (String a4 (String col
      (String b1 (String b2 (String b3 (String b4 _)))))))) =>
      if is_word a1 && is_word a2 && is_word a3 && is_word a4
         && is_char ":" col
         && is_word b1 && is_word b2 && is_word b3 && is_word b4
      then Some (String a1 (String a2 (String a3 (String a4 EmptyString))),
                 String b1 (String b2 (String b3 (String b4 EmptyString))))
      else None
  | _ => None
  end.

(** The leftmost vendor:product pair of a text. *)
Fixpoint first_vp (s : string) : option (string * string) :=
  match vp_prefix s with
  | Some ab => Some ab
  | None =>
      match s with
      | EmptyString => None
      | String _ s' => first_vp s'
      end
  end.

(** [s] holds the vendor:product pair [a]:[b] right after [pre]. *)
Definition vp_occurs_at (s pre a b post : string) : Prop :=
  s = (pre ++ a ++ ":" ++ b ++ post)%string
  /\ is_word4 a = true /\ is_word4 b = true.

(** The devices the loop body of [match_logs_to_devices] appends an entry
    to, read off the lookup tables: the device registered under the entry's
    [device_id] if there is one, else the devices registered under its
    [vendor_product], else none. *)
Definition entry_targets (tables : by_id_t * by_vp_t) (entry : LogEntry.t)
  : list USBDevice.t :=
  let by_id :=
    if truthy (LogEntry.device_id entry)
    then dict_get String.eqb (fmt_opt (LogEntry.device_id entry)) (fst tables)
    else None in
  let by_vp :=
    if truthy (LogEntry.vendor_product entry)
    then dict_get String.eqb (fmt_opt (LogEntry.vendor_product entry))
           (snd tables)
    else None in
  match by_id, by_vp with
  | Some device, _ => [device]
  | None, Some targets => targets
  | None, None => []
  end.

Definition correlation_targets (devices : list USBDevice.t)
  (entry : LogEntry.t) : list USBDevice.t :=
  entry_targets (build_tables devices) entry.

(** The entries associated with a device in a correlation result. *)
Definition logs_for (device : USBDevice.t) (device_logs : device_logs_t)
  : list LogEntry.t :=
  match dict_get USBDevice.same device device_logs with
  | Some entries => entries
  | None => []
  end.

(** How often a device object occurs in a list of devices. *)
Definition occurrences (device : USBDevice.t) (l : list USBDevice.t) : nat :=
  List.length (filter (fun d => USBDevice.same d device) l).

(** The entry carries a [device_id] and some device has exactly that one. *)
Definition id_matches (devices : list USBDevice.t) (entry : LogEntry.t)
  : bool :=
  match LogEntry.device_id entry with
  | Some id =>
      negb (String.eqb id "")
      && existsb (fun d => String.eqb (USBDevice.device_id d) id) devices
  | None => false
  end.

(** The device has the vendor:product key [vp]. *)
Definition has_key (vp : string) (device : USBDevice.t) : bool :=
  match USBDevice.get_id_vendor_product device with
  | Some k => String.eqb k vp
  | None => false
  end.

(** The entry carries a [vendor_product] and some device has that key. *)
Definition vp_matches (devices : list USBDevice.t) (entry : LogEntry.t)
  : bool :=
  match LogEntry.vendor_product entry with
  | Some vp => existsb (has_key vp) devices
  | None => false
  end.

(** All values of a correlation result, one after the other. *)
Definition all_logs (device_logs : device_logs_t) : list LogEntry.t :=
  List.concat (map snd device_logs).

Definition no_target (devices : list USBDevice.t) (entry : LogEntry.t)
  : bool :=
  match correlation_targets devices entry with
  | [] => true
  | _ :: _ => false
  end.

(** Lines used as examples. *)
Definition bare_reset_line : string := "usb 1-1.2: reset".
Definition other_bare_reset_line : string := "usb 3-4: reset".
Definition stamped_reset_line : string := "[  101.5] usb 1-1.2: reset".

(** Sample analyses, filled from ring-buffer lines and not yet analyzed. *)
Definition sample_device : USBDevice.t :=
  USBDevice.mk 7 "2-1" (Some "046d") (Some "c52b") None None (Some "03")
    None (Some "usbhid") None None None.

Definition reset_line : string :=
  "[  211.7] usb 2-1: reset full-speed USB device number 4 using xhci_hcd".

Definition disconnect_line : string :=
  "[  215.2] usb 2-1: USB disconnect, device number 4".

Definition two_resets_two_disconnects : DeviceAnalysis.t :=
  collect sample_device
    (filter_usb_entries
       [reset_line; disconnect_line; reset_line; disconnect_line]).

Definition five_resets : DeviceAnalysis.t :=
  collect sample_device
    (filter_usb_entries
       [reset_line; reset_line; reset_line; reset_line; reset_line]).

Definition three_resets : DeviceAnalysis.t :=
  collect sample_device
    (filter_usb_entries [reset_line; reset_line; reset_line]).

(** A hub, two receivers of one model, and three lines: one naming the
    hub by bus path, one naming the receivers' vendor:product pair, one
    naming a bus path that is not enumerated. *)
Definition hub_device : USBDevice.t :=
  USBDevice.mk 1 "1-1" (Some "1d6b") (Some "0002") None None (Some "09")
    None (Some "hub") None None None.

Definition receiver_a : USBDevice.t :=
  USBDevice.mk 2 "2-1" (Some "046d") (Some "c52b") None None (Some "03")
    None (Some "usbhid") None None None.

Definition receiver_b : USBDevice.t :=
  USBDevice.mk 3 "2-2" (Some "046d") (Some "c52b") None None (Some "03")
    None (Some "usbhid") None None None.

Definition sample_devices : list USBDevice.t :=
  [hub_device; receiver_a; receiver_b].

Definition hub_line : string :=
  "[  300.1] usb 1-1: reset high-speed USB device number 2 using xhci_hcd".

Definition receiver_line : string :=
  "[  300.2] usbhid: new device 046d:c52b registered".

Definition trace_line : string :=
  "[  300.3] usb 3-2: USB disconnect, device number 5".

Definition hub_entry : LogEntry.t :=
  LogEntry.mk 0
    "usb 1-1: reset high-speed USB device number 2 using xhci_hcd" None
    hub_line (Some "1-1") None reset.

Definition receiver_entry : LogEntry.t :=
  LogEntry.mk 1 "usbhid: new device 046d:c52b registered" None receiver_line
    None (Some "046d:c52b") info.

Definition trace_entry : LogEntry.t :=
  LogEntry.mk 2 "usb 3-2: USB disconnect, device number 5" None trace_line
    (Some "3-2") None disconnect.

Definition sample_entries : list LogEntry.t :=
  [hub_entry; receiver_entry; trace_entry].

(** A message with a bus path in front of a vendor:product pair. *)
Definition both_ids_message : string :=
  "usb 1-1.2: New USB device found 1234:5678 here".

(* ------------------------------------------------------------------ *)
(** ** What a pattern matches *)

(** [Matches r w c0 c1]: the pattern [r] matches exactly the text [w],
    turning the captures [c0] into [c1]. *)
Inductive Matches : regex -> string -> captures -> captures -> Prop :=
| MChar (p : ascii -> bool) (c : ascii) (c0 : captures) :
    p c = true -> Matches (RChar p) (String c EmptyString) c0 c0
| MSeq (a b : regex) (w1 w2 : string) (c0 c1 c2 : captures) :
    Matches a w1 c0 c1 -> Matches b w2 c1 c2 ->
    Matches (RSeq a b) (w1 ++ w2)%string c0 c2
| MOptSome (a : regex) (w : string) (c0 c1 : captures) :
    Matches a w c0 c1 -> Matches (ROpt a) w c0 c1
| MOptNone (a : regex) (c0 : captures) :
    Matches (ROpt a) EmptyString c0 c0
| MStarNil (a : regex) (c0 : captures) :
    Matches (RStar a) EmptyString c0 c0
| MStarCons (a : regex) (w1 w2 : string) (c0 c1 c2 : captures) :
    Matches a w1 c0 c1 -> Matches (RStar a) w2 c1 c2 ->
    Matches (RStar a) (w1 ++ w2)%string c0 c2
| MGroup (n : nat) (a : regex) (w : string) (c0 c1 : captures) :
    Matches a w c0 c1 -> Matches (RGroup n a) w c0 ((n, w) :: c1).

(** A non-empty run of decimal digits. *)
Definition is_digits (s : string) : bool :=
  negb (String.eqb s "") && all_chars is_digit s.

(** [".2.13"] for [["2"; "13"]] *)
Fixpoint dotted (subs : list string) : string :=
  match subs with
  | [] => EmptyString
  | d :: subs' => ("." ++ d ++ dotted subs')%string
  end.

(** A bus path: bus number, hyphen, port number, then any number of
    [.port] groups. *)
Definition BusPath (s : string) : Prop :=
  exists (bus port : string) (subs : list string),
    s = (bus ++ "-" ++ port ++ dotted subs)%string
    /\ is_digits bus = true /\ is_digits port = true
    /\ Forall (fun d => is_digits d = true) subs.

(** One [\.\d+] group, and the bus-path part of both patterns. *)
Definition dot_group : regex :=
  RSeq (RChar (is_char ".")) (RPlus (RChar is_digit)).

Definition bus_path_body : regex :=
  seq_of [RPlus (RChar is_digit); RChar (is_char "-"); RPlus (RChar is_digit)]
    (RStar dot_group).

(* ------------------------------------------------------------------ *)
(** ** device_enum.py: directory names and the parent heuristic *)

(** [$] without [re.MULTILINE]: the end of the text, or the newline that
    ends it. *)
Definition at_end (s : string) : bool :=
  match s with
  | EmptyString => true
  | String c EmptyString => Ascii.eqb c "010"
  | String _ (String _ _) => false
  end.

(** The pattern of [parse_device_id] between its anchors: group 1 [\d+], a
    hyphen, group 2 [\d+] followed by any number of [\.\d+]. *)
Definition device_dir_pattern : regex :=
  seq_of [RGroup 1 (RPlus (RChar is_digit)); RChar (is_char "-")]
    (RGroup 2
       (RSeq (RPlus (RChar is_digit))
          (RStar (RSeq (RChar (is_char ".")) (RPlus (RChar is_digit)))))).

(** [re.match] of a pattern that ends in [$]. *)
Definition re_match_to_end (r : regex) (s : string) : option captures :=
  re_match r s [] (fun s' c => if at_end s' then Some c else None).

Definition parse_device_id (device_dir : string) : option string :=
  match re_match_to_end device_dir_pattern device_dir with
  | Some _ => Some device_dir
  | None => None
  end.

(* ------------------------------------------------------------------ *)
(** ** Counting entries *)

Definition category_eqb (a b : Category) : bool :=
  match a, b with
  | info, info | error, error | warning, warning | reset, reset
  | disconnect, disconnect | over_current, over_current | timeout, timeout
  | descriptor_error, descriptor_error
  | enumeration_error, enumeration_error => true
  | _, _ => false
  end.

(** The number of entries of a category. *)
Definition count_category (c : Category) (entries : list LogEntry.t) : nat :=
  List.length
    (filter (fun e => category_eqb (LogEntry.category e) c) entries).

(** A line that holds none of the keywords and would be an error. *)
Definition io_error_line : string := "[  412.9] sd 2:0:0:0: I/O error".

(** What [add_log_entry] keeps true of an analysis. *)
Definition counted (a : DeviceAnalysis.t) : Prop :=
  DeviceAnalysis.reset_count a
  = count_category reset (DeviceAnalysis.log_entries a)
  /\ DeviceAnalysis.disconnect_count a
     = count_category disconnect (DeviceAnalysis.log_entries a)
  /\ DeviceAnalysis.error_count a
     = count_category error (DeviceAnalysis.log_entries a)
  /\ DeviceAnalysis.warning_count a
     = count_category warning (DeviceAnalysis.log_entries a)
  /\ DeviceAnalysis.over_current_count a
     = count_category over_current (DeviceAnalysis.log_entries a)
  /\ DeviceAnalysis.timeout_count a
     = count_category timeout (DeviceAnalysis.log_entries a)
  /\ DeviceAnalysis.descriptor_error_count a
     = count_category descriptor_error (DeviceAnalysis.log_entries a)
  /\ DeviceAnalysis.enumeration_error_count a
     = count_category enumeration_error (DeviceAnalysis.log_entries a).

(* ------------------------------------------------------------------ *)
(** ** More text operations *)

(** [s.split(c)] for a separator of one character. *)
Fixpoint split_on (c : ascii) (s : string) : list string :=
  match s with
  | EmptyString => [EmptyString]
  | String x s' =>
      if Ascii.eqb x c then EmptyString :: split_on c s'
      else match split_on c s' with
           | piece :: pieces => String x piece :: pieces
           | [] => [String x EmptyString]
           end
  end.

(** [s.endswith(suffix)] *)
Fixpoint ends_with (suffix s : string) : bool :=
  String.eqb s suffix
  || match s with
     | EmptyString => false
     | String _ s' => ends_with suffix s'
     end.

(** The parent heuristic of [get_device_hierarchy], applied to the device
    id of one directory: the id without its last [.port] group; no parent
    for a root hub [<bus>-0]; else the root hub of the bus. *)
Definition parent_of (device_id : string) : option string :=
  let parts := split_on "." device_id in
  if 1 <? List.length parts
  then Some (String.concat "." (removelast parts))
  else if ends_with "-0" device_id then None
  else
    let bus_part := hd EmptyString (split_on "-" device_id) in
    Some (bus_part ++ "-0")%string.

(* ------------------------------------------------------------------ *)
(** ** cli.py: the device filter *)

Definition is_hex_digit (c : ascii) : bool :=
  in_range 48 57 c || in_range 65 70 c || in_range 97 102 c.

(** The whitespace [int] skips around a number. *)
Definition is_int_space (c : ascii) : bool :=
  in_range 9 13 c || (nat_of_ascii c =? 32)
  || (nat_of_ascii c =? 133) || (nat_of_ascii c =? 160).

Fixpoint skip_int_space (s : string) : string :=
  match s with
  | EmptyString => EmptyString
  | String c s' => if is_int_space c then skip_int_space s' else s
  end.

(** The digits of a base 16 literal, single underscores between them
    allowed, then whitespace up to the end. *)
Fixpoint int16_digits (after_underscore any : bool) (s : string) : bool :=
  match s with
  | EmptyString => any && negb after_underscore
  | String c s' =>
      if Ascii.eqb c "_"
      then if after_underscore then false else int16_digits true true s'
      else if is_hex_digit c then int16_digits false true s'
      else any && negb after_underscore && all_chars is_int_space s
  end.

(** [int(s, 16)] returns a number ([true]) or raises [ValueError]:
    optional whitespace, an optional sign, an optional [0x] prefix that may
    be followed by one underscore, then the digits. *)
Definition int16_ok (s : string) : bool :=
  let s1 := skip_int_space s in
  let s2 :=
    match s1 with
    | String c r => if Ascii.eqb c "+" || Ascii.eqb c "-" then r else s1
    | EmptyString => s1
    end in
  let s3 :=
    match s2 with
    | String z (String x r) =>
        if Ascii.eqb z "0" && (Ascii.eqb x "x" || Ascii.eqb x "X")
        then match r with
             | String u r' => if Ascii.eqb u "_" then r' else r
             | EmptyString => r
             end
        else s2
    | _ => s2
    end in
  match s3 with
  | String u _ => if Ascii.eqb u "_" then false else int16_digits false false s3
  | EmptyString => false
  end.

Definition parse_device_filter (device_arg : option string)
  : option string * option string :=
  if negb (truthy device_arg) then (None, None)
  else
    let arg := fmt_opt device_arg in
    let parts := split_on ":" arg in
    let vendor_product :=
      if contains ":" arg && (List.length parts =? 2) then
        match parts with
        | [p0; p1] =>
            if (length p0 =? 4) && (length p1 =? 4)
            then if int16_ok p0 && int16_ok p1 then Some (lower arg) else None
            else None
        | _ => None
        end
      else None in
    match vendor_product with
    | Some vp => (None, Some vp)
    | None => if contains "-" arg then (Some arg, None) else (None, None)
    end.

(** One iteration of the loop of [filter_devices]: is the device kept? *)
Definition device_selected (device_id_filter vendor_product_filter
                              : option string) (device : USBDevice.t)
  : bool :=
  if truthy device_id_filter
     && String.eqb (USBDevice.device_id device) (fmt_opt device_id_filter)
  then true
  else if truthy vendor_product_filter then
    match USBDevice.get_id_vendor_product device with
    | Some vp_id =>
        negb (String.eqb vp_id "")
        && String.eqb (lower vp_id) (fmt_opt vendor_product_filter)
    | None => false
    end
  else false.

Definition filter_devices (devices : list USBDevice.t)
  (device_id_filter vendor_product_filter : option string)
  : list USBDevice.t :=
  if negb (truthy device_id_filter) && negb (truthy vendor_product_filter)
  then devices
  else filter (device_selected device_id_filter vendor_product_filter)
         devices.

(** Four hexadecimal digits. *)
Definition is_hex4 (s : string) : bool :=
  (length s =? 4) && all_chars is_hex_digit s.

(* ------------------------------------------------------------------ *)
(** ** log_parser.py: choosing the log source *)

(** A line boundary of [str.splitlines]: LF, VT, FF, CR, FS, GS, RS, NEL. *)
Definition is_line_break (c : ascii) : bool :=
  in_range 10 13 c || in_range 28 30 c || (nat_of_ascii c =? 133).

(** [s.splitlines()]; CR LF counts as one boundary, and there is no empty
    last line. *)
Fixpoint splitlines_from (cur : string) (s : string) : list string :=
  match s with
  | EmptyString => if String.eqb cur "" then [] else [cur]
  | String c s' =>
      if is_line_break c then
        cur :: match s' with
               | String n s'' =>
                   if Ascii.eqb c "013" && Ascii.eqb n "010"
                   then splitlines_from EmptyString s''
                   else splitlines_from EmptyString s'
               | EmptyString => splitlines_from EmptyString s'
               end
      else splitlines_from (cur ++ String c EmptyString) s'
  end.

Definition splitlines (s : string) : list string :=
  splitlines_from EmptyString s.

(** The three readers of [parse_kernel_logs] do input and output; they are
    taken as given: each returns the text it read or [None], as
    [parse_journalctl], [parse_dmesg] and [parse_log_file] do when the
    command or the file fails. *)
Record LogSources : Type := mkLogSources
  { read_journalctl : option Z -> option string;
    read_dmesg : option Z -> option string;
    read_log_file : string -> option Z -> option string }.

(** Truthiness of an [Optional[int]]: neither [None] nor zero. *)
Definition truthy_int (o : option Z) : bool :=
  match o with
  | Some z => negb (Z.eqb z 0)
  | None => false
  end.

Definition log_files : list string :=
  ["/var/log/kern.log"; "/var/log/messages"; "/var/log/syslog"].

(** The [for ... break] loop over the log files: the first text that is
    not empty, else what the last file gave. *)
Fixpoint first_log_file (src : LogSources) (lines : option Z)
  (files : list string) (log_output : option string) : option string :=
  match files with
  | [] => log_output
  | f :: rest =>
      let log_output := read_log_file src f lines in
      if truthy log_output then log_output
      else first_log_file src lines rest log_output
  end.

(** The text [parse_kernel_logs] works on: journalctl, else dmesg, else
    the log files. *)
Definition chosen_log_output (src : LogSources)
  (since_seconds lines : option Z) : option string :=
  let log_output :=
    if truthy_int since_seconds then read_journalctl src since_seconds
    else read_journalctl src None in
  let log_output :=
    if negb (truthy log_output) then read_dmesg src lines else log_output in
  if negb (truthy log_output)
  then first_log_file src lines log_files log_output
  else log_output.

(** [parse_kernel_logs].  [cutoff since] is
    [datetime.now() - timedelta(seconds=since)], or [None] when that
    subtraction raises [OverflowError]; the result [None] stands for that
    exception leaving the function. *)
Definition parse_kernel_logs (src : LogSources)
  (cutoff : Z -> option datetime) (since_seconds lines : option Z)
  : option (list LogEntry.t) :=
  let log_output := chosen_log_output src since_seconds lines in
  if negb (truthy log_output) then Some []
  else
    let log_lines := splitlines (fmt_opt log_output) in
    let entries := filter_usb_entries log_lines in
    if truthy_int since_seconds
       && match entries with [] => false | _ :: _ => true end
    then
      match cutoff (match since_seconds with Some z => z | None => 0%Z end) with
      | None => None
      | Some cutoff_time =>
          Some (filter
                  (fun entry =>
                     match LogEntry.timestamp entry with
                     | None => true
                     | Some t => Z.leb cutoff_time t
                     end)
                  entries)
      end
    else Some entries.

(* ------------------------------------------------------------------ *)
(** ** device_enum.py: names from lsusb *)

(** [s.split(sep)] for a non-empty separator: [skip] characters of a
    separator that was just found are still to be passed over, [cur] is the
    piece being read. *)
Fixpoint split_str_from (sep : string) (skip : nat) (cur : string)
  (s : string) : list string :=
  match s with
  | EmptyString => [cur]
  | String c s' =>
      match skip with
      | S k => split_str_from sep k cur s'
      | O =>
          if starts_with sep s
          then cur :: split_str_from sep (length sep - 1) EmptyString s'
          else split_str_from sep 0 (cur ++ String c EmptyString) s'
      end
  end.

Definition split_str (sep s : string) : list string :=
  split_str_from sep 0 EmptyString s.

(** [s.split(c, maxsplit)] for a separator of one character. *)
Fixpoint split_max_from (c : ascii) (maxsplit : nat) (cur : string)
  (s : string) : list string :=
  match s with
  | EmptyString => [cur]
  | String x s' =>
      match maxsplit with
      | O => [(cur ++ s)%string]
      | S m =>
          if Ascii.eqb x c then cur :: split_max_from c m EmptyString s'
          else split_max_from c maxsplit (cur ++ String x EmptyString) s'
      end
  end.

Definition split_max (c : ascii) (maxsplit : nat) (s : string)
  : list string :=
  split_max_from c maxsplit EmptyString s.

(** The pattern "ID (\w{4}):(\w{4})". *)
Definition lsusb_id_pattern : regex :=
  seq_of [RChar (is_char "I"); RChar (is_char "D"); RChar (is_char " ")]
    vendor_product_pattern.

Definition literal (s : string) : regex -> regex :=
  seq_of (map (fun c => RChar (is_char c)) (list_ascii_of_string s)).

(** The patterns "idVendor\s+0x\w+\s+(\S.+)" and
    "idProduct\s+0x\w+\s+(\S.+)": the field name, whitespace, a number
    written with 0x, whitespace, and as group 1 a character that is no
    whitespace followed by at least one character other than a newline. *)
Definition lsusb_field_pattern (field : string) : regex :=
  literal field
    (seq_of [RPlus (RChar is_space); RChar (is_char "0"); RChar (is_char "x");
             RPlus (RChar is_word); RPlus (RChar is_space)]
       (RGroup 1
          (RSeq (RChar (fun c => negb (is_space c)))
             (RPlus (RChar (fun c => negb (Ascii.eqb c "010"))))))).

(** The dictionary [current_info]: each of the two keys is absent, or
    present with a name or [None]. *)
Record NameInfo : Type := mkNameInfo
  { info_vendor_name : option (option string);
    info_product_name : option (option string) }.

Record LsusbState : Type := mkLsusbState
  { lsusb_info : dict string NameInfo;
    current_vendor_product : option string;
    current_info : NameInfo }.

(** One iteration of the loop of [parse_lsusb_v]. *)
Definition lsusb_line (st : LsusbState) (raw : string) : LsusbState :=
  let line := strip raw in
  let st1 :=
    if starts_with "Bus " line && contains "Device " line
       && contains "ID " line
    then
      match re_search lsusb_id_pattern line with
      | Some id_match =>
          let vendor_id := fmt_opt (group 1 id_match) in
          let product_id := fmt_opt (group 2 id_match) in
          let parts := split_max " " 2 (nth 1 (split_str "ID " line) "") in
          mkLsusbState (lsusb_info st)
            (Some (vendor_id ++ ":" ++ product_id)%string)
            (if 3 <=? List.length parts
             then mkNameInfo
                    (Some (if 0 <? length (nth 2 parts "")
                           then Some (nth 2 parts "") else None))
                    (Some None)
             else mkNameInfo None None)
      | None => st
      end
    else st in
  let st2 :=
    if contains "idVendor" line && truthy (current_vendor_product st1) then
      match re_search (lsusb_field_pattern "idVendor") line with
      | Some m =>
          mkLsusbState (lsusb_info st1) (current_vendor_product st1)
            (mkNameInfo (Some (Some (strip (fmt_opt (group 1 m)))))
               (info_product_name (current_info st1)))
      | None => st1
      end
    else st1 in
  if contains "idProduct" line && truthy (current_vendor_product st2) then
    let st3 :=
      match re_search (lsusb_field_pattern "idProduct") line with
      | Some m =>
          mkLsusbState (lsusb_info st2) (current_vendor_product st2)
            (mkNameInfo (info_vendor_name (current_info st2))
               (Some (Some (strip (fmt_opt (group 1 m))))))
      | None => st2
      end in
    if truthy (current_vendor_product st3)
    then mkLsusbState
           (dict_set String.eqb (fmt_opt (current_vendor_product st3))
              (current_info st3) (lsusb_info st3))
           None (current_info st3)
    else st3
  else st2.

Definition parse_lsusb_v (lsusb_v_output : string) : dict string NameInfo :=
  lsusb_info
    (fold_left lsusb_line (splitlines lsusb_v_output)
       (mkLsusbState [] None (mkNameInfo None None))).

(** A piece of [lsusb -v] output, and a piece of plain [lsusb] output. *)
Definition lsusb_v_sample : string :=
  "Bus 001 Device 004: ID 046d:c52b Logitech, Inc. Unifying Receiver" ++ String "010"
  ("Device Descriptor:" ++ String "010"
  ("  idVendor           0x046d Logitech, Inc." ++ String "010"
  ("  idProduct          0xc52b Unifying Receiver" ++ String "010" ""))).

Definition lsusb_sample : string :=
  "Bus 001 Device 004: ID 046d:c52b Logitech, Inc. Unifying Receiver" ++ String "010"
  ("Bus 001 Device 001: ID 1d6b:0002 Linux Foundation 2.0 root hub" ++ String "010" "").

(* ------------------------------------------------------------------ *)
(** ** device_enum.py: enrichment with the names from lsusb *)

(** [device.vendor_name = n] and [device.product_name = n] *)
Definition set_vendor_name (n : option string) (d : USBDevice.t)
  : USBDevice.t :=
  USBDevice.mk (USBDevice.oid d) (USBDevice.device_id d)
    (USBDevice.vendor_id d) (USBDevice.product_id d)
    n (USBDevice.product_name d)
    (USBDevice.device_class d) (USBDevice.speed d) (USBDevice.driver d)
    (USBDevice.busnum d) (USBDevice.devnum d) (USBDevice.parent_id d).

Definition set_product_name (n : option string) (d : USBDevice.t)
  : USBDevice.t :=
  USBDevice.mk (USBDevice.oid d) (USBDevice.device_id d)
    (USBDevice.vendor_id d) (USBDevice.product_id d)
    (USBDevice.vendor_name d) n
    (USBDevice.device_class d) (USBDevice.speed d) (USBDevice.driver d)
    (USBDevice.busnum d) (USBDevice.devnum d) (USBDevice.parent_id d).

(** The body of the loop over the devices, which
    [enrich_devices_with_lsusb] has twice. *)
Definition enrich_device (lsusb_info : dict string NameInfo)
  (device : USBDevice.t) : USBDevice.t :=
  let vp_id := USBDevice.get_id_vendor_product device in
  if truthy vp_id then
    match dict_get String.eqb (fmt_opt vp_id) lsusb_info with
    | Some names =>
        let device1 :=
          match info_vendor_name names with
          | Some n => set_vendor_name n device
          | None => device
          end in
        match info_product_name names with
        | Some n => set_product_name n device1
        | None => device1
        end
    | None => device
    end
  else device.

(** How the call of [lsusb -v] ends: with a return code and its output, or
    with one of the exceptions the function catches. *)
Inductive LsusbRun : Type :=
| Completed (returncode : Z) (stdout : string)
| Raised.

(** [enrich_devices_with_lsusb]; [lsusb_output] is what [get_lsusb_info]
    returned, and the result lists the devices as the loop leaves them. *)
Definition enrich_devices_with_lsusb (lsusb_output : option string)
  (run : LsusbRun) (devices : list USBDevice.t) : list USBDevice.t :=
  if negb (truthy lsusb_output) then devices
  else
    match run with
    | Completed returncode stdout =>
        if Z.eqb returncode 0
        then map (enrich_device (parse_lsusb_v stdout)) devices
        else devices
    | Raised =>
        map (enrich_device (parse_lsusb_v (fmt_opt lsusb_output))) devices
    end.

(** The analysis [a], of the device object [d]. *)
Definition with_device (d : USBDevice.t) (a : DeviceAnalysis.t)
  : DeviceAnalysis.t :=
  DeviceAnalysis.mk d (DeviceAnalysis.log_entries a) (DeviceAnalysis.issues a)
    (DeviceAnalysis.reset_count a) (DeviceAnalysis.disconnect_count a)
    (DeviceAnalysis.error_count a) (DeviceAnalysis.warning_count a)
    (DeviceAnalysis.over_current_count a) (DeviceAnalysis.timeout_count a)
    (DeviceAnalysis.descriptor_error_count a)
    (DeviceAnalysis.enumeration_error_count a).

(** Two device objects that differ in their names at most. *)
Definition same_but_names (d d' : USBDevice.t) : Prop :=
  USBDevice.oid d' = USBDevice.oid d
  /\ USBDevice.device_id d' = USBDevice.device_id d
  /\ USBDevice.vendor_id d' = USBDevice.vendor_id d
  /\ USBDevice.product_id d' = USBDevice.product_id d
  /\ USBDevice.device_class d' = USBDevice.device_class d
  /\ USBDevice.speed d' = USBDevice.speed d
  /\ USBDevice.driver d' = USBDevice.driver d
  /\ USBDevice.busnum d' = USBDevice.busnum d
  /\ USBDevice.devnum d' = USBDevice.devnum d
  /\ USBDevice.parent_id d' = USBDevice.parent_id d.

(* ------------------------------------------------------------------ *)
(** ** Notions used in the statements about texts and patterns *)

(** Any character but [c]. *)
Definition other_than (c : ascii) (x : ascii) : bool := negb (Ascii.eqb x c).

(** Whatever the matcher returns through a continuation comes from a
    match of the pattern at the start of the text. *)
Definition sound_for (A : Type) (r : regex) : Prop :=
  forall (s : string) (c0 : captures) (k : string -> captures -> option A)
         (x : A),
    re_match r s c0 k = Some x ->
    exists (w s' : string) (c1 : captures),
      s = (w ++ s')%string /\ Matches r w c0 c1 /\ k s' c1 = Some x.

(** A key of the lsusb dictionary that was read from the text: four word
    characters, a colon, four word characters, standing after "ID ". *)
Definition read_from_id (text k : string) : Prop :=
  exists a b : string,
    k = (a ++ ":" ++ b)%string
    /\ is_word4 a = true /\ is_word4 b = true
    /\ contains ("ID " ++ k) text = true.

(* ================================================================== *)
(** * Properties *)

(* ------------------------------------------------------------------ *)
(** ** The matcher *)

Section Matcher.

Context {A : Type}.

Lemma star_loop_ext
  (body : string -> captures -> (string -> captures -> option A) -> option A)
  (Hbody : forall s caps k1 k2,
      (forall s' c', k1 s' c' = k2 s' c') -> body s caps k1 = body s caps k2)
  (k1 k2 : string -> captures -> option A) :
  (forall s' c', k1 s' c' = k2 s' c') ->
  forall fuel s caps,
    star_loop body k1 fuel s caps = star_loop body k2 fuel s caps.
Proof.
  intros Hk. induction fuel as [|fuel IH]; intros s caps; cbn [star_loop].
  - apply Hk.
  - rewrite Hk.
    rewrite (Hbody s caps _
               (fun s' c' =>
                  if length s' <? length s then star_loop body k2 fuel s' c'
                  else None)); [reflexivity|].
    intros s' c'. destruct (length s' <? length s); [apply IH|reflexivity].
Qed.

(** The result of a match depends on the continuation only through its
    values. *)
Lemma re_match_ext (r : regex) :
  forall (s : string) (caps : captures)
         (k1 k2 : string -> captures -> option A),
    (forall s' c', k1 s' c' = k2 s' c') ->
    re_match r s caps k1 = re_match r s caps k2.
Proof.
  induction r as [p|a IHa b IHb|a IHa|a IHa|n a IHa]; intros s caps k1 k2 Hk;
    cbn [re_match].
  - destruct s as [|c s]; [reflexivity|]. destruct (p c); [apply Hk|reflexivity].
  - apply IHa. intros s' c'. now apply IHb.
  - now rewrite (IHa s caps k1 k2 Hk), Hk.
  - now apply star_loop_ext.
  - apply IHa. intros s' c'. apply Hk.
Qed.

Lemma star_loop_fail
  (body : string -> captures -> (string -> captures -> option A) -> option A)
  (Hext : forall s caps k1 k2,
      (forall s' c', k1 s' c' = k2 s' c') -> body s caps k1 = body s caps k2)
  (Hfail : forall s caps, body s caps (fun _ _ => None) = None) :
  forall fuel s caps, star_loop body (fun _ _ => None) fuel s caps = None.
Proof.
  induction fuel as [|fuel IH]; intros s caps; cbn [star_loop]; [reflexivity|].
  rewrite (Hext s caps _ (fun _ _ => None)); [now rewrite Hfail|].
  intros s' c'. destruct (length s' <? length s); [apply IH|reflexivity].
Qed.

(** A continuation that always fails makes the match fail. *)
Lemma re_match_fail (r : regex) :
  forall (s : string) (caps : captures),
    re_match r s caps (fun _ _ => @None A) = None.
Proof.
  induction r as [p|a IHa b IHb|a IHa|a IHa|n a IHa]; intros s caps;
    cbn [re_match].
  - destruct s as [|c s]; [reflexivity|]. now destruct (p c).
  - rewrite (re_match_ext a s caps _ (fun _ _ => None)); auto.
  - now rewrite IHa.
  - apply star_loop_fail; [apply re_match_ext|apply IHa].
  - apply IHa.
Qed.

(** The length of the text is enough fuel for a repetition: more fuel
    gives the same result. *)
Lemma star_fuel_enough (a : regex) (k : string -> captures -> option A) :
  forall (n m : nat) (s : string) (caps : captures),
    length s <= n -> length s <= m ->
    star_loop (re_match a) k n s caps = star_loop (re_match a) k m s caps.
Proof.
  assert (Hzero : forall m s caps,
             length s = 0 ->
             star_loop (re_match a) k m s caps = k s caps).
  { intros [|m] s caps Hs; cbn [star_loop]; [reflexivity|].
    rewrite (re_match_ext a s caps _ (fun _ _ => None)).
    - now rewrite re_match_fail.
    - intros s' c'. rewrite Hs. reflexivity. }
  induction n as [|n IH]; intros m s caps Hn Hm.
  - rewrite (Hzero m s caps) by lia. reflexivity.
  - destruct m as [|m].
    + rewrite (Hzero (S n) s caps) by lia. reflexivity.
    + cbn [star_loop].
      rewrite (re_match_ext a s caps _
                 (fun s' c' =>
                    if length s' <? length s
                    then star_loop (re_match a) k m s' c'
                    else None)); [reflexivity|].
      intros s' c'. destruct (length s' <? length s) eqn:Hlt; [|reflexivity].
      apply Nat.ltb_lt in Hlt. apply IH; lia.
Qed.

End Matcher.

(* ------------------------------------------------------------------ *)
(** ** The rule set *)

Lemma add_issues_nil (a : DeviceAnalysis.t) : add_issues [] a = a.
Proof. destruct a; unfold add_issues; cbn; now rewrite app_nil_r. Qed.

Lemma add_issues_app (l1 l2 : list string) (a : DeviceAnalysis.t) :
  add_issues l2 (add_issues l1 a) = add_issues (l1 ++ l2) a.
Proof. unfold add_issues; cbn; now rewrite app_assoc. Qed.

Lemma check_resets_eq a :
  DeviceAnalysis.check_resets a = add_issues (resets_rule a) a.
Proof.
  unfold DeviceAnalysis.check_resets, resets_rule.
  destruct (5 <=? _); [reflexivity|].
  destruct (3 <=? _); [reflexivity|].
  now rewrite add_issues_nil.
Qed.

Lemma check_positive_eq (n : nat) (issue : nat -> string) a :
  (if 0 <? n then DeviceAnalysis.add_issue (issue n) a else a)
  = add_issues (positive_rule n issue) a.
Proof.
  unfold positive_rule. destruct (0 <? n); [reflexivity|].
  now rewrite add_issues_nil.
Qed.

Lemma check_driver_eq a :
  DeviceAnalysis.check_driver a = add_issues (driver_rule a) a.
Proof.
  unfold DeviceAnalysis.check_driver, driver_rule.
  destruct (USBDevice.driver (DeviceAnalysis.device a)),
    (USBDevice.device_class (DeviceAnalysis.device a)) as [cls|];
    try (now rewrite add_issues_nil).
  destruct (String.eqb cls ""); cbn [negb]; [now rewrite add_issues_nil|].
  destruct (existsb _ _); reflexivity.
Qed.

Lemma check_errors_eq a :
  DeviceAnalysis.check_errors a = add_issues (errors_rule a) a.
Proof.
  unfold DeviceAnalysis.check_errors, errors_rule.
  destruct (3 <=? _); [reflexivity|]. now rewrite add_issues_nil.
Qed.

(** [analyze] extends the issue list by what the rules derive and changes
    nothing else. *)
Lemma analyze_eq (a : DeviceAnalysis.t) :
  DeviceAnalysis.analyze a = add_issues (rule_issues a) a.
Proof.
  unfold DeviceAnalysis.analyze.
  rewrite check_resets_eq.
  unfold DeviceAnalysis.check_over_current, DeviceAnalysis.check_descriptor,
    DeviceAnalysis.check_enumeration, DeviceAnalysis.check_timeouts.
  rewrite !check_positive_eq, check_driver_eq, check_errors_eq.
  rewrite !add_issues_app.
  unfold rule_issues, other_rules. rewrite <- !app_assoc. reflexivity.
Qed.

Lemma analyze_issues (a : DeviceAnalysis.t) :
  DeviceAnalysis.issues (DeviceAnalysis.analyze a)
  = DeviceAnalysis.issues a ++ rule_issues a.
Proof. now rewrite analyze_eq. Qed.

Lemma rule_issues_add_issues (l : list string) (a : DeviceAnalysis.t) :
  rule_issues (add_issues l a) = rule_issues a.
Proof. reflexivity. Qed.

Lemma other_rules_no_resets_issue (a : DeviceAnalysis.t) :
  filter is_resets_issue (other_rules a) = [].
Proof.
  unfold other_rules, positive_rule, driver_rule, errors_rule.
  rewrite !filter_app.
  destruct (0 <? DeviceAnalysis.over_current_count a),
    (0 <? DeviceAnalysis.descriptor_error_count a),
    (0 <? DeviceAnalysis.enumeration_error_count a),
    (0 <? DeviceAnalysis.timeout_count a),
    (3 <=? DeviceAnalysis.error_count a);
    destruct (USBDevice.driver (DeviceAnalysis.device a)),
      (USBDevice.device_class (DeviceAnalysis.device a)) as [cls|];
    try destruct (String.eqb cls "");
    try destruct (existsb (String.eqb cls) ["00"; "0"; "ff"]);
    reflexivity.
Qed.

Lemma emitted_resets_issues (a : DeviceAnalysis.t) :
  filter is_resets_issue (rule_issues a) = resets_rule a.
Proof.
  unfold rule_issues.
  rewrite filter_app, other_rules_no_resets_issue, app_nil_r.
  unfold resets_rule.
  destruct (5 <=? _); [reflexivity|].
  destruct (3 <=? _); reflexivity.
Qed.

(** C8.  Whatever the other counters and the device are, the analyze step
    emits exactly one resets/reconnects issue when
    [reset_count + disconnect_count >= 3]: the "frequent" one from 5 on, the
    "multiple" one for 3 and 4.  With 2 resets and 2 disconnects it is the
    "multiple" message (4 occurrences), with 5 resets and no disconnect the
    "frequent" message (5 occurrences). *)
Theorem C8_reset_tier_exclusive :
  forall a : DeviceAnalysis.t,
    let total :=
      DeviceAnalysis.reset_count a + DeviceAnalysis.disconnect_count a in
    exists emitted : list string,
      DeviceAnalysis.issues (DeviceAnalysis.analyze a)
      = DeviceAnalysis.issues a ++ emitted
      /\ (5 <= total ->
          filter is_resets_issue emitted
          = [DeviceAnalysis.frequent_resets_issue total])
      /\ (3 <= total < 5 ->
          filter is_resets_issue emitted
          = [DeviceAnalysis.multiple_resets_issue total])
      /\ (DeviceAnalysis.reset_count a = 2 ->
          DeviceAnalysis.disconnect_count a = 2 ->
          filter is_resets_issue emitted
          = ["Multiple resets/reconnects (4 occurrences) - check cable and port connection"])
      /\ (DeviceAnalysis.reset_count a = 5 ->
          DeviceAnalysis.disconnect_count a = 0 ->
          filter is_resets_issue emitted
          = ["Frequent resets/reconnects (5 occurrences) - possible cable, port, or power problem"]).
Proof.
  intros a total. exists (rule_issues a).
  split; [apply analyze_issues|].
  rewrite emitted_resets_issues. unfold resets_rule. fold total.
  repeat split.
  - intros H. apply Nat.leb_le in H. now rewrite H.
  - intros [H3 H5].
    apply Nat.leb_le in H3. apply Nat.leb_gt in H5. now rewrite H5, H3.
  - intros Hr Hd. subst total. rewrite Hr, Hd. reflexivity.
  - intros Hr Hd. subst total. rewrite Hr, Hd. reflexivity.
Qed.

(** C8 at two analyses filled from ring-buffer lines: two resets and two
    disconnects, and five resets. *)
Lemma C8_reset_tier_exclusive_witness :
  (exists emitted : list string,
      DeviceAnalysis.issues (DeviceAnalysis.analyze two_resets_two_disconnects)
      = DeviceAnalysis.issues two_resets_two_disconnects ++ emitted
      /\ filter is_resets_issue emitted
         = [DeviceAnalysis.multiple_resets_issue 4])
  /\ (exists emitted : list string,
         DeviceAnalysis.issues (DeviceAnalysis.analyze five_resets)
         = DeviceAnalysis.issues five_resets ++ emitted
         /\ filter is_resets_issue emitted
            = [DeviceAnalysis.frequent_resets_issue 5]).
Proof.
  split.
  - destruct (C8_reset_tier_exclusive two_resets_two_disconnects)
      as (emitted & Hiss & _ & Hmul & _ & _).
    exists emitted. split; [exact Hiss|].
    apply Hmul. vm_compute. lia.
  - destruct (C8_reset_tier_exclusive five_resets)
      as (emitted & Hiss & Hfreq & _ & _ & _).
    exists emitted. split; [exact Hiss|].
    apply Hfreq. vm_compute. lia.
Defined.

(** C10 (as stated).  On an analysis holding three reset entries a second
    call of [analyze] does not leave the issue list as the first call left
    it. *)
Lemma C10_analyze_twice_counterexample :
  DeviceAnalysis.issues
    (DeviceAnalysis.analyze (DeviceAnalysis.analyze three_resets))
  <> DeviceAnalysis.issues (DeviceAnalysis.analyze three_resets).
Proof. vm_compute. discriminate. Qed.

(** C10 (amended).  [analyze] appends and never clears: a second call adds
    the issues of the first call once more, so two calls leave the issues
    the first call emitted twice; the list is the same after the second
    call exactly when the rules derive no issue.  The counters are not
    touched. *)
Theorem C10_analyze_twice_appends_again :
  forall a : DeviceAnalysis.t,
    exists emitted : list string,
      DeviceAnalysis.issues (DeviceAnalysis.analyze a)
      = DeviceAnalysis.issues a ++ emitted
      /\ DeviceAnalysis.issues (DeviceAnalysis.analyze (DeviceAnalysis.analyze a))
         = DeviceAnalysis.issues a ++ emitted ++ emitted
      /\ (DeviceAnalysis.issues
            (DeviceAnalysis.analyze (DeviceAnalysis.analyze a))
          = DeviceAnalysis.issues (DeviceAnalysis.analyze a)
          <-> emitted = []).
Proof.
  intros a. exists (rule_issues a).
  rewrite !analyze_eq, rule_issues_add_issues. cbn [add_issues DeviceAnalysis.issues].
  split; [reflexivity|]. split; [now rewrite app_assoc|].
  split.
  - intros H.
    rewrite <- (app_nil_r (DeviceAnalysis.issues a ++ rule_issues a)) in H at 2.
    now apply app_inv_head in H.
  - intros ->. now rewrite !app_nil_r.
Qed.

Lemma scenario_result :
  diagnose [scenario_device] scenario_lines
  = ([DeviceAnalysis.mk scenario_device [] [DeviceAnalysis.unknown_class_issue]
        0 0 0 0 0 0 0 0],
     [LogEntry.mk 0 "reset" None "usb 1-1.2: reset" None None info;
      LogEntry.mk 1 "reset" None "usb 1-1.2: reset" None None info;
      LogEntry.mk 2 "reset" None "usb 1-1.2: reset" None None info;
      LogEntry.mk 3 "over-current detected" None
        "usb 1-1.2: over-current detected" None None over_current]).
Proof. vm_compute. reflexivity. Qed.

Lemma scenario_stamped_result :
  exists e0 e1 e2 e3 : LogEntry.t,
    map LogEntry.raw_line [e0; e1; e2; e3] = scenario_lines_stamped
    /\ diagnose [scenario_device] scenario_lines_stamped
       = ([DeviceAnalysis.mk scenario_device [e0; e1; e2; e3]
             [DeviceAnalysis.multiple_resets_issue 3;
              DeviceAnalysis.over_current_issue 1;
              DeviceAnalysis.unknown_class_issue]
             3 0 0 0 1 0 0 0],
          []).
Proof.
  exists (LogEntry.mk 0 "usb 1-1.2: reset" None "[  101.5] usb 1-1.2: reset"
            (Some "1-1.2") None reset),
    (LogEntry.mk 1 "usb 1-1.2: reset" None "[  102.5] usb 1-1.2: reset"
       (Some "1-1.2") None reset),
    (LogEntry.mk 2 "usb 1-1.2: reset" None "[  103.5] usb 1-1.2: reset"
       (Some "1-1.2") None reset),
    (LogEntry.mk 3 "usb 1-1.2: over-current detected" None
       "[  104.5] usb 1-1.2: over-current detected" (Some "1-1.2") None
       over_current).
  split; vm_compute; reflexivity.
Qed.

(** C1 (as stated).  The scenario does not produce an analysis with three
    resets, one over-current event and the three issues listed. *)
Lemma C1_scenario_counterexample :
  ~ (exists a : DeviceAnalysis.t,
        fst (diagnose [scenario_device] scenario_lines) = [a]
        /\ DeviceAnalysis.reset_count a = 3
        /\ DeviceAnalysis.over_current_count a = 1
        /\ DeviceAnalysis.issues a
           = [DeviceAnalysis.multiple_resets_issue 3;
              DeviceAnalysis.over_current_issue 1;
              DeviceAnalysis.no_driver_issue "ff"]).
Proof.
  intros (a & Ha & Hr & _).
  rewrite scenario_result in Ha. cbn [fst] in Ha.
  injection Ha as <-. discriminate Hr.
Qed.

(** C1 (amended).  On the four lines as given the prefix strip keeps what
    follows the last ": ", so the messages are "reset" (three times,
    category info) and "over-current detected", none carries an identifier
    and all four end up unmatched: the one analysis of the device has no
    entry, [reset_count = 0], [over_current_count = 0] and the single issue
    "Unknown device class - driver may not be available" (class ff is one
    of the classes reported as unknown).  With the same messages behind a
    "[time] " stamp the device gets all four entries, [reset_count = 3],
    [over_current_count = 1] and the issues multiple resets (3), over-current
    (1), unknown device class, in this order. *)
Theorem C1_end_to_end_scenario :
  (exists a : DeviceAnalysis.t,
      fst (diagnose [scenario_device] scenario_lines) = [a]
      /\ DeviceAnalysis.device a = scenario_device
      /\ DeviceAnalysis.log_entries a = []
      /\ DeviceAnalysis.reset_count a = 0
      /\ DeviceAnalysis.over_current_count a = 0
      /\ DeviceAnalysis.issues a = [DeviceAnalysis.unknown_class_issue])
  /\ map LogEntry.raw_line (snd (diagnose [scenario_device] scenario_lines))
     = scenario_lines
  /\ map LogEntry.message (snd (diagnose [scenario_device] scenario_lines))
     = ["reset"; "reset"; "reset"; "over-current detected"]
  /\ map LogEntry.category (snd (diagnose [scenario_device] scenario_lines))
     = [info; info; info; over_current]
  /\ map (fun e => (LogEntry.device_id e, LogEntry.vendor_product e))
       (snd (diagnose [scenario_device] scenario_lines))
     = [(None, None); (None, None); (None, None); (None, None)]
  /\ (exists a : DeviceAnalysis.t,
         fst (diagnose [scenario_device] scenario_lines_stamped) = [a]
         /\ DeviceAnalysis.device a = scenario_device
         /\ map LogEntry.raw_line (DeviceAnalysis.log_entries a)
            = scenario_lines_stamped
         /\ DeviceAnalysis.reset_count a = 3
         /\ DeviceAnalysis.over_current_count a = 1
         /\ DeviceAnalysis.issues a
            = [DeviceAnalysis.multiple_resets_issue 3;
               DeviceAnalysis.over_current_issue 1;
               DeviceAnalysis.unknown_class_issue])
  /\ snd (diagnose [scenario_device] scenario_lines_stamped) = [].
Proof.
  rewrite scenario_result.
  destruct scenario_stamped_result as (e0 & e1 & e2 & e3 & Hraw & ->).
  cbn [fst snd].
  split; [|split; [|split; [|split; [|split; [|split]]]]]; try reflexivity.
  - eexists. split; [reflexivity|]. cbn. repeat split; reflexivity.
  - eexists. split; [reflexivity|].
    cbn [DeviceAnalysis.device DeviceAnalysis.log_entries
         DeviceAnalysis.reset_count DeviceAnalysis.over_current_count
         DeviceAnalysis.issues].
    repeat split; try reflexivity. exact Hraw.
Qed.

(* ------------------------------------------------------------------ *)
(** ** The classifier *)

Lemma extract_keeps (e : LogEntry.t) :
  LogEntry.oid (LogEntry.extract_device_info e) = LogEntry.oid e
  /\ LogEntry.message (LogEntry.extract_device_info e) = LogEntry.message e
  /\ LogEntry.raw_line (LogEntry.extract_device_info e) = LogEntry.raw_line e
  /\ LogEntry.timestamp (LogEntry.extract_device_info e) = LogEntry.timestamp e
  /\ LogEntry.category (LogEntry.extract_device_info e) = LogEntry.category e.
Proof.
  unfold LogEntry.extract_device_info.
  destruct (re_search bus_device_pattern _), (re_search vendor_product_pattern _);
    repeat split; reflexivity.
Qed.

(** The identifiers of an extracted entry are a function of its message. *)
Lemma extract_ids_of_message (e1 e2 : LogEntry.t) :
  LogEntry.message e1 = LogEntry.message e2 ->
  LogEntry.device_id e1 = LogEntry.device_id e2 ->
  LogEntry.vendor_product e1 = LogEntry.vendor_product e2 ->
  LogEntry.device_id (LogEntry.extract_device_info e1)
  = LogEntry.device_id (LogEntry.extract_device_info e2)
  /\ LogEntry.vendor_product (LogEntry.extract_device_info e1)
     = LogEntry.vendor_product (LogEntry.extract_device_info e2).
Proof.
  intros Hm Hd Hv. unfold LogEntry.extract_device_info. rewrite Hm.
  destruct (re_search bus_device_pattern _), (re_search vendor_product_pattern _);
    cbn; auto.
Qed.

Lemma filter_line_inv (next : nat) (line : string) (e : LogEntry.t) :
  filter_line next line = Some e ->
  e = LogEntry.extract_device_info
        (LogEntry.new next (strip (strip_prefix line)) None line).
Proof.
  unfold filter_line. destruct (contains_any usb_keywords (lower line)).
  - now intros [= <-].
  - discriminate.
Qed.

Lemma categorize_by_table (message : string) :
  LogEntry.categorize message
  = match find (fun rule => fst rule (lower message)) category_rules with
    | Some rule => snd rule
    | None => info
    end.
Proof.
  unfold LogEntry.categorize, category_rules, contains_any.
  cbn [find fst snd existsb].
  rewrite orb_false_r.
  repeat match goal with
         | |- context [if ?c then _ else _] => destruct c; [reflexivity|]
         end.
  reflexivity.
Qed.

(** C4 (as stated).  The raw line "usb 1-1.2: reset" contains "reset" and
    "usb" and no over-current keyword, and is not classified as reset. *)
Lemma C4_raw_line_counterexample :
  ~ (contains "reset" (lower bare_reset_line) = true ->
     contains "usb" (lower bare_reset_line) = true ->
     map LogEntry.category (filter_usb_entries [bare_reset_line]) = [reset]).
Proof.
  intros H.
  assert (Hc : map LogEntry.category (filter_usb_entries [bare_reset_line])
               = [info]) by (vm_compute; reflexivity).
  rewrite H in Hc; [discriminate Hc | vm_compute; reflexivity ..].
Qed.

(** C4 (amended).  The category rules read the message of the entry, which
    is the raw line after the prefix strip and the whitespace trim.  For
    every accepted line whose message contains both "reset" and "usb" (in
    any case) the category is reset, unless the message also contains
    "over-current" or "overcurrent", in which case it is over_current. *)
Theorem C4_reset_rule_on_message :
  forall (next : nat) (line : string) (e : LogEntry.t),
    filter_line next line = Some e ->
    contains "reset" (lower (strip (strip_prefix line))) = true ->
    contains "usb" (lower (strip (strip_prefix line))) = true ->
    LogEntry.message e = strip (strip_prefix line)
    /\ LogEntry.category e
       = if contains "over-current" (lower (LogEntry.message e))
            || contains "overcurrent" (lower (LogEntry.message e))
         then over_current
         else reset.
Proof.
  intros next line e He Hreset Husb.
  apply filter_line_inv in He. subst e.
  destruct (extract_keeps
              (LogEntry.new next (strip (strip_prefix line)) None line))
    as (_ & Hm & _ & _ & Hc).
  rewrite Hm, Hc. cbn [LogEntry.new LogEntry.message LogEntry.category].
  split; [reflexivity|].
  unfold LogEntry.categorize, contains_any. cbn [existsb].
  rewrite orb_false_r, Hreset, Husb. reflexivity.
Qed.

(** C4 at a stamped reset line, whose message keeps "usb" and "reset". *)
Lemma C4_reset_rule_on_message_witness :
  exists e : LogEntry.t,
    filter_line 0 stamped_reset_line = Some e
    /\ LogEntry.message e = strip (strip_prefix stamped_reset_line)
    /\ LogEntry.category e
       = if contains "over-current" (lower (LogEntry.message e))
            || contains "overcurrent" (lower (LogEntry.message e))
         then over_current
         else reset.
Proof.
  exists (LogEntry.mk 0 "usb 1-1.2: reset" None stamped_reset_line
            (Some "1-1.2") None reset).
  assert (He : filter_line 0 stamped_reset_line
               = Some (LogEntry.mk 0 "usb 1-1.2: reset" None stamped_reset_line
                         (Some "1-1.2") None reset))
    by (vm_compute; reflexivity).
  split; [exact He|].
  apply (C4_reset_rule_on_message 0 stamped_reset_line _ He);
    vm_compute; reflexivity.
Defined.

(** C9.  Building an entry from any text and extracting its identifiers is
    a total operation: it returns an entry with that text as message and
    the category of the first rule of the table that applies.  When no rule
    applies and neither pattern is found in the text, the entry has category
    info and no identifier. *)
Theorem C9_classifier_total :
  forall (o : nat) (text : string) (ts : option datetime) (raw : string),
    exists e : LogEntry.t,
      LogEntry.extract_device_info (LogEntry.new o text ts raw) = e
      /\ LogEntry.message e = text
      /\ LogEntry.raw_line e = raw
      /\ (no_rule_matches text = true ->
          re_search bus_device_pattern text = None ->
          re_search vendor_product_pattern text = None ->
          LogEntry.category e = info
          /\ LogEntry.device_id e = None
          /\ LogEntry.vendor_product e = None).
Proof.
  intros o text ts raw. eexists. split; [reflexivity|].
  destruct (extract_keeps (LogEntry.new o text ts raw))
    as (_ & Hm & Hr & _ & Hc).
  split; [exact Hm|]. split; [exact Hr|].
  intros Hrules Hbus Hvp. rewrite Hc.
  unfold LogEntry.extract_device_info.
  cbn [LogEntry.new LogEntry.message LogEntry.category].
  rewrite Hbus, Hvp. cbn [LogEntry.device_id LogEntry.vendor_product].
  split; [|split; reflexivity].
  rewrite categorize_by_table.
  unfold no_rule_matches in Hrules.
  destruct (find _ category_rules) as [rule|] eqn:Hfind; [|reflexivity].
  apply find_some in Hfind. destruct Hfind as [Hin Hrule].
  rewrite forallb_forall in Hrules. apply Hrules in Hin.
  rewrite Hrule in Hin. discriminate Hin.
Qed.

(** C9 at a text that no rule and no pattern applies to. *)
Lemma C9_classifier_total_witness :
  exists e : LogEntry.t,
    LogEntry.extract_device_info
      (LogEntry.new 0 "new high-speed device attached" None "") = e
    /\ LogEntry.category e = info
    /\ LogEntry.device_id e = None
    /\ LogEntry.vendor_product e = None.
Proof.
  destruct (C9_classifier_total 0 "new high-speed device attached" None "")
    as (e & He & _ & _ & Hdefault).
  exists e. split; [exact He|].
  apply Hdefault; vm_compute; reflexivity.
Defined.

(** C3 (as stated).  The bus path "1-1.2" is found in the raw line
    "usb 1-1.2: reset", but the entry made from that line does not carry
    it. *)
Lemma C3_pre_strip_counterexample :
  option_map (group 1) (re_search bus_device_pattern bare_reset_line)
  = Some (Some "1-1.2")
  /\ ~ map LogEntry.device_id (filter_usb_entries [bare_reset_line])
       = [Some "1-1.2"].
Proof.
  split; [vm_compute; reflexivity|].
  assert (Hc : map LogEntry.device_id (filter_usb_entries [bare_reset_line])
               = [None]) by (vm_compute; reflexivity).
  rewrite Hc. discriminate.
Qed.

(** C3 (amended).  Both identifier searches read the message of the entry,
    that is the text left by the prefix strip and the whitespace trim: two
    accepted lines with the same remaining text get the same identifiers,
    whatever stood in front of the strip boundary.  An identifier in front
    of the boundary is lost ("usb 1-1.2: reset" yields no identifier), one
    behind it is extracted ("[  101.5] usb 1-1.2: reset" yields 1-1.2). *)
Theorem C3_extraction_reads_stripped_message :
  (forall (n1 n2 : nat) (line1 line2 : string) (e1 e2 : LogEntry.t),
      filter_line n1 line1 = Some e1 ->
      filter_line n2 line2 = Some e2 ->
      strip (strip_prefix line1) = strip (strip_prefix line2) ->
      LogEntry.device_id e1 = LogEntry.device_id e2
      /\ LogEntry.vendor_product e1 = LogEntry.vendor_product e2)
  /\ map LogEntry.device_id (filter_usb_entries [bare_reset_line]) = [None]
  /\ map LogEntry.vendor_product (filter_usb_entries [bare_reset_line])
     = [None]
  /\ map LogEntry.device_id (filter_usb_entries [stamped_reset_line])
     = [Some "1-1.2"].
Proof.
  split; [|repeat split; vm_compute; reflexivity].
  intros n1 n2 line1 line2 e1 e2 H1 H2 Heq.
  apply filter_line_inv in H1, H2. subst e1 e2.
  apply extract_ids_of_message; cbn; auto.
Qed.

(** C3 at two bare lines naming different bus paths: both messages are
    "reset" and both entries are without identifier. *)
Lemma C3_extraction_reads_stripped_message_witness :
  exists e1 e2 : LogEntry.t,
    filter_line 0 bare_reset_line = Some e1
    /\ filter_line 1 other_bare_reset_line = Some e2
    /\ LogEntry.device_id e1 = LogEntry.device_id e2
    /\ LogEntry.vendor_product e1 = LogEntry.vendor_product e2.
Proof.
  exists (LogEntry.mk 0 "reset" None bare_reset_line None None info),
    (LogEntry.mk 1 "reset" None other_bare_reset_line None None info).
  assert (H1 : filter_line 0 bare_reset_line
               = Some (LogEntry.mk 0 "reset" None bare_reset_line None None info))
    by (vm_compute; reflexivity).
  assert (H2 : filter_line 1 other_bare_reset_line
               = Some (LogEntry.mk 1 "reset" None other_bare_reset_line
                         None None info))
    by (vm_compute; reflexivity).
  split; [exact H1|]. split; [exact H2|].
  apply (proj1 C3_extraction_reads_stripped_message 0 1 _ _ _ _ H1 H2).
  vm_compute; reflexivity.
Defined.

(* ------------------------------------------------------------------ *)
(** ** The vendor:product search *)

Lemma four_more (n : nat) : S (S (S (S n))) - n = 4.
Proof. lia. Qed.

Lemma substring_none (s : string) : substring 0 0 s = EmptyString.
Proof. now destruct s. Qed.

Lemma vp_match_prefix (s : string) :
  re_match vendor_product_pattern s [] (fun _ c => Some c)
  = match vp_prefix s with
    | Some (a, b) => Some [(2, b); (1, a)]
    | None => None
    end.
Proof.
  unfold vendor_product_pattern, word4, vp_prefix.
  destruct s as [|a1 [|a2 [|a3 [|a4 [|col [|b1 [|b2 [|b3 [|b4 rest]]]]]]]]];
    cbn [re_match seq_of];
    try (repeat match goal with
                | |- context [if ?c then _ else _] => destruct c
                end; reflexivity).
  destruct (is_word a1), (is_word a2), (is_word a3), (is_word a4),
    (is_char ":" col); cbn [andb]; try reflexivity.
  destruct (is_word b1), (is_word b2), (is_word b3), (is_word b4);
    cbn [andb]; try reflexivity.
  cbn [length]. rewrite !Nat.sub_succ, !four_more.
  cbn [substring]. now rewrite substring_none.
Qed.

Lemma vp_search (s : string) :
  re_search vendor_product_pattern s
  = option_map (fun ab : string * string => [(2, snd ab); (1, fst ab)])
      (first_vp s).
Proof.
  induction s as [|c s IH].
  - reflexivity.
  - cbn [re_search first_vp]. rewrite vp_match_prefix.
    destruct (vp_prefix (String c s)) as [[a b]|]; [reflexivity|exact IH].
Qed.

Lemma first_vp_unfold (s : string) :
  first_vp s
  = match vp_prefix s with
    | Some ab => Some ab
    | None =>
        match s with
        | EmptyString => None
        | String _ s' => first_vp s'
        end
    end.
Proof. destruct s; reflexivity. Qed.

Lemma word4_inv (a : string) :
  is_word4 a = true ->
  exists a1 a2 a3 a4,
    a = String a1 (String a2 (String a3 (String a4 EmptyString)))
    /\ is_word a1 = true /\ is_word a2 = true
    /\ is_word a3 = true /\ is_word a4 = true.
Proof.
  unfold is_word4.
  destruct a as [|a1 [|a2 [|a3 [|a4 [|a5 r]]]]]; cbn [length Nat.eqb andb];
    try discriminate.
  cbn [all_chars]. intros H.
  repeat (apply andb_prop in H; destruct H as [? H]).
  exists a1, a2, a3, a4. auto.
Qed.

Lemma vp_prefix_complete (s a b post : string) :
  vp_occurs_at s EmptyString a b post -> vp_prefix s = Some (a, b).
Proof.
  intros (-> & Ha & Hb).
  apply word4_inv in Ha, Hb.
  destruct Ha as (a1 & a2 & a3 & a4 & -> & Ha1 & Ha2 & Ha3 & Ha4).
  destruct Hb as (b1 & b2 & b3 & b4 & -> & Hb1 & Hb2 & Hb3 & Hb4).
  cbn [append vp_prefix].
  rewrite Ha1, Ha2, Ha3, Ha4, Hb1, Hb2, Hb3, Hb4. reflexivity.
Qed.

Lemma vp_prefix_sound (s a b : string) :
  vp_prefix s = Some (a, b) ->
  exists post, vp_occurs_at s EmptyString a b post.
Proof.
  unfold vp_prefix.
  destruct s as [|a1 [|a2 [|a3 [|a4 [|col [|b1 [|b2 [|b3 [|b4 rest]]]]]]]]];
    try discriminate.
  destruct (is_word a1) eqn:Ha1, (is_word a2) eqn:Ha2, (is_word a3) eqn:Ha3,
    (is_word a4) eqn:Ha4; cbn [andb]; try discriminate.
  destruct (is_char ":" col) eqn:Hcol; cbn [andb]; try discriminate.
  destruct (is_word b1) eqn:Hb1, (is_word b2) eqn:Hb2, (is_word b3) eqn:Hb3,
    (is_word b4) eqn:Hb4; cbn [andb]; try discriminate.
  intros [= <- <-]. exists rest.
  apply Ascii.eqb_eq in Hcol. subst col.
  unfold vp_occurs_at, is_word4. cbn [append length Nat.eqb all_chars andb].
  rewrite Ha1, Ha2, Ha3, Ha4, Hb1, Hb2, Hb3, Hb4. auto.
Qed.

Lemma vp_occurs_shift (c : ascii) (s pre a b post : string) :
  vp_occurs_at s pre a b post ->
  vp_occurs_at (String c s) (String c pre) a b post.
Proof. intros (-> & Ha & Hb). repeat split; assumption. Qed.

(** The search returns the leftmost pair; it exists as soon as some pair
    occurs. *)
Lemma first_vp_found (pre : string) :
  forall s a b post,
    vp_occurs_at s pre a b post ->
    exists pre' a' b' post',
      first_vp s = Some (a', b')
      /\ vp_occurs_at s pre' a' b' post'
      /\ length pre' <= length pre.
Proof.
  induction pre as [|c pre IH]; intros s a b post Hocc.
  - exists EmptyString, a, b, post.
    rewrite first_vp_unfold, (vp_prefix_complete _ _ _ _ Hocc). auto.
  - destruct Hocc as (-> & Ha & Hb). cbn [append].
    rewrite first_vp_unfold.
    destruct (vp_prefix _) as [[a1 b1]|] eqn:Hp.
    + apply vp_prefix_sound in Hp. destruct Hp as [post1 Hp].
      exists EmptyString, a1, b1, post1. cbn [length].
      split; [reflexivity|]. split; [exact Hp|lia].
    + destruct (IH (pre ++ a ++ ":" ++ b ++ post)%string a b post)
        as (pre' & a' & b' & post' & Hf & Hocc' & Hlen).
      { repeat split; assumption. }
      exists (String c pre'), a', b', post'.
      cbn [length]. split; [exact Hf|].
      split; [now apply vp_occurs_shift|lia].
Qed.

Lemma append_inj_length (a a' r r' : string) :
  length a = length a' ->
  (a ++ r)%string = (a' ++ r')%string -> a = a' /\ r = r'.
Proof.
  revert a'. induction a as [|c a IH]; intros [|c' a'] Hl Heq;
    cbn in Hl; try discriminate.
  - auto.
  - cbn [append] in Heq. injection Heq as -> Heq.
    destruct (IH a') as [-> ->]; auto.
Qed.

Lemma word4_length (a : string) : is_word4 a = true -> length a = 4.
Proof.
  unfold is_word4. intros H. apply andb_prop in H. destruct H as [H _].
  now apply Nat.eqb_eq.
Qed.

Lemma vp_occurs_same_place (s pre a b post pre' a' b' post' : string) :
  vp_occurs_at s pre a b post ->
  vp_occurs_at s pre' a' b' post' ->
  length pre = length pre' ->
  a = a' /\ b = b'.
Proof.
  intros (-> & Ha & Hb) (Heq & Ha' & Hb') Hlen.
  apply append_inj_length in Heq; [|assumption]. destruct Heq as [_ Heq].
  apply append_inj_length in Heq;
    [|now rewrite (word4_length _ Ha), (word4_length _ Ha')].
  destruct Heq as [-> Heq]. cbn [append] in Heq. injection Heq as Heq.
  apply append_inj_length in Heq;
    [|now rewrite (word4_length _ Hb), (word4_length _ Hb')].
  destruct Heq as [-> _]. auto.
Qed.

Lemma extract_with_vp (e : LogEntry.t) (a b : string) :
  first_vp (LogEntry.message e) = Some (a, b) ->
  LogEntry.device_id (LogEntry.extract_device_info e) = None
  /\ LogEntry.vendor_product (LogEntry.extract_device_info e)
     = Some (a ++ ":" ++ b)%string.
Proof.
  intros Hf. unfold LogEntry.extract_device_info.
  rewrite vp_search, Hf. cbn. auto.
Qed.

(** C5.  When the message of an entry holds a pair of four word characters,
    a colon and four word characters, [extract_device_info] leaves
    [device_id] at [None], whatever the bus-path search found, and sets
    [vendor_product] to the leftmost such pair of the message joined by a
    colon; this is the given pair when no pair starts further left. *)
Theorem C5_vendor_product_overrides :
  forall (e : LogEntry.t) (pre a b post : string),
    vp_occurs_at (LogEntry.message e) pre a b post ->
    LogEntry.device_id (LogEntry.extract_device_info e) = None
    /\ (exists pre' a' b' post',
           vp_occurs_at (LogEntry.message e) pre' a' b' post'
           /\ length pre' <= length pre
           /\ LogEntry.vendor_product (LogEntry.extract_device_info e)
              = Some (a' ++ ":" ++ b')%string)
    /\ ((forall pre1 a1 b1 post1,
            vp_occurs_at (LogEntry.message e) pre1 a1 b1 post1 ->
            length pre <= length pre1) ->
        LogEntry.vendor_product (LogEntry.extract_device_info e)
        = Some (a ++ ":" ++ b)%string).
Proof.
  intros e pre a b post Hocc.
  destruct (first_vp_found pre _ _ _ _ Hocc)
    as (pre' & a' & b' & post' & Hf & Hocc' & Hlen).
  destruct (extract_with_vp e a' b' Hf) as [Hid Hvp].
  split; [exact Hid|]. split.
  - exists pre', a', b', post'. auto.
  - intros Hleft. specialize (Hleft _ _ _ _ Hocc').
    destruct (vp_occurs_same_place _ _ _ _ _ _ _ _ _ Hocc Hocc') as [-> ->];
      [lia|exact Hvp].
Qed.

(* ------------------------------------------------------------------ *)
(** ** Dictionaries *)

Section DictFacts.

Context {K V : Type}.
Variable key_eqb : K -> K -> bool.
Hypothesis key_eqb_sym : forall a b, key_eqb a b = key_eqb b a.
Hypothesis key_eqb_trans :
  forall a b c, key_eqb a b = true -> key_eqb b c = true ->
                key_eqb a c = true.

Lemma key_eqb_left (a b c : K) :
  key_eqb a b = true -> key_eqb a c = key_eqb b c.
Proof.
  intros Hab. destruct (key_eqb b c) eqn:Hbc.
  - eauto.
  - destruct (key_eqb a c) eqn:Hac; [|reflexivity].
    rewrite key_eqb_sym in Hab.
    now rewrite (key_eqb_trans _ _ _ Hab Hac) in Hbc.
Qed.

Lemma dict_get_set (k k' : K) (v : V) (d : dict K V) :
  dict_get key_eqb k (dict_set key_eqb k' v d)
  = if key_eqb k' k then Some v else dict_get key_eqb k d.
Proof.
  induction d as [|[k0 v0] d IH]; cbn [dict_set dict_get].
  - reflexivity.
  - destruct (key_eqb k0 k') eqn:H0; cbn [dict_get].
    + rewrite (key_eqb_left _ _ k H0). now destruct (key_eqb k' k).
    + rewrite IH. destruct (key_eqb k0 k) eqn:H1; [|reflexivity].
      destruct (key_eqb k' k) eqn:H2; [|reflexivity].
      rewrite key_eqb_sym in H2.
      now rewrite (key_eqb_trans _ _ _ H1 H2) in H0.
Qed.

Lemma dict_get_same_key (a b : K) (d : dict K V) :
  key_eqb a b = true -> dict_get key_eqb a d = dict_get key_eqb b d.
Proof.
  intros Hab. induction d as [|[k0 v0] d IH]; cbn [dict_get]; [reflexivity|].
  rewrite (key_eqb_sym k0 a), (key_eqb_sym k0 b), (key_eqb_left _ _ k0 Hab).
  now rewrite IH.
Qed.

Lemma dict_set_absent (k : K) (v : V) (d : dict K V) :
  dict_get key_eqb k d = None -> dict_set key_eqb k v d = d ++ [(k, v)].
Proof.
  induction d as [|[k0 v0] d IH]; cbn [dict_set dict_get app]; [reflexivity|].
  destruct (key_eqb k0 k); [discriminate|].
  intros H. now rewrite IH.
Qed.

Lemma dict_set_keys (k : K) (v : V) (d : dict K V) :
  forall k0, In k0 (map fst (dict_set key_eqb k v d)) ->
             In k0 (map fst d) \/ k0 = k.
Proof.
  induction d as [|[k1 v1] d IH]; cbn [dict_set map fst In]; intros k0.
  - intros [<-|[]]. now right.
  - destruct (key_eqb k1 k); cbn [map fst In].
    + intros [H|H]; auto.
    + intros [H|H]; auto. destruct (IH _ H); auto.
Qed.

End DictFacts.

Section DictAppend.

Context {K X : Type}.
Variable key_eqb : K -> K -> bool.

Lemma dict_set_present_values (k : K) (l : list X) (x : X)
  (d : dict K (list X)) :
  dict_get key_eqb k d = Some l ->
  Permutation (List.concat (map snd (dict_set key_eqb k (l ++ [x]) d)))
    (x :: List.concat (map snd d)).
Proof.
  induction d as [|[k0 l0] d IH]; cbn [dict_get dict_set]; [discriminate|].
  destruct (key_eqb k0 k); cbn [map snd List.concat].
  - intros [= ->]. rewrite <- app_assoc. cbn [app].
    symmetry. apply Permutation_middle.
  - intros H. specialize (IH H).
    rewrite IH. symmetry. apply Permutation_middle.
Qed.

Lemma dict_append_values (k : K) (x : X) (d : dict K (list X)) :
  Permutation (List.concat (map snd (dict_append key_eqb k x d)))
    (x :: List.concat (map snd d)).
Proof.
  unfold dict_append.
  destruct (dict_get key_eqb k d) as [l|] eqn:Hget.
  - now apply dict_set_present_values.
  - rewrite (dict_set_absent key_eqb k [x] d Hget).
    rewrite map_app, concat_app. cbn [map snd List.concat app].
    symmetry. apply Permutation_cons_append.
Qed.

Lemma dict_append_keys (k : K) (x : X) (d : dict K (list X)) :
  forall k0, In k0 (map fst (dict_append key_eqb k x d)) ->
             In k0 (map fst d) \/ k0 = k.
Proof.
  unfold dict_append. destruct (dict_get key_eqb k d);
    apply dict_set_keys.
Qed.

End DictAppend.

(* ------------------------------------------------------------------ *)
(** ** The lookup tables *)

Lemma string_eqb_trans (a b c : string) :
  String.eqb a b = true -> String.eqb b c = true -> String.eqb a c = true.
Proof. rewrite !String.eqb_eq. congruence. Qed.

Lemma same_refl (d : USBDevice.t) : USBDevice.same d d = true.
Proof. apply Nat.eqb_refl. Qed.

Lemma same_sym (a b : USBDevice.t) : USBDevice.same a b = USBDevice.same b a.
Proof. apply Nat.eqb_sym. Qed.

Lemma same_trans (a b c : USBDevice.t) :
  USBDevice.same a b = true -> USBDevice.same b c = true ->
  USBDevice.same a c = true.
Proof. unfold USBDevice.same. rewrite !Nat.eqb_eq. congruence. Qed.

Lemma build_tables_snoc (devices : list USBDevice.t) (d : USBDevice.t) :
  build_tables (devices ++ [d]) = index_device (build_tables devices) d.
Proof. unfold build_tables. now rewrite fold_left_app. Qed.

Lemma vp_key_nonempty (d : USBDevice.t) (k : string) :
  USBDevice.get_id_vendor_product d = Some k -> String.eqb k "" = false.
Proof.
  unfold USBDevice.get_id_vendor_product.
  destruct (USBDevice.vendor_id d) as [v|]; [|discriminate].
  destruct (USBDevice.product_id d) as [p|]; [|discriminate].
  destruct v as [|c v]; cbn [String.eqb negb andb]; [discriminate|].
  destruct (negb (String.eqb p "")); [|discriminate].
  now intros [= <-].
Qed.

(** [devices_by_id] maps a non-empty id to the last device that has it. *)
Lemma by_id_get (devices : list USBDevice.t) (id : string) :
  dict_get String.eqb id (fst (build_tables devices))
  = if String.eqb id "" then None
    else find (fun d => String.eqb (USBDevice.device_id d) id) (rev devices).
Proof.
  induction devices as [|d devices IH] using rev_ind.
  - cbn. now destruct (String.eqb id "").
  - rewrite build_tables_snoc, rev_app_distr. cbn [rev app find].
    unfold index_device. cbn [fst].
    destruct (String.eqb (USBDevice.device_id d) "") eqn:Hempty; cbn [negb].
    + rewrite IH. destruct (String.eqb id "") eqn:Hid; [reflexivity|].
      apply String.eqb_eq in Hempty. rewrite Hempty.
      rewrite String.eqb_sym, Hid. reflexivity.
    + rewrite (dict_get_set String.eqb String.eqb_sym string_eqb_trans).
      rewrite IH.
      destruct (String.eqb (USBDevice.device_id d) id) eqn:Hd; [|reflexivity].
      apply String.eqb_eq in Hd. subst id. now rewrite Hempty.
Qed.

(** [devices_by_vp] maps a key to the devices that have it, in list order. *)
Lemma by_vp_get (devices : list USBDevice.t) (vp : string) :
  dict_get String.eqb vp (snd (build_tables devices))
  = match filter (has_key vp) devices with
    | [] => None
    | l => Some l
    end.
Proof.
  induction devices as [|d devices IH] using rev_ind.
  - reflexivity.
  - rewrite build_tables_snoc, filter_app. cbn [filter].
    unfold index_device. cbn [snd]. unfold has_key at 2.
    destruct (USBDevice.get_id_vendor_product d) as [k|] eqn:Hk.
    + rewrite (vp_key_nonempty d k Hk). cbn [negb].
      unfold dict_append.
      assert (Hget : forall l0,
                 dict_get String.eqb vp
                   (dict_set String.eqb k l0 (snd (build_tables devices)))
                 = if String.eqb k vp then Some l0
                   else dict_get String.eqb vp (snd (build_tables devices)))
        by (intros l0; apply (dict_get_set String.eqb String.eqb_sym
                                string_eqb_trans)).
      destruct (String.eqb k vp) eqn:Hkv.
      * apply String.eqb_eq in Hkv. subst k.
        rewrite IH.
        destruct (filter (has_key vp) devices) as [|d0 l]; rewrite Hget;
          reflexivity.
      * rewrite app_nil_r.
        destruct (dict_get String.eqb k (snd (build_tables devices)));
          rewrite Hget; exact IH.
    + rewrite app_nil_r. exact IH.
Qed.

Lemma by_id_in (devices : list USBDevice.t) (id : string) (d : USBDevice.t) :
  dict_get String.eqb id (fst (build_tables devices)) = Some d ->
  In d devices /\ USBDevice.device_id d = id /\ id <> "".
Proof.
  rewrite by_id_get. destruct (String.eqb id "") eqn:Hid; [discriminate|].
  intros H. apply find_some in H. destruct H as [Hin Heq].
  apply in_rev in Hin. apply String.eqb_eq in Heq.
  apply String.eqb_neq in Hid. auto.
Qed.

Lemma by_vp_in (devices : list USBDevice.t) (vp : string)
  (l : list USBDevice.t) :
  dict_get String.eqb vp (snd (build_tables devices)) = Some l ->
  l = filter (has_key vp) devices /\ l <> [].
Proof.
  rewrite by_vp_get. destruct (filter (has_key vp) devices); [discriminate|].
  intros [= <-]. split; [reflexivity|discriminate].
Qed.

(** The loop body appends the entry to each of its targets, in order. *)
Lemma match_entry_targets (tables : by_id_t * by_vp_t)
  (device_logs : device_logs_t) (entry : LogEntry.t) :
  match_entry tables device_logs entry
  = fold_left (fun logs device => dict_append USBDevice.same device entry logs)
      (entry_targets tables entry) device_logs.
Proof.
  unfold match_entry, entry_targets, truthy.
  destruct (LogEntry.device_id entry) as [id|]; cbn [fmt_opt].
  - destruct (String.eqb id ""); cbn [negb].
    + destruct (LogEntry.vendor_product entry) as [vp|]; [|reflexivity].
      cbn [fmt_opt]. destruct (String.eqb vp ""); cbn [negb]; [reflexivity|].
      now destruct (dict_get String.eqb vp (snd tables)).
    + destruct (dict_get String.eqb id (fst tables)); cbn [negb];
        [reflexivity|].
      destruct (LogEntry.vendor_product entry) as [vp|]; [|reflexivity].
      cbn [fmt_opt]. destruct (String.eqb vp ""); cbn [negb]; [reflexivity|].
      now destruct (dict_get String.eqb vp (snd tables)).
  - destruct (LogEntry.vendor_product entry) as [vp|]; [|reflexivity].
    cbn [fmt_opt negb]. destruct (String.eqb vp ""); cbn [negb]; [reflexivity|].
    now destruct (dict_get String.eqb vp (snd tables)).
Qed.

Lemma targets_in_devices (devices : list USBDevice.t) (entry : LogEntry.t) :
  incl (correlation_targets devices entry) devices.
Proof.
  unfold correlation_targets, entry_targets.
  assert (Hvp : forall o : option (list USBDevice.t),
             o = (if truthy (LogEntry.vendor_product entry)
                  then dict_get String.eqb
                         (fmt_opt (LogEntry.vendor_product entry))
                         (snd (build_tables devices))
                  else None) ->
             incl match o with Some targets => targets | None => [] end
                  devices).
  { intros [l|] Hl; [|intros x []].
    destruct (truthy (LogEntry.vendor_product entry)); [|discriminate].
    symmetry in Hl. apply by_vp_in in Hl. destruct Hl as [-> _].
    intros x Hx. apply filter_In in Hx. tauto. }
  destruct (truthy (LogEntry.device_id entry)).
  - destruct (dict_get String.eqb (fmt_opt (LogEntry.device_id entry))
                (fst (build_tables devices))) as [d|] eqn:Hd.
    + apply by_id_in in Hd. intros x [<-|[]]. tauto.
    + now apply Hvp.
  - now apply Hvp.
Qed.

(* ------------------------------------------------------------------ *)
(** ** The correlation result *)

Lemma logs_for_append (d d' : USBDevice.t) (e : LogEntry.t)
  (logs : device_logs_t) :
  logs_for d (dict_append USBDevice.same d' e logs)
  = logs_for d logs ++ (if USBDevice.same d' d then [e] else []).
Proof.
  unfold logs_for, dict_append.
  destruct (USBDevice.same d' d) eqn:Hs.
  - rewrite <- (dict_get_same_key USBDevice.same same_sym same_trans d' d logs Hs).
    destruct (dict_get USBDevice.same d' logs) as [l|];
      rewrite (dict_get_set USBDevice.same same_sym same_trans), Hs;
      reflexivity.
  - rewrite app_nil_r.
    destruct (dict_get USBDevice.same d' logs) as [l|];
      rewrite (dict_get_set USBDevice.same same_sym same_trans), Hs;
      reflexivity.
Qed.

Lemma logs_for_fold (d : USBDevice.t) (e : LogEntry.t)
  (targets : list USBDevice.t) :
  forall logs : device_logs_t,
    logs_for d
      (fold_left (fun logs device => dict_append USBDevice.same device e logs)
         targets logs)
    = logs_for d logs ++ repeat e (occurrences d targets).
Proof.
  unfold occurrences.
  induction targets as [|t targets IH]; intros logs; cbn [fold_left filter].
  - cbn. now rewrite app_nil_r.
  - rewrite IH, logs_for_append, <- app_assoc.
    destruct (USBDevice.same t d); reflexivity.
Qed.

Lemma logs_for_match_from (d : USBDevice.t) (tables : by_id_t * by_vp_t)
  (entries : list LogEntry.t) :
  forall logs : device_logs_t,
    logs_for d (fold_left (match_entry tables) entries logs)
    = logs_for d logs
      ++ flat_map (fun e => repeat e (occurrences d (entry_targets tables e)))
           entries.
Proof.
  induction entries as [|e entries IH]; intros logs; cbn [fold_left flat_map].
  - now rewrite app_nil_r.
  - rewrite IH, match_entry_targets, logs_for_fold, <- app_assoc.
    reflexivity.
Qed.

Lemma all_logs_fold (e : LogEntry.t) (targets : list USBDevice.t) :
  forall logs : device_logs_t,
    Permutation
      (all_logs
         (fold_left (fun logs device => dict_append USBDevice.same device e logs)
            targets logs))
      (all_logs logs ++ repeat e (List.length targets)).
Proof.
  induction targets as [|t targets IH]; intros logs;
    cbn [fold_left List.length repeat].
  - now rewrite app_nil_r.
  - rewrite IH. unfold all_logs.
    rewrite (dict_append_values USBDevice.same t e logs).
    cbn [app]. apply Permutation_middle.
Qed.

Lemma all_logs_match_from (tables : by_id_t * by_vp_t)
  (entries : list LogEntry.t) :
  forall logs : device_logs_t,
    Permutation (all_logs (fold_left (match_entry tables) entries logs))
      (all_logs logs
       ++ flat_map (fun e => repeat e (List.length (entry_targets tables e)))
            entries).
Proof.
  induction entries as [|e entries IH]; intros logs; cbn [fold_left flat_map].
  - now rewrite app_nil_r.
  - rewrite IH, match_entry_targets, all_logs_fold, <- app_assoc.
    reflexivity.
Qed.

Lemma keys_fold (e : LogEntry.t) (targets : list USBDevice.t) :
  forall (logs : device_logs_t) (k : USBDevice.t),
    In k (map fst
            (fold_left
               (fun logs device => dict_append USBDevice.same device e logs)
               targets logs)) ->
    In k (map fst logs) \/ In k targets.
Proof.
  induction targets as [|t targets IH]; intros logs k; cbn [fold_left In].
  - auto.
  - intros H. apply IH in H. destruct H as [H|H]; [|auto].
    apply dict_append_keys in H. destruct H as [H| ->]; auto.
Qed.

(** Every key of the correlation result is one of the input devices. *)
Lemma keys_match_from (devices : list USBDevice.t)
  (entries : list LogEntry.t) :
  forall (logs : device_logs_t) (k : USBDevice.t),
    In k (map fst (fold_left (match_entry (build_tables devices)) entries logs)) ->
    In k (map fst logs) \/ In k devices.
Proof.
  induction entries as [|e entries IH]; intros logs k; cbn [fold_left].
  - auto.
  - intros H. apply IH in H. destruct H as [H|H]; [|auto].
    rewrite match_entry_targets in H. apply keys_fold in H.
    destruct H as [H|H]; [auto|].
    right. exact (targets_in_devices devices e k H).
Qed.

Lemma keys_in_devices (devices : list USBDevice.t)
  (entries : list LogEntry.t) (k : USBDevice.t) :
  In k (map fst (match_logs_to_devices devices entries)) -> In k devices.
Proof.
  intros H. apply keys_match_from in H. destruct H as [[]|H]. exact H.
Qed.

Lemma find_existsb {X : Type} (p : X -> bool) (l : list X) :
  existsb p l = match find p l with Some _ => true | None => false end.
Proof.
  induction l as [|x l IH]; cbn [existsb find]; [reflexivity|].
  destruct (p x); [reflexivity|exact IH].
Qed.

Lemma existsb_rev_eq {X : Type} (p : X -> bool) (l : list X) :
  existsb p (rev l) = existsb p l.
Proof.
  apply eq_true_iff_eq. rewrite !existsb_exists.
  split; intros (x & Hin & Hp); exists x; split; auto;
    [apply in_rev|apply in_rev in Hin]; assumption.
Qed.

Lemma existsb_filter_nil {X : Type} (p : X -> bool) (l : list X) :
  existsb p l = match filter p l with [] => false | _ :: _ => true end.
Proof.
  induction l as [|x l IH]; cbn [existsb filter]; [reflexivity|].
  destruct (p x); [reflexivity|exact IH].
Qed.

Lemma has_key_nonempty (vp : string) (d : USBDevice.t) :
  has_key vp d = true -> String.eqb vp "" = false.
Proof.
  unfold has_key.
  destruct (USBDevice.get_id_vendor_product d) as [k|] eqn:Hk; [|discriminate].
  intros H. apply String.eqb_eq in H. subst vp.
  exact (vp_key_nonempty d k Hk).
Qed.

Lemma vp_lookup (devices : list USBDevice.t) (e : LogEntry.t) :
  (if truthy (LogEntry.vendor_product e)
   then dict_get String.eqb (fmt_opt (LogEntry.vendor_product e))
          (snd (build_tables devices))
   else None)
  = if vp_matches devices e
    then Some (filter (has_key (fmt_opt (LogEntry.vendor_product e))) devices)
    else None.
Proof.
  unfold vp_matches, truthy.
  destruct (LogEntry.vendor_product e) as [vp|]; [|reflexivity].
  cbn [fmt_opt]. rewrite existsb_filter_nil.
  destruct (String.eqb vp "") eqn:Hvp; cbn [negb].
  - destruct (filter (has_key vp) devices) as [|d l] eqn:Hf; [reflexivity|].
    assert (Hd : In d (filter (has_key vp) devices))
      by (rewrite Hf; now left).
    apply filter_In in Hd. destruct Hd as [_ Hd].
    apply has_key_nonempty in Hd. congruence.
  - rewrite by_vp_get. now destruct (filter (has_key vp) devices).
Qed.

Lemma id_lookup (devices : list USBDevice.t) (e : LogEntry.t) :
  (if truthy (LogEntry.device_id e)
   then dict_get String.eqb (fmt_opt (LogEntry.device_id e))
          (fst (build_tables devices))
   else None)
  = if id_matches devices e
    then find (fun d => String.eqb (USBDevice.device_id d)
                          (fmt_opt (LogEntry.device_id e)))
           (rev devices)
    else None.
Proof.
  unfold id_matches, truthy.
  destruct (LogEntry.device_id e) as [id|]; [|reflexivity].
  cbn [fmt_opt].
  destruct (String.eqb id "") eqn:Hid; cbn [negb andb]; [reflexivity|].
  rewrite by_id_get, Hid, <- existsb_rev_eq, find_existsb.
  now destruct (find _ (rev devices)).
Qed.

(** The targets of an entry in terms of the device list. *)
Lemma correlation_targets_cases (devices : list USBDevice.t)
  (e : LogEntry.t) :
  correlation_targets devices e
  = if id_matches devices e then
      match find (fun d => String.eqb (USBDevice.device_id d)
                             (fmt_opt (LogEntry.device_id e)))
              (rev devices) with
      | Some d => [d]
      | None => []
      end
    else if vp_matches devices e
         then filter (has_key (fmt_opt (LogEntry.vendor_product e))) devices
         else [].
Proof.
  unfold correlation_targets, entry_targets.
  rewrite id_lookup, vp_lookup.
  destruct (id_matches devices e) eqn:Hid.
  - destruct (find _ (rev devices)) as [d|] eqn:Hf; [reflexivity|].
    exfalso. unfold id_matches in Hid.
    destruct (LogEntry.device_id e) as [id|]; [|discriminate].
    apply andb_prop in Hid. destruct Hid as [_ Hid].
    rewrite <- existsb_rev_eq, find_existsb in Hid.
    cbn [fmt_opt] in Hf. rewrite Hf in Hid. discriminate.
  - now destruct (vp_matches devices e).
Qed.

Lemma logs_for_match (devices : list USBDevice.t) (entries : list LogEntry.t)
  (d : USBDevice.t) :
  logs_for d (match_logs_to_devices devices entries)
  = flat_map
      (fun e => repeat e (occurrences d (correlation_targets devices e)))
      entries.
Proof.
  unfold match_logs_to_devices. now rewrite logs_for_match_from.
Qed.

Lemma occurrences_pos (d : USBDevice.t) (l : list USBDevice.t) :
  In d l -> exists n, occurrences d l = S n.
Proof.
  unfold occurrences. intros Hin.
  assert (H : In d (filter (fun d0 => USBDevice.same d0 d) l))
    by (apply filter_In; split; [assumption|apply same_refl]).
  destruct (filter _ l) as [|x r]; [destruct H|].
  now exists (List.length r).
Qed.

(** C6.  The correlator handles the entries one by one, in order: what a
    device ends up with is, for each entry in turn, one copy per occurrence
    of the device among the targets of that entry.  The targets are: a
    single device having the entry's [device_id] when the entry carries one
    that some device has (the vendor:product key is then not looked at);
    otherwise every device having the entry's [vendor_product] key, in list
    order, when some device has it; otherwise none.  Two distinct devices
    with the same key both receive an entry that bears only that key. *)
Theorem C6_correlation_priority_and_fan_out :
  forall (devices : list USBDevice.t) (entries : list LogEntry.t),
    (forall d : USBDevice.t,
        logs_for d (match_logs_to_devices devices entries)
        = flat_map
            (fun e => repeat e (occurrences d (correlation_targets devices e)))
            entries)
    /\ (forall e : LogEntry.t,
           id_matches devices e = true ->
           exists d : USBDevice.t,
             In d devices
             /\ LogEntry.device_id e = Some (USBDevice.device_id d)
             /\ correlation_targets devices e = [d])
    /\ (forall (e : LogEntry.t) (vp : string),
           id_matches devices e = false ->
           LogEntry.vendor_product e = Some vp ->
           vp_matches devices e = true ->
           correlation_targets devices e = filter (has_key vp) devices)
    /\ (forall e : LogEntry.t,
           id_matches devices e = false ->
           vp_matches devices e = false ->
           correlation_targets devices e = [])
    /\ (forall (d1 d2 : USBDevice.t) (e : LogEntry.t) (vp : string),
           In d1 devices -> In d2 devices ->
           USBDevice.same d1 d2 = false ->
           has_key vp d1 = true -> has_key vp d2 = true ->
           LogEntry.device_id e = None ->
           LogEntry.vendor_product e = Some vp ->
           In e entries ->
           In e (logs_for d1 (match_logs_to_devices devices entries))
           /\ In e (logs_for d2 (match_logs_to_devices devices entries))).
Proof.
  intros devices entries.
  split; [intros d; apply logs_for_match|].
  split; [|split; [|split]].
  - intros e Hid. rewrite correlation_targets_cases, Hid.
    unfold id_matches in Hid.
    destruct (LogEntry.device_id e) as [id|]; [|discriminate].
    cbn [fmt_opt].
    destruct (find _ (rev devices)) as [d|] eqn:Hf.
    + apply find_some in Hf. destruct Hf as [Hin Heq].
      apply in_rev in Hin. apply String.eqb_eq in Heq.
      exists d. rewrite Heq. auto.
    + apply andb_prop in Hid. destruct Hid as [_ Hid].
      rewrite <- existsb_rev_eq, find_existsb, Hf in Hid. discriminate.
  - intros e vp Hid Hvp Hm.
    rewrite correlation_targets_cases, Hid, Hm, Hvp. reflexivity.
  - intros e Hid Hm.
    rewrite correlation_targets_cases, Hid, Hm. reflexivity.
  - intros d1 d2 e vp Hd1 Hd2 _ Hk1 Hk2 Hid Hvp Hin.
    assert (Ht : correlation_targets devices e = filter (has_key vp) devices).
    { rewrite correlation_targets_cases.
      unfold id_matches, vp_matches. rewrite Hid, Hvp. cbn [fmt_opt].
      destruct (existsb (has_key vp) devices) eqn:Hex; [reflexivity|].
      rewrite existsb_filter_nil in Hex.
      now destruct (filter (has_key vp) devices). }
    assert (Hrecv : forall d, In d devices -> has_key vp d = true ->
                      In e (logs_for d (match_logs_to_devices devices entries))).
    { intros d Hd Hk. rewrite logs_for_match. apply in_flat_map.
      exists e. split; [assumption|].
      destruct (occurrences_pos d (correlation_targets devices e)) as [n Hn].
      - rewrite Ht. apply filter_In. auto.
      - rewrite Hn. now left. }
    auto.
Qed.

(* ------------------------------------------------------------------ *)
(** ** Unmatched entries *)

Lemma entry_same_trans (a b c : LogEntry.t) :
  LogEntry.same a b = true -> LogEntry.same b c = true ->
  LogEntry.same a c = true.
Proof. unfold LogEntry.same. rewrite !Nat.eqb_eq. congruence. Qed.

Lemma entry_in_app (e : LogEntry.t) (l1 l2 : list LogEntry.t) :
  entry_in e (l1 ++ l2) = entry_in e l1 || entry_in e l2.
Proof. apply existsb_app. Qed.

Lemma entry_in_same (e x : LogEntry.t) (s : list LogEntry.t) :
  LogEntry.same e x = true -> entry_in x s = true -> entry_in e s = true.
Proof.
  unfold entry_in. rewrite !existsb_exists.
  intros Hex (y & Hin & Hxy). exists y. eauto using entry_same_trans.
Qed.

Lemma set_update_mem (e : LogEntry.t) (l : list LogEntry.t) :
  forall s, entry_in e (set_update s l) = entry_in e s || entry_in e l.
Proof.
  unfold set_update.
  induction l as [|x l IH]; intros s; cbn [fold_left].
  - cbn. now rewrite orb_false_r.
  - rewrite IH. change (entry_in e (x :: l))
      with (LogEntry.same e x || entry_in e l).
    destruct (entry_in x s) eqn:Hx.
    + destruct (LogEntry.same e x) eqn:Hex; [|reflexivity].
      now rewrite (entry_in_same e x s Hex Hx).
    + rewrite entry_in_app. cbn [entry_in existsb].
      now rewrite orb_false_r, orb_assoc.
Qed.

Lemma matched_mem (e : LogEntry.t) (device_logs : device_logs_t) :
  forall s,
    entry_in e (fold_left (fun s kv => set_update s (snd kv)) device_logs s)
    = entry_in e s || entry_in e (all_logs device_logs).
Proof.
  unfold all_logs.
  induction device_logs as [|[k l] logs IH]; intros s;
    cbn [fold_left map snd List.concat].
  - cbn. now rewrite orb_false_r.
  - now rewrite IH, set_update_mem, entry_in_app, orb_assoc.
Qed.

Lemma all_logs_match (devices : list USBDevice.t)
  (entries : list LogEntry.t) :
  Permutation (all_logs (match_logs_to_devices devices entries))
    (flat_map
       (fun e => repeat e (List.length (correlation_targets devices e)))
       entries).
Proof.
  unfold match_logs_to_devices. now rewrite all_logs_match_from.
Qed.

Lemma in_all_logs (devices : list USBDevice.t) (entries : list LogEntry.t)
  (e : LogEntry.t) :
  In e (all_logs (match_logs_to_devices devices entries))
  <-> In e entries /\ no_target devices e = false.
Proof.
  split.
  - intros H. apply (Permutation_in _ (all_logs_match devices entries)) in H.
    apply in_flat_map in H. destruct H as (x & Hx & Hrep).
    apply repeat_spec in Hrep as Heq. subst x.
    split; [assumption|]. unfold no_target.
    now destruct (correlation_targets devices e).
  - intros [Hin Hno].
    apply (Permutation_in _ (Permutation_sym (all_logs_match devices entries))).
    apply in_flat_map. exists e. split; [assumption|].
    unfold no_target in Hno.
    destruct (correlation_targets devices e); [discriminate|now left].
Qed.

Lemma entry_in_true (e : LogEntry.t) (l : list LogEntry.t) :
  In e l -> entry_in e l = true.
Proof.
  intros H. apply existsb_exists. exists e. split; [assumption|].
  apply Nat.eqb_refl.
Qed.

Lemma unmatched_filter (devices : list USBDevice.t)
  (entries : list LogEntry.t) :
  (forall e1 e2, In e1 entries -> In e2 entries ->
                 LogEntry.oid e1 = LogEntry.oid e2 -> e1 = e2) ->
  get_unmatched_logs devices entries = filter (no_target devices) entries.
Proof.
  intros Hheap. unfold get_unmatched_logs.
  apply filter_ext_in. intros e He.
  rewrite matched_mem. change (entry_in e []) with false. cbn [orb].
  destruct (no_target devices e) eqn:Hno.
  - apply negb_true_iff.
    destruct (entry_in e (all_logs (match_logs_to_devices devices entries)))
      eqn:Hex; [|reflexivity].
    apply existsb_exists in Hex. destruct Hex as (x & Hx & Hsame).
    apply in_all_logs in Hx. destruct Hx as [Hx Hnx].
    apply Nat.eqb_eq in Hsame.
    rewrite (Hheap e x He Hx Hsame) in Hno. congruence.
  - apply negb_false_iff. apply entry_in_true.
    apply in_all_logs. auto.
Qed.

Lemma partition_with_fan_out (devices : list USBDevice.t)
  (entries : list LogEntry.t) :
  Permutation
    (filter (no_target devices) entries
     ++ flat_map
          (fun e => repeat e (List.length (correlation_targets devices e)))
          entries)
    (flat_map
       (fun e =>
          repeat e (Nat.max 1 (List.length (correlation_targets devices e))))
       entries).
Proof.
  induction entries as [|e entries IH]; cbn [filter flat_map]; [constructor|].
  unfold no_target at 1.
  destruct (correlation_targets devices e) as [|t ts].
  - cbn [List.length Nat.max repeat app]. now apply perm_skip.
  - cbn [List.length Nat.max]. rewrite <- IH.
    apply Permutation_app_swap_app.
Qed.

(** C7.  For a list of entry objects (members with the same identity are
    the same entry): the unmatched entries are the entries without a
    correlation target, in their original order; an entry is unmatched
    exactly when it is in no device's list; and the unmatched entries
    together with all the device lists hold every entry once per
    association, or once if it has none. *)
Theorem C7_unmatched_partition :
  forall (devices : list USBDevice.t) (entries : list LogEntry.t),
    (forall e1 e2, In e1 entries -> In e2 entries ->
                   LogEntry.oid e1 = LogEntry.oid e2 -> e1 = e2) ->
    Permutation
      (get_unmatched_logs devices entries
       ++ all_logs (match_logs_to_devices devices entries))
      (flat_map
         (fun e =>
            repeat e (Nat.max 1 (List.length (correlation_targets devices e))))
         entries)
    /\ (forall e : LogEntry.t,
           In e (get_unmatched_logs devices entries)
           <-> In e entries
               /\ forall kv, In kv (match_logs_to_devices devices entries) ->
                             ~ In e (snd kv))
    /\ get_unmatched_logs devices entries = filter (no_target devices) entries.
Proof.
  intros devices entries Hheap.
  rewrite (unmatched_filter devices entries Hheap).
  split; [|split; [|reflexivity]].
  - rewrite all_logs_match. apply partition_with_fan_out.
  - intros e. rewrite filter_In. split.
    + intros [Hin Hno]. split; [assumption|].
      intros kv Hkv He.
      assert (Hall : In e (all_logs (match_logs_to_devices devices entries))).
      { unfold all_logs. apply in_concat. exists (snd kv).
        split; [now apply in_map|assumption]. }
      apply in_all_logs in Hall. destruct Hall as [_ Hall]. congruence.
    + intros [Hin Hnone]. split; [assumption|].
      destruct (no_target devices e) eqn:Hno; [reflexivity|].
      assert (Hall : In e (all_logs (match_logs_to_devices devices entries)))
        by (apply in_all_logs; auto).
      unfold all_logs in Hall. apply in_concat in Hall.
      destruct Hall as (l & Hl & He). apply in_map_iff in Hl.
      destruct Hl as (kv & <- & Hkv). destruct (Hnone kv Hkv He).
Qed.

Lemma sample_entries_parsed :
  filter_usb_entries [hub_line; receiver_line; trace_line] = sample_entries.
Proof. vm_compute. reflexivity. Qed.

(** C5 at a message in which the bus-path search finds 1-1.2 before the
    pair 1234:5678. *)
Lemma C5_vendor_product_overrides_witness :
  option_map (group 1) (re_search bus_device_pattern both_ids_message)
  = Some (Some "1-1.2")
  /\ LogEntry.device_id
       (LogEntry.extract_device_info
          (LogEntry.new 0 both_ids_message None both_ids_message))
     = None
  /\ exists pre' a' b' post',
       vp_occurs_at both_ids_message pre' a' b' post'
       /\ length pre' <= 32
       /\ LogEntry.vendor_product
            (LogEntry.extract_device_info
               (LogEntry.new 0 both_ids_message None both_ids_message))
          = Some (a' ++ ":" ++ b')%string.
Proof.
  split; [vm_compute; reflexivity|].
  assert (Hocc : vp_occurs_at
                   (LogEntry.message
                      (LogEntry.new 0 both_ids_message None both_ids_message))
                   "usb 1-1.2: New USB device found " "1234" "5678" " here")
    by (repeat split; vm_compute; reflexivity).
  destruct (C5_vendor_product_overrides _ _ _ _ _ Hocc) as (Hid & Hvp & _).
  split; [exact Hid|exact Hvp].
Defined.

(** C6 at the hub, the two receivers and the three sample entries. *)
Lemma C6_correlation_priority_and_fan_out_witness :
  (exists d : USBDevice.t,
      In d sample_devices
      /\ LogEntry.device_id hub_entry = Some (USBDevice.device_id d)
      /\ correlation_targets sample_devices hub_entry = [d])
  /\ correlation_targets sample_devices receiver_entry
     = filter (has_key "046d:c52b") sample_devices
  /\ correlation_targets sample_devices trace_entry = []
  /\ In receiver_entry
       (logs_for receiver_a (match_logs_to_devices sample_devices sample_entries))
  /\ In receiver_entry
       (logs_for receiver_b (match_logs_to_devices sample_devices sample_entries)).
Proof.
  destruct (C6_correlation_priority_and_fan_out sample_devices sample_entries)
    as (_ & Hid & Hvp & Hnone & Hfan).
  split; [apply Hid; vm_compute; reflexivity|].
  split; [apply Hvp; vm_compute; reflexivity|].
  split; [apply Hnone; vm_compute; reflexivity|].
  apply (Hfan receiver_a receiver_b receiver_entry "046d:c52b");
    try (vm_compute; reflexivity).
  - right; left; reflexivity.
  - right; right; left; reflexivity.
  - right; left; reflexivity.
Defined.

Lemma sample_entries_distinct :
  forall e1 e2, In e1 sample_entries -> In e2 sample_entries ->
                LogEntry.oid e1 = LogEntry.oid e2 -> e1 = e2.
Proof.
  intros e1 e2 H1 H2.
  destruct H1 as [<-|[<-|[<-|[]]]]; destruct H2 as [<-|[<-|[<-|[]]]];
    cbn; intros H; try reflexivity; discriminate H.
Defined.

(** C7 at the same devices and entries. *)
Lemma C7_unmatched_partition_witness :
  Permutation
    (get_unmatched_logs sample_devices sample_entries
     ++ all_logs (match_logs_to_devices sample_devices sample_entries))
    (flat_map
       (fun e =>
          repeat e
            (Nat.max 1 (List.length (correlation_targets sample_devices e))))
       sample_entries)
  /\ get_unmatched_logs sample_devices sample_entries
     = filter (no_target sample_devices) sample_entries.
Proof.
  destruct (C7_unmatched_partition sample_devices sample_entries
              sample_entries_distinct) as (Hperm & _ & Hfilter).
  split; [exact Hperm|exact Hfilter].
Defined.

(* ------------------------------------------------------------------ *)
(** ** The orchestration *)

Lemma add_log_entry_device (e : LogEntry.t) (a : DeviceAnalysis.t) :
  DeviceAnalysis.device (DeviceAnalysis.add_log_entry e a)
  = DeviceAnalysis.device a.
Proof.
  unfold DeviceAnalysis.add_log_entry. now destruct (LogEntry.category e).
Qed.

Lemma analysis_of_device (d : USBDevice.t) (entries : list LogEntry.t) :
  DeviceAnalysis.device (analysis_of d entries) = d.
Proof.
  unfold analysis_of, collect. rewrite analyze_eq. cbn [add_issues DeviceAnalysis.device].
  change d with (DeviceAnalysis.device (DeviceAnalysis.new d)) at 2.
  generalize (DeviceAnalysis.new d).
  induction entries as [|e entries IH]; intros a; cbn [fold_left];
    [reflexivity|].
  now rewrite IH, add_log_entry_device.
Qed.

Lemma device_in_true (d : USBDevice.t) (devices : list USBDevice.t) :
  In d devices -> device_in d devices = true.
Proof.
  intros H. apply existsb_exists. exists d. split; [assumption|apply same_refl].
Qed.

(** The second loop of [analyze_devices] does append an analysis for every
    key of a mapping that is not in the device list, behind the analyses of
    the listed devices. *)
Lemma analyses_from_unlisted (devices : list USBDevice.t)
  (device_logs : device_logs_t) (kv : USBDevice.t * list LogEntry.t) :
  In kv device_logs ->
  device_in (fst kv) devices = false ->
  In (analysis_of (fst kv) (snd kv))
     (skipn (List.length devices) (analyses_from devices device_logs)).
Proof.
  intros Hkv Hout. unfold analyses_from.
  rewrite skipn_app, length_map, Nat.sub_diag, skipn_all2;
    [|now rewrite length_map].
  cbn [skipn app]. apply in_flat_map. exists kv. split; [assumption|].
  rewrite Hout. now left.
Qed.

(** The correlator only ever returns listed devices, so that loop finds
    nothing to do. *)
Lemma no_unlisted_key (devices : list USBDevice.t)
  (entries : list LogEntry.t) (kv : USBDevice.t * list LogEntry.t) :
  In kv (match_logs_to_devices devices entries) ->
  device_in (fst kv) devices = true.
Proof.
  intros H. apply device_in_true, (keys_in_devices devices entries).
  now apply in_map.
Qed.

Lemma flat_map_all_nil {X Y : Type} (f : X -> list Y) (l : list X) :
  (forall x, In x l -> f x = []) -> flat_map f l = [].
Proof.
  induction l as [|x l IH]; intros H; cbn [flat_map]; [reflexivity|].
  rewrite (H x (or_introl eq_refl)), IH; [reflexivity|].
  intros y Hy. apply H. now right.
Qed.

(** C2.  Whatever the logs say, [analyze_devices] returns one analysis per
    listed device and nothing else: a device that only left traces in the
    logs gets no analysis.  With the hub listed and a disconnect line of
    the unlisted device 3-2, the only analysis is the hub's and the line is
    reported as unmatched. *)
Theorem C2_no_analysis_for_unlisted_devices :
  (forall (devices : list USBDevice.t) (entries : list LogEntry.t),
      map DeviceAnalysis.device (analyze_devices devices entries) = devices)
  /\ map DeviceAnalysis.device (fst (diagnose [hub_device] [trace_line]))
     = [hub_device]
  /\ map LogEntry.device_id (snd (diagnose [hub_device] [trace_line]))
     = [Some "3-2"].
Proof.
  split; [|split; vm_compute; reflexivity].
  intros devices entries. unfold analyze_devices, analyses_from.
  rewrite map_app, map_map.
  assert (Htraces :
            flat_map
              (fun kv : USBDevice.t * list LogEntry.t =>
                 if negb (device_in (fst kv) devices)
                 then [analysis_of (fst kv) (snd kv)]
                 else [])
              (match_logs_to_devices devices entries) = []).
  { apply flat_map_all_nil. intros kv Hkv.
    now rewrite (no_unlisted_key devices entries kv Hkv). }
  rewrite Htraces. cbn [map]. rewrite app_nil_r.
  rewrite <- (map_id devices) at 2. apply map_ext.
  intros d. apply analysis_of_device.
Qed.

(* ================================================================== *)
(** * Further properties *)

(* ------------------------------------------------------------------ *)
(** ** Text *)

Lemma str_app_nil_r (s : string) : (s ++ "")%string = s.
Proof. induction s as [|c s IH]; cbn; [reflexivity|now rewrite IH]. Qed.

Lemma str_app_assoc (a b c : string) :
  ((a ++ b) ++ c)%string = (a ++ b ++ c)%string.
Proof. induction a as [|x a IH]; cbn; [reflexivity|now rewrite IH]. Qed.

Lemma str_length_app (a b : string) :
  length (a ++ b) = length a + length b.
Proof. induction a as [|x a IH]; cbn; [reflexivity|now rewrite IH]. Qed.

Lemma substring_prefix (w s : string) :
  substring 0 (length (w ++ s) - length s) (w ++ s) = w.
Proof.
  rewrite str_length_app, Nat.add_sub.
  induction w as [|c w IH]; cbn [append length substring].
  - apply substring_none.
  - now rewrite IH.
Qed.

(* ------------------------------------------------------------------ *)
(** ** The matcher finds what the pattern matches *)

Section MatcherSound.

Context {A : Type}.

Lemma star_loop_sound (a : regex) (Ha : sound_for A a) :
  forall (fuel : nat) (s : string) (c0 : captures)
         (k : string -> captures -> option A) (x : A),
    star_loop (re_match a) k fuel s c0 = Some x ->
    exists (w s' : string) (c1 : captures),
      s = (w ++ s')%string /\ Matches (RStar a) w c0 c1 /\ k s' c1 = Some x.
Proof.
  induction fuel as [|fuel IH]; intros s c0 k x; cbn [star_loop].
  - intros H. exists EmptyString, s, c0. repeat split; [constructor|exact H].
  - destruct (re_match a s c0 _) as [y|] eqn:Hbody.
    + intros [= ->]. apply Ha in Hbody.
      destruct Hbody as (w1 & s1 & c1 & -> & Hm1 & Hk).
      destruct (length s1 <? length (w1 ++ s1)); [|discriminate].
      apply IH in Hk. destruct Hk as (w2 & s2 & c2 & -> & Hm2 & Hk).
      exists (w1 ++ w2)%string, s2, c2.
      rewrite str_app_assoc. repeat split; [|exact Hk].
      econstructor; eassumption.
    + intros H. exists EmptyString, s, c0.
      repeat split; [constructor|exact H].
Qed.

Lemma re_match_sound (r : regex) : sound_for A r.
Proof.
  induction r as [p|a IHa b IHb|a IHa|a IHa|n a IHa]; intros s c0 k x;
    cbn [re_match].
  - destruct s as [|c s]; [discriminate|].
    destruct (p c) eqn:Hp; [|discriminate].
    intros H. exists (String c EmptyString), s, c0.
    repeat split; [now constructor|exact H].
  - intros H. apply IHa in H. destruct H as (w1 & s1 & c1 & -> & Hm1 & H).
    apply IHb in H. destruct H as (w2 & s2 & c2 & -> & Hm2 & H).
    exists (w1 ++ w2)%string, s2, c2.
    rewrite str_app_assoc. repeat split; [|exact H].
    econstructor; eassumption.
  - destruct (re_match a s c0 k) as [y|] eqn:Ha.
    + intros [= ->]. apply IHa in Ha.
      destruct Ha as (w & s' & c1 & -> & Hm & H).
      exists w, s', c1. repeat split; [now apply MOptSome|exact H].
    + intros H. exists EmptyString, s, c0.
      repeat split; [apply MOptNone|exact H].
  - now apply star_loop_sound.
  - intros H. apply IHa in H. destruct H as (w & s' & c1 & -> & Hm & H).
    rewrite substring_prefix in H.
    exists w, s', ((n, w) :: c1). repeat split; [now constructor|exact H].
Qed.

(** Conversely, when the pattern matches a prefix of the text and the
    continuation accepts what follows, the matcher succeeds. *)
Lemma re_match_complete (r : regex) (w : string) (c0 c1 : captures) :
  Matches r w c0 c1 ->
  forall (s' : string) (c : captures) (k : string -> captures -> option A),
    (forall c', k s' c' <> None) ->
    re_match r (w ++ s') c k <> None.
Proof.
  induction 1 as [p ch c0 Hp|a b w1 w2 c0 c1 c2 _ IHa _ IHb|a w c0 c1 _ IHa
                 |a c0|a c0|a w1 w2 c0 c1 c2 _ IHa _ IHs|n a w c0 c1 _ IHa];
    intros s' c k Hk.
  - cbn. rewrite Hp. apply Hk.
  - cbn [re_match]. rewrite str_app_assoc. apply IHa.
    intros c'. now apply IHb.
  - cbn [re_match].
    destruct (re_match a (w ++ s') c k) eqn:Ha; [discriminate|].
    now apply IHa in Ha.
  - cbn [re_match append]. destruct (re_match a s' c k); [discriminate|apply Hk].
  - cbn [re_match append].
    destruct (length s') as [|n]; cbn [star_loop]; [apply Hk|].
    destruct (re_match a s' c _); [discriminate|apply Hk].
  - destruct w1 as [|x w1]; [now apply IHs|].
    cbn [re_match]. rewrite str_app_assoc.
    destruct (length (String x w1 ++ w2 ++ s')) as [|fuel] eqn:Hlen;
      [discriminate Hlen|].
    cbn [star_loop].
    destruct (re_match a (String x w1 ++ w2 ++ s') c _) eqn:Hbody;
      [discriminate|].
    exfalso. revert Hbody. apply IHa. intros c'.
    assert (Hshort : length (w2 ++ s') <= fuel).
    { cbn [append length] in Hlen. injection Hlen as Hlen.
      rewrite str_length_app in Hlen. lia. }
    assert (Hlt : (length (w2 ++ s') <? length (String x w1 ++ w2 ++ s')) = true).
    { apply Nat.ltb_lt. rewrite Hlen. lia. }
    rewrite Hlt.
    rewrite (star_fuel_enough a k fuel (length (w2 ++ s')) (w2 ++ s') c')
      by lia.
    specialize (IHs s' c' k Hk). cbn [re_match] in IHs. exact IHs.
  - cbn [re_match]. apply IHa. intros c'. apply Hk.
Qed.

End MatcherSound.

(* ------------------------------------------------------------------ *)
(** ** Bus paths *)

Lemma matches_char_inv (p : ascii -> bool) (w : string) (c0 c1 : captures) :
  Matches (RChar p) w c0 c1 ->
  exists c, w = String c EmptyString /\ p c = true /\ c1 = c0.
Proof. inversion 1; subst. eauto. Qed.

Lemma matches_seq_inv (a b : regex) (w : string) (c0 c2 : captures) :
  Matches (RSeq a b) w c0 c2 ->
  exists w1 w2 c1,
    w = (w1 ++ w2)%string /\ Matches a w1 c0 c1 /\ Matches b w2 c1 c2.
Proof. inversion 1; subst. eauto 6. Qed.

Lemma matches_group_inv (n : nat) (a : regex) (w : string)
  (c0 c2 : captures) :
  Matches (RGroup n a) w c0 c2 ->
  exists c1, c2 = (n, w) :: c1 /\ Matches a w c0 c1.
Proof. inversion 1; subst. eauto. Qed.

Lemma matches_star_chars (p : ascii -> bool) (w : string)
  (c0 c1 : captures) :
  Matches (RStar (RChar p)) w c0 c1 -> all_chars p w = true /\ c1 = c0.
Proof.
  remember (RStar (RChar p)) as r eqn:Hr. intros H.
  induction H as [| | | | |a w1 w2 c0 c1 c2 H1 _ H2 IH2|]; try discriminate.
  - auto.
  - injection Hr as ->. destruct (IH2 eq_refl) as [Hall ->].
    apply matches_char_inv in H1. destruct H1 as (c & -> & Hp & ->).
    cbn. now rewrite Hp, Hall.
Qed.

Lemma chars_match_star (p : ascii -> bool) (w : string) (c0 : captures) :
  all_chars p w = true -> Matches (RStar (RChar p)) w c0 c0.
Proof.
  induction w as [|c w IH]; cbn [all_chars]; intros H; [constructor|].
  apply andb_prop in H. destruct H as [Hc Hw].
  change (String c w) with (String c EmptyString ++ w)%string.
  eapply MStarCons; [now constructor|now apply IH].
Qed.

Lemma matches_digits (w : string) (c0 c1 : captures) :
  Matches (RPlus (RChar is_digit)) w c0 c1 ->
  is_digits w = true /\ c1 = c0.
Proof.
  unfold RPlus. intros H. apply matches_seq_inv in H.
  destruct H as (w1 & w2 & cm & -> & H1 & H2).
  apply matches_char_inv in H1. destruct H1 as (c & -> & Hc & ->).
  apply matches_star_chars in H2. destruct H2 as [Hall ->].
  unfold is_digits. cbn. now rewrite Hc, Hall.
Qed.

Lemma digits_match (w : string) (c0 : captures) :
  is_digits w = true -> Matches (RPlus (RChar is_digit)) w c0 c0.
Proof.
  unfold is_digits. destruct w as [|c w]; [discriminate|].
  cbn [String.eqb negb andb all_chars]. intros H.
  apply andb_prop in H. destruct H as [Hc Hw].
  change (String c w) with (String c EmptyString ++ w)%string.
  unfold RPlus. eapply MSeq; [now constructor|now apply chars_match_star].
Qed.

Lemma matches_dotted (w : string) (c0 c1 : captures) :
  Matches (RStar dot_group) w c0 c1 ->
  exists subs, w = dotted subs
               /\ Forall (fun d => is_digits d = true) subs /\ c1 = c0.
Proof.
  remember (RStar dot_group) as r eqn:Hr. intros H.
  induction H as [| | | | |a w1 w2 c0 c1 c2 H1 _ H2 IH2|]; try discriminate.
  - exists []. auto.
  - injection Hr as ->. destruct (IH2 eq_refl) as (subs & -> & Hall & ->).
    unfold dot_group in H1. apply matches_seq_inv in H1.
    destruct H1 as (wd & d & cm & -> & Hdot & Hd).
    apply matches_char_inv in Hdot. destruct Hdot as (c & -> & Hc & ->).
    apply Ascii.eqb_eq in Hc. subst c.
    apply matches_digits in Hd. destruct Hd as [Hd ->].
    exists (d :: subs). cbn [dotted append].
    repeat split. now constructor.
Qed.

Lemma dotted_match (subs : list string) (c0 : captures) :
  Forall (fun d => is_digits d = true) subs ->
  Matches (RStar dot_group) (dotted subs) c0 c0.
Proof.
  induction 1 as [|d subs Hd _ IH]; cbn [dotted]; [constructor|].
  change ("." ++ d ++ dotted subs)%string
    with (String "." (d ++ dotted subs)).
  replace (String "." (d ++ dotted subs))
    with ((String "." EmptyString ++ d) ++ dotted subs)%string
    by (now rewrite str_app_assoc).
  eapply MStarCons; [|exact IH].
  unfold dot_group. eapply MSeq; [now constructor|now apply digits_match].
Qed.

Lemma matches_bus_path (w : string) (c0 c1 : captures) :
  Matches bus_path_body w c0 c1 -> BusPath w /\ c1 = c0.
Proof.
  unfold bus_path_body. cbn [seq_of]. intros H.
  apply matches_seq_inv in H. destruct H as (bus & r1 & ca & -> & Hbus & H).
  apply matches_seq_inv in H. destruct H as (h & r2 & cb & -> & Hh & H).
  apply matches_seq_inv in H. destruct H as (port & r3 & cc & -> & Hport & H).
  apply matches_digits in Hbus, Hport.
  destruct Hbus as [Hbus ->]. destruct Hport as [Hport ->].
  apply matches_char_inv in Hh. destruct Hh as (c & -> & Hc & ->).
  apply Ascii.eqb_eq in Hc. subst c.
  apply matches_dotted in H. destruct H as (subs & -> & Hsubs & ->).
  split; [|reflexivity]. exists bus, port, subs. auto.
Qed.

Lemma bus_path_matches (w : string) (c0 : captures) :
  BusPath w -> Matches bus_path_body w c0 c0.
Proof.
  intros (bus & port & subs & -> & Hbus & Hport & Hsubs).
  unfold bus_path_body. cbn [seq_of].
  eapply MSeq; [now apply digits_match|].
  change ("-" ++ port ++ dotted subs)%string
    with (String "-" EmptyString ++ port ++ dotted subs)%string.
  eapply MSeq; [now constructor|].
  eapply MSeq; [now apply digits_match|now apply dotted_match].
Qed.

Lemma at_end_inv (s : string) :
  at_end s = true -> s = EmptyString \/ s = String "010" EmptyString.
Proof.
  destruct s as [|c [|c' s]]; cbn; auto; [|discriminate].
  intros H. apply Ascii.eqb_eq in H. subst c. auto.
Qed.

Lemma matches_device_dir (w : string) (c0 c1 : captures) :
  Matches device_dir_pattern w c0 c1 -> BusPath w.
Proof.
  unfold device_dir_pattern. cbn [seq_of]. intros H.
  apply matches_seq_inv in H. destruct H as (bus & r1 & ca & -> & Hbus & H).
  apply matches_seq_inv in H. destruct H as (h & r2 & cb & -> & Hh & H).
  apply matches_group_inv in Hbus. destruct Hbus as (cg & -> & Hbus).
  apply matches_group_inv in H. destruct H as (cg2 & -> & H).
  apply matches_seq_inv in H. destruct H as (port & r3 & cc & -> & Hport & H).
  apply matches_digits in Hbus, Hport.
  destruct Hbus as [Hbus ->]. destruct Hport as [Hport ->].
  apply matches_char_inv in Hh. destruct Hh as (c & -> & Hc & ->).
  apply Ascii.eqb_eq in Hc. subst c.
  apply (matches_dotted r3) in H. destruct H as (subs & -> & Hsubs & ->).
  exists bus, port, subs. auto.
Qed.

Lemma device_dir_matches (w : string) (c0 : captures) :
  BusPath w -> exists c1, Matches device_dir_pattern w c0 c1.
Proof.
  intros (bus & port & subs & -> & Hbus & Hport & Hsubs).
  unfold device_dir_pattern. cbn [seq_of]. eexists.
  eapply MSeq; [apply MGroup; now apply digits_match|].
  change ("-" ++ port ++ dotted subs)%string
    with (String "-" EmptyString ++ port ++ dotted subs)%string.
  eapply MSeq; [now constructor|].
  apply MGroup.
  eapply MSeq; [now apply digits_match|now apply dotted_match].
Qed.

Lemma parse_device_id_accepts (w rest : string) :
  BusPath w -> at_end rest = true ->
  parse_device_id (w ++ rest) = Some (w ++ rest)%string.
Proof.
  intros Hw Hrest. unfold parse_device_id, re_match_to_end.
  destruct (device_dir_matches w [] Hw) as [c1 Hm].
  destruct (re_match device_dir_pattern (w ++ rest) [] _) eqn:H;
    [reflexivity|].
  exfalso. revert H. apply (re_match_complete _ _ _ _ Hm).
  intros c'. rewrite Hrest. discriminate.
Qed.

Lemma parse_device_id_inv (s r : string) :
  parse_device_id s = Some r ->
  r = s /\ exists w rest,
             s = (w ++ rest)%string /\ BusPath w /\ at_end rest = true.
Proof.
  unfold parse_device_id, re_match_to_end.
  destruct (re_match device_dir_pattern s [] _) as [m|] eqn:H; [|discriminate].
  intros [= <-]. split; [reflexivity|].
  apply re_match_sound in H. destruct H as (w & rest & c1 & -> & Hm & Hk).
  exists w, rest. split; [reflexivity|].
  split; [exact (matches_device_dir _ _ _ Hm)|].
  now destruct (at_end rest).
Qed.

(** X1.  [parse_device_id] returns its argument or [None]; it accepts
    exactly the bus paths and the bus paths followed by one newline. *)
Theorem parse_device_id_spec :
  forall s : string,
    (forall r, parse_device_id s = Some r -> r = s)
    /\ (parse_device_id s = Some s
        <-> BusPath s
            \/ exists w, s = (w ++ String "010" EmptyString)%string
                         /\ BusPath w).
Proof.
  intros s. split; [intros r H; now apply parse_device_id_inv in H|].
  split.
  - intros H. apply parse_device_id_inv in H.
    destruct H as (_ & w & rest & -> & Hw & Hrest).
    apply at_end_inv in Hrest. destruct Hrest as [-> | ->].
    + left. now rewrite str_app_nil_r.
    + right. eauto.
  - intros [H | (w & -> & H)].
    + rewrite <- (str_app_nil_r s). now apply parse_device_id_accepts.
    + now apply parse_device_id_accepts.
Qed.

Lemma parse_device_id_spec_witness :
  parse_device_id "1-1.2" = Some "1-1.2".
Proof.
  apply (proj2 (proj2 (parse_device_id_spec "1-1.2"))).
  left. exists "1"%string, "1"%string, ["2"%string].
  repeat split; try reflexivity. repeat constructor.
Defined.

Lemma re_search_inv (r : regex) (s : string) (m : captures) :
  re_search r s = Some m ->
  exists pre s1,
    s = (pre ++ s1)%string
    /\ re_match r s1 [] (fun _ c => Some c) = Some m.
Proof.
  induction s as [|c s IH]; cbn [re_search].
  - destruct (re_match r "" [] _) eqn:H; [|discriminate].
    intros [= <-]. exists EmptyString, EmptyString. auto.
  - destruct (re_match r (String c s) [] _) eqn:H.
    + intros [= <-]. exists EmptyString, (String c s). auto.
    + intros Hs. destruct (IH Hs) as (pre & s1 & -> & Hm).
      exists (String c pre), s1. auto.
Qed.

(** What the bus-device search captures: a bus path of the message that
    is followed by whitespace or a colon. *)
Lemma bus_search_inv (msg : string) (m : captures) :
  re_search bus_device_pattern msg = Some m ->
  exists pre id sep post,
    group 1 m = Some id
    /\ msg = (pre ++ id ++ String sep post)%string
    /\ BusPath id
    /\ is_space sep || is_char ":" sep = true.
Proof.
  intros H. apply re_search_inv in H. destruct H as (pre & s1 & -> & H).
  apply re_match_sound in H. destruct H as (w & post & c1 & -> & Hm & Hk).
  injection Hk as ->.
  unfold bus_device_pattern in Hm.
  apply matches_seq_inv in Hm. destruct Hm as (wo & w1 & ca & -> & _ & Hm).
  apply matches_seq_inv in Hm. destruct Hm as (id & ws & cb & -> & Hg & Hs).
  apply matches_group_inv in Hg. destruct Hg as (cg & -> & Hg).
  apply (matches_bus_path id) in Hg. destruct Hg as [Hid ->].
  apply matches_char_inv in Hs. destruct Hs as (sep & -> & Hsep & ->).
  exists (pre ++ wo)%string, id, sep, post.
  cbn [group Nat.eqb]. rewrite !str_app_assoc. cbn [append]. auto.
Qed.

(* ------------------------------------------------------------------ *)
(** ** Identifiers of parsed entries *)

Lemma first_vp_inv (s a b : string) :
  first_vp s = Some (a, b) -> exists pre post, vp_occurs_at s pre a b post.
Proof.
  induction s as [|c s IH]; rewrite first_vp_unfold.
  - destruct (vp_prefix "") as [[a1 b1]|] eqn:Hp; [|discriminate].
    intros [= -> ->]. apply vp_prefix_sound in Hp. destruct Hp as [post Hp].
    now exists EmptyString, post.
  - destruct (vp_prefix (String c s)) as [[a1 b1]|] eqn:Hp.
    + intros [= -> ->]. apply vp_prefix_sound in Hp.
      destruct Hp as [post Hp]. now exists EmptyString, post.
    + intros H. destruct (IH H) as (pre & post & Hocc).
      exists (String c pre), post. now apply vp_occurs_shift.
Qed.

(** X2.  A device id taken from a message is a bus path that stands in the
    message in front of a whitespace character or a colon; it is a name
    [parse_device_id] accepts, and the entry has no [vendor_product]. *)
Theorem extracted_device_id_is_bus_path :
  forall (o : nat) (msg : string) (ts : option datetime) (raw id : string),
    LogEntry.device_id
      (LogEntry.extract_device_info (LogEntry.new o msg ts raw)) = Some id ->
    BusPath id
    /\ parse_device_id id = Some id
    /\ (exists pre sep post,
           msg = (pre ++ id ++ String sep post)%string
           /\ is_space sep || is_char ":" sep = true)
    /\ LogEntry.vendor_product
         (LogEntry.extract_device_info (LogEntry.new o msg ts raw)) = None.
Proof.
  intros o msg ts raw id. unfold LogEntry.extract_device_info.
  cbn [LogEntry.new LogEntry.message].
  destruct (re_search vendor_product_pattern msg); [discriminate|].
  destruct (re_search bus_device_pattern msg) as [m|] eqn:Hbus;
    [|discriminate].
  cbn. intros Hid.
  destruct (bus_search_inv msg m Hbus)
    as (pre & id' & sep & post & Hg & Hmsg & Hpath & Hsep).
  rewrite Hg in Hid. injection Hid as ->.
  split; [exact Hpath|]. split.
  - rewrite <- (str_app_nil_r id). now apply parse_device_id_accepts.
  - split; [|reflexivity]. exists pre, sep, post. auto.
Qed.

(** X3.  A vendor:product key taken from a message consists of four word
    characters, a colon and four word characters that stand in the message;
    the entry then has no [device_id]. *)
Theorem extracted_vendor_product_shape :
  forall (o : nat) (msg : string) (ts : option datetime) (raw vp : string),
    LogEntry.vendor_product
      (LogEntry.extract_device_info (LogEntry.new o msg ts raw)) = Some vp ->
    (exists pre a b post,
        vp = (a ++ ":" ++ b)%string /\ vp_occurs_at msg pre a b post)
    /\ length vp = 9
    /\ LogEntry.device_id
         (LogEntry.extract_device_info (LogEntry.new o msg ts raw)) = None.
Proof.
  intros o msg ts raw vp. unfold LogEntry.extract_device_info.
  cbn [LogEntry.new LogEntry.message]. rewrite vp_search.
  destruct (first_vp msg) as [[a b]|] eqn:Hf.
  - cbn. intros [= <-].
    destruct (first_vp_inv msg a b Hf) as (pre & post & Hocc).
    split; [now exists pre, a, b, post|]. split; [|reflexivity].
    destruct Hocc as (_ & Ha & Hb).
    change (String ":" b) with (":" ++ b)%string.
    rewrite !str_length_app, (word4_length a Ha), (word4_length b Hb).
    reflexivity.
  - cbn. destruct (re_search bus_device_pattern msg); cbn; discriminate.
Qed.

Lemma extracted_device_id_is_bus_path_witness :
  BusPath "1-1.2"
  /\ parse_device_id "1-1.2" = Some "1-1.2"
  /\ (exists pre sep post,
         "usb 1-1.2: reset high-speed USB device"
         = (pre ++ "1-1.2" ++ String sep post)%string
         /\ is_space sep || is_char ":" sep = true)
  /\ LogEntry.vendor_product
       (LogEntry.extract_device_info
          (LogEntry.new 0 "usb 1-1.2: reset high-speed USB device" None ""))
     = None.
Proof.
  apply (extracted_device_id_is_bus_path 0
           "usb 1-1.2: reset high-speed USB device" None "" "1-1.2").
  vm_compute. reflexivity.
Defined.

Lemma extracted_vendor_product_shape_witness :
  (exists pre a b post,
      "1234:5678" = (a ++ ":" ++ b)%string
      /\ vp_occurs_at both_ids_message pre a b post)
  /\ length "1234:5678" = 9
  /\ LogEntry.device_id
       (LogEntry.extract_device_info
          (LogEntry.new 0 both_ids_message None "")) = None.
Proof.
  apply (extracted_vendor_product_shape 0 both_ids_message None ""
           "1234:5678").
  vm_compute. reflexivity.
Defined.

(* ------------------------------------------------------------------ *)
(** ** Substrings *)

Lemma starts_with_inv (p s : string) :
  starts_with p s = true -> exists post, s = (p ++ post)%string.
Proof.
  revert s. induction p as [|a p IH]; intros s; cbn [starts_with].
  - intros _. now exists s.
  - destruct s as [|b s]; [discriminate|].
    intros H. apply andb_prop in H. destruct H as [Hab Hp].
    apply Ascii.eqb_eq in Hab. subst b.
    destruct (IH s Hp) as [post ->]. now exists post.
Qed.

Lemma starts_with_app (p post : string) : starts_with p (p ++ post) = true.
Proof.
  induction p as [|a p IH]; cbn [starts_with append]; [reflexivity|].
  now rewrite Ascii.eqb_refl, IH.
Qed.

Lemma contains_unfold (sub s : string) :
  contains sub s
  = starts_with sub s
    || match s with
       | EmptyString => false
       | String _ s' => contains sub s'
       end.
Proof. destruct s; reflexivity. Qed.

Lemma contains_inv (sub s : string) :
  contains sub s = true ->
  exists pre post, s = (pre ++ sub ++ post)%string.
Proof.
  induction s as [|c s IH]; rewrite contains_unfold; intros H;
    apply orb_prop in H; destruct H as [H|H].
  - apply starts_with_inv in H. destruct H as [post ->].
    now exists EmptyString, post.
  - discriminate.
  - apply starts_with_inv in H. destruct H as [post ->].
    now exists EmptyString, post.
  - destruct (IH H) as (pre & post & ->). now exists (String c pre), post.
Qed.

Lemma contains_intro (sub pre post : string) :
  contains sub (pre ++ sub ++ post) = true.
Proof.
  induction pre as [|c pre IH]; rewrite contains_unfold.
  - cbn [append]. now rewrite starts_with_app.
  - cbn [append]. rewrite IH. apply orb_true_r.
Qed.

(** A text that contains [a ++ b] contains [b], and what is contained in a
    part of a text is contained in the text. *)
Lemma contains_right_part (a b s : string) :
  contains (a ++ b) s = true -> contains b s = true.
Proof.
  intros H. apply contains_inv in H. destruct H as (pre & post & ->).
  rewrite str_app_assoc, <- (str_app_assoc pre a).
  apply contains_intro.
Qed.

Lemma contains_in_part (sub pre s post : string) :
  contains sub s = true -> contains sub (pre ++ s ++ post) = true.
Proof.
  intros H. apply contains_inv in H. destruct H as (p1 & p2 & ->).
  rewrite !str_app_assoc, <- (str_app_assoc pre p1).
  apply contains_intro.
Qed.

Lemma lower_app (a b : string) :
  lower (a ++ b) = (lower a ++ lower b)%string.
Proof. induction a as [|c a IH]; cbn; [reflexivity|now rewrite IH]. Qed.

Lemma lower_char_idem (c : ascii) : lower_char (lower_char c) = lower_char c.
Proof.
  destruct c as [[] [] [] [] [] [] [] []]; vm_compute; reflexivity.
Qed.

Lemma lower_idem (s : string) : lower (lower s) = lower s.
Proof.
  induction s as [|c s IH]; cbn; [reflexivity|].
  now rewrite lower_char_idem, IH.
Qed.

(* ------------------------------------------------------------------ *)
(** ** Which categories a message can get *)

(** X4.  The category depends on the message up to letter case only: a
    message and its lower-case form get the same category. *)
Theorem categorize_ignores_case :
  forall m : string, LogEntry.categorize (lower m) = LogEntry.categorize m.
Proof.
  intros m. unfold LogEntry.categorize. now rewrite lower_idem.
Qed.

(** X5.  The test for "enumeration failed" can never decide: such a
    message contains "failed" and is taken by an earlier rule, so its
    category is over_current, reset, disconnect or error.  The category
    enumeration_error is only given for "cannot enumerate". *)
Theorem enumeration_failed_is_never_enumeration_error :
  forall m : string,
    (contains "enumeration failed" (lower m) = true ->
     In (LogEntry.categorize m) [over_current; reset; disconnect; error])
    /\ (LogEntry.categorize m = enumeration_error ->
        contains "cannot enumerate" (lower m) = true
        /\ contains "failed" (lower m) = false
        /\ contains "error" (lower m) = false).
Proof.
  intros m. split.
  - intros H.
    assert (Hf : contains "failed" (lower m) = true)
      by (apply (contains_right_part "enumeration "); exact H).
    unfold LogEntry.categorize. rewrite Hf, orb_true_r.
    destruct (contains_any _ _); [cbn; auto|].
    destruct (contains "reset" _ && contains "usb" _); [cbn; auto|].
    destruct (contains "disconnect" _ && contains "usb" _); cbn; auto.
  - unfold LogEntry.categorize.
    destruct (contains_any _ _); [discriminate|].
    destruct (contains "reset" _ && contains "usb" _); [discriminate|].
    destruct (contains "disconnect" _ && contains "usb" _); [discriminate|].
    destruct (contains "error" (lower m)) eqn:He; [discriminate|].
    destruct (contains "failed" (lower m)) eqn:Hf; [discriminate|].
    cbn [orb].
    destruct (contains "timeout" _); [discriminate|].
    destruct (contains "descriptor read" _); [discriminate|].
    destruct (contains "cannot enumerate" (lower m)) eqn:Hc.
    + auto.
    + cbn [orb].
      destruct (contains "enumeration failed" (lower m)) eqn:Hef.
      * apply (contains_right_part "enumeration ") in Hef. congruence.
      * destruct (contains "warning" _ || contains "warn" _); discriminate.
Qed.

Lemma enumeration_failed_is_never_enumeration_error_witness :
  In (LogEntry.categorize "usb 1-1: device enumeration failed")
     [over_current; reset; disconnect; error].
Proof.
  apply (proj1 (enumeration_failed_is_never_enumeration_error
                  "usb 1-1: device enumeration failed")).
  vm_compute. reflexivity.
Defined.

(* ------------------------------------------------------------------ *)
(** ** The keyword gate *)

Lemma drop_suffix (n : nat) (s : string) :
  exists pre, s = (pre ++ drop n s)%string.
Proof.
  revert s. induction n as [|n IH]; intros s; cbn [drop].
  - now exists EmptyString.
  - destruct s as [|c s]; [now exists EmptyString|].
    destruct (IH s) as [pre Hpre]. exists (String c pre).
    cbn [append]. now rewrite <- Hpre.
Qed.

Lemma after_first_suffix (sep s r : string) :
  after_first sep s = Some r -> exists pre, s = (pre ++ r)%string.
Proof.
  induction s as [|c s IH]; cbn [after_first].
  - destruct (starts_with sep ""); [|discriminate].
    intros [= <-]. apply drop_suffix.
  - destruct (starts_with sep (String c s)).
    + intros [= <-]. apply drop_suffix.
    + intros H. destruct (IH H) as [pre ->]. now exists (String c pre).
Qed.

Lemma after_last_suffix (sep s r : string) :
  after_last sep s = Some r -> exists pre, s = (pre ++ r)%string.
Proof.
  induction s as [|c s IH]; cbn [after_last].
  - destruct (starts_with sep ""); [|discriminate].
    intros [= <-]. apply drop_suffix.
  - destruct (after_last sep s) as [r'|].
    + intros [= <-]. destruct (IH eq_refl) as [pre ->].
      now exists (String c pre).
    + destruct (starts_with sep (String c s)); [|discriminate].
      intros [= <-]. apply drop_suffix.
Qed.

Lemma strip_prefix_suffix (line : string) :
  exists pre, line = (pre ++ strip_prefix line)%string.
Proof.
  unfold strip_prefix.
  destruct (after_first "] " line) as [r|] eqn:H1;
    [now apply (after_first_suffix "] ")|].
  destruct (after_last ": " line) as [r|] eqn:H2;
    [now apply (after_last_suffix ": ")|].
  now exists EmptyString.
Qed.

Lemma lstrip_suffix (s : string) : exists pre, s = (pre ++ lstrip s)%string.
Proof.
  induction s as [|c s IH]; cbn [lstrip]; [now exists EmptyString|].
  destruct (is_space c); [|now exists EmptyString].
  destruct IH as [pre Hpre]. exists (String c pre).
  cbn [append]. now rewrite <- Hpre.
Qed.

Lemma rstrip_prefix (s : string) : exists post, s = (rstrip s ++ post)%string.
Proof.
  induction s as [|c s IH]; cbn [rstrip]; [now exists EmptyString|].
  destruct IH as [post Hpost].
  destruct (rstrip s) as [|c' r].
  - destruct (is_space c).
    + now exists (String c s).
    + exists post. cbn [append] in *. now rewrite <- Hpost.
  - exists post. cbn [append] in *. now rewrite <- Hpost.
Qed.

(** The message of an entry is a part of its raw line. *)
Lemma message_part_of_line (line : string) :
  exists pre post,
    line = (pre ++ strip (strip_prefix line) ++ post)%string.
Proof.
  destruct (strip_prefix_suffix line) as [p1 H1].
  destruct (lstrip_suffix (strip_prefix line)) as [p2 H2].
  destruct (rstrip_prefix (lstrip (strip_prefix line))) as [post H3].
  exists (p1 ++ p2)%string, post. unfold strip.
  rewrite str_app_assoc, <- H3, <- H2. exact H1.
Qed.

Lemma keyword_in_line (kw line : string) :
  contains kw (lower (strip (strip_prefix line))) = true ->
  contains kw (lower line) = true.
Proof.
  intros H. destruct (message_part_of_line line) as (pre & post & Hline).
  rewrite Hline at 1. rewrite !lower_app. now apply contains_in_part.
Qed.

Lemma gate_keyword (kw line : string) :
  In kw usb_keywords ->
  contains kw (lower (strip (strip_prefix line))) = true ->
  contains_any usb_keywords (lower line) = true.
Proof.
  intros Hin H. apply existsb_exists. exists kw.
  split; [assumption|now apply keyword_in_line].
Qed.

(** X6.  The keyword gate of [filter_usb_entries] only drops lines whose
    message would have been classified info, error or warning: every line
    whose message falls into one of the six other categories is kept. *)
Theorem gate_drops_only_plain_lines :
  forall (next : nat) (line : string),
    filter_line next line = None ->
    In (LogEntry.categorize (strip (strip_prefix line)))
       [info; error; warning].
Proof.
  intros next line. unfold filter_line.
  destruct (contains_any usb_keywords (lower line)) eqn:Hgate; [discriminate|].
  intros _.
  assert (Hno : forall kw, In kw usb_keywords ->
                  contains kw (lower (strip (strip_prefix line))) = false).
  { intros kw Hin.
    destruct (contains kw (lower (strip (strip_prefix line)))) eqn:H;
      [|reflexivity].
    rewrite (gate_keyword kw line Hin H) in Hgate. discriminate. }
  unfold LogEntry.categorize, contains_any. cbn [existsb].
  rewrite (Hno "over-current"), (Hno "overcurrent"), (Hno "reset"),
    (Hno "disconnect"), (Hno "timeout"), (Hno "descriptor read"),
    (Hno "cannot enumerate"), (Hno "enumeration failed")
    by (cbn; tauto).
  cbn [orb andb].
  destruct (contains "error" _ || contains "failed" _); [cbn; auto|].
  destruct (contains "warning" _ || contains "warn" _); cbn; auto.
Qed.

Lemma gate_drops_only_plain_lines_witness :
  In (LogEntry.categorize (strip (strip_prefix io_error_line)))
     [info; error; warning].
Proof.
  apply (gate_drops_only_plain_lines 0 io_error_line).
  vm_compute. reflexivity.
Defined.

(* ------------------------------------------------------------------ *)
(** ** Counters *)

Lemma count_category_snoc (c : Category) (entries : list LogEntry.t)
  (e : LogEntry.t) :
  count_category c (entries ++ [e])
  = count_category c entries
    + (if category_eqb (LogEntry.category e) c then 1 else 0).
Proof.
  unfold count_category. rewrite filter_app, length_app. cbn [filter].
  now destruct (category_eqb (LogEntry.category e) c).
Qed.

Lemma add_log_entry_counted (e : LogEntry.t) (a : DeviceAnalysis.t) :
  counted a -> counted (DeviceAnalysis.add_log_entry e a).
Proof.
  unfold counted. intros (Hr & Hd & He & Hw & Ho & Ht & Hde & Hee).
  unfold DeviceAnalysis.add_log_entry.
  destruct (LogEntry.category e) eqn:Hc;
    cbn [DeviceAnalysis.with_counts DeviceAnalysis.reset_count
         DeviceAnalysis.disconnect_count DeviceAnalysis.error_count
         DeviceAnalysis.warning_count DeviceAnalysis.over_current_count
         DeviceAnalysis.timeout_count DeviceAnalysis.descriptor_error_count
         DeviceAnalysis.enumeration_error_count DeviceAnalysis.log_entries];
    rewrite !count_category_snoc, Hc; cbn [category_eqb];
    rewrite ?Nat.add_0_r; auto 10.
Qed.

Lemma add_log_entry_entries (e : LogEntry.t) (a : DeviceAnalysis.t) :
  DeviceAnalysis.log_entries (DeviceAnalysis.add_log_entry e a)
  = DeviceAnalysis.log_entries a ++ [e]
  /\ DeviceAnalysis.issues (DeviceAnalysis.add_log_entry e a)
     = DeviceAnalysis.issues a.
Proof.
  unfold DeviceAnalysis.add_log_entry.
  destruct (LogEntry.category e); auto.
Qed.

Lemma fold_add_log_entry (entries : list LogEntry.t) :
  forall a : DeviceAnalysis.t,
    counted a ->
    let a' := fold_left (fun a e => DeviceAnalysis.add_log_entry e a)
                entries a in
    counted a'
    /\ DeviceAnalysis.log_entries a' = DeviceAnalysis.log_entries a ++ entries
    /\ DeviceAnalysis.issues a' = DeviceAnalysis.issues a
    /\ DeviceAnalysis.device a' = DeviceAnalysis.device a.
Proof.
  induction entries as [|e entries IH]; intros a Ha; cbn [fold_left].
  - rewrite app_nil_r. auto.
  - destruct (IH _ (add_log_entry_counted e a Ha)) as (Hc & Hl & Hi & Hd).
    destruct (add_log_entry_entries e a) as [Hl' Hi'].
    cbn zeta. rewrite Hl, Hi, Hd, Hl', Hi', add_log_entry_device,
      <- app_assoc.
    auto.
Qed.

Lemma collect_spec (d : USBDevice.t) (entries : list LogEntry.t) :
  counted (collect d entries)
  /\ DeviceAnalysis.log_entries (collect d entries) = entries
  /\ DeviceAnalysis.issues (collect d entries) = []
  /\ DeviceAnalysis.device (collect d entries) = d.
Proof.
  unfold collect.
  apply (fold_add_log_entry entries (DeviceAnalysis.new d)).
  unfold counted. cbn. auto 10.
Qed.

Lemma count_category_total (entries : list LogEntry.t) :
  count_category reset entries + count_category disconnect entries
  + count_category error entries + count_category warning entries
  + count_category over_current entries + count_category timeout entries
  + count_category descriptor_error entries
  + count_category enumeration_error entries
  + count_category info entries
  = List.length entries.
Proof.
  unfold count_category.
  induction entries as [|e entries IH]; [reflexivity|].
  cbn [filter List.length].
  destruct (LogEntry.category e); cbn [category_eqb List.length]; lia.
Qed.

(** X7.  After any sequence of [add_log_entry] calls on a new analysis the
    entries are the added ones in order, every counter is the number of
    entries of its category, and the eight counters fall short of the number
    of entries by the number of info entries. *)
Theorem counters_count_entries :
  forall (d : USBDevice.t) (entries : list LogEntry.t),
    let a := collect d entries in
    DeviceAnalysis.log_entries a = entries
    /\ DeviceAnalysis.reset_count a = count_category reset entries
    /\ DeviceAnalysis.disconnect_count a = count_category disconnect entries
    /\ DeviceAnalysis.error_count a = count_category error entries
    /\ DeviceAnalysis.warning_count a = count_category warning entries
    /\ DeviceAnalysis.over_current_count a
       = count_category over_current entries
    /\ DeviceAnalysis.timeout_count a = count_category timeout entries
    /\ DeviceAnalysis.descriptor_error_count a
       = count_category descriptor_error entries
    /\ DeviceAnalysis.enumeration_error_count a
       = count_category enumeration_error entries
    /\ DeviceAnalysis.reset_count a + DeviceAnalysis.disconnect_count a
       + DeviceAnalysis.error_count a + DeviceAnalysis.warning_count a
       + DeviceAnalysis.over_current_count a + DeviceAnalysis.timeout_count a
       + DeviceAnalysis.descriptor_error_count a
       + DeviceAnalysis.enumeration_error_count a
       + count_category info entries
       = List.length entries.
Proof.
  intros d entries a.
  destruct (collect_spec d entries) as (Hc & Hl & _ & _).
  unfold counted in Hc. fold a in Hc, Hl. rewrite Hl in Hc.
  destruct Hc as (Hr & Hd & He & Hw & Ho & Ht & Hde & Hee).
  rewrite Hr, Hd, He, Hw, Ho, Ht, Hde, Hee.
  split; [exact Hl|].
  repeat (split; [reflexivity|]). apply count_category_total.
Qed.

(* ------------------------------------------------------------------ *)
(** ** One analysis per device *)

Lemma analysis_of_spec (d : USBDevice.t) (entries : list LogEntry.t) :
  DeviceAnalysis.device (analysis_of d entries) = d
  /\ DeviceAnalysis.log_entries (analysis_of d entries) = entries
  /\ counted (analysis_of d entries)
  /\ DeviceAnalysis.issues (analysis_of d entries)
     = rule_issues (analysis_of d entries).
Proof.
  unfold analysis_of. rewrite analyze_eq.
  destruct (collect_spec d entries) as (Hc & Hl & Hi & Hd).
  rewrite rule_issues_add_issues.
  unfold counted in *.
  cbn [add_issues DeviceAnalysis.device DeviceAnalysis.log_entries
       DeviceAnalysis.issues DeviceAnalysis.reset_count
       DeviceAnalysis.disconnect_count DeviceAnalysis.error_count
       DeviceAnalysis.warning_count DeviceAnalysis.over_current_count
       DeviceAnalysis.timeout_count DeviceAnalysis.descriptor_error_count
       DeviceAnalysis.enumeration_error_count].
  rewrite Hi. auto.
Qed.

Lemma analyze_devices_eq (devices : list USBDevice.t)
  (entries : list LogEntry.t) :
  analyze_devices devices entries
  = map (fun d =>
           analysis_of d (logs_for d (match_logs_to_devices devices entries)))
      devices.
Proof.
  unfold analyze_devices, analyses_from.
  rewrite (flat_map_all_nil _ (match_logs_to_devices devices entries)).
  - now rewrite app_nil_r.
  - intros kv Hkv. now rewrite (no_unlisted_key devices entries kv Hkv).
Qed.

(** X8.  [analyze_devices] returns, for each listed device in turn, an
    analysis of that device whose entries are the entries correlated with
    it, in log order, whose reset and over-current counters count those
    entries, and whose issues are exactly what the rules derive from its own
    counters and device. *)
Theorem analyses_follow_the_device_list :
  forall (devices : list USBDevice.t) (entries : list LogEntry.t),
    Forall2
      (fun d a =>
         DeviceAnalysis.device a = d
         /\ DeviceAnalysis.log_entries a
            = logs_for d (match_logs_to_devices devices entries)
         /\ DeviceAnalysis.reset_count a
            = count_category reset (DeviceAnalysis.log_entries a)
         /\ DeviceAnalysis.over_current_count a
            = count_category over_current (DeviceAnalysis.log_entries a)
         /\ DeviceAnalysis.issues a = rule_issues a)
      devices (analyze_devices devices entries).
Proof.
  intros devices entries. rewrite analyze_devices_eq.
  generalize (match_logs_to_devices devices entries). intros logs.
  induction devices as [|d devices IH]; cbn [map]; constructor; [|exact IH].
  destruct (analysis_of_spec d (logs_for d logs)) as (Hd & Hl & Hc & Hi).
  destruct Hc as (Hr & _ & _ & _ & Ho & _).
  auto.
Qed.

(* ------------------------------------------------------------------ *)
(** ** The entries made from the lines *)

Lemma filter_line_fields (next : nat) (line : string) (e : LogEntry.t) :
  filter_line next line = Some e ->
  contains_any usb_keywords (lower line) = true
  /\ LogEntry.oid e = next
  /\ LogEntry.raw_line e = line
  /\ LogEntry.timestamp e = None
  /\ LogEntry.message e = strip (strip_prefix line)
  /\ LogEntry.category e = LogEntry.categorize (LogEntry.message e).
Proof.
  unfold filter_line.
  destruct (contains_any usb_keywords (lower line)); [|discriminate].
  intros [= <-].
  destruct (extract_keeps
              (LogEntry.new next (strip (strip_prefix line))
                 (parse_timestamp line) line))
    as (Ho & Hm & Hr & Ht & Hc).
  rewrite Ho, Hm, Hr, Ht, Hc. cbn. auto 10.
Qed.

Lemma filter_from_spec (lines : list string) :
  forall next : nat,
    let entries := filter_usb_entries_from next lines in
    map LogEntry.raw_line entries
    = filter (fun l => contains_any usb_keywords (lower l)) lines
    /\ map LogEntry.oid entries = seq next (List.length entries)
    /\ Forall (fun e =>
                 LogEntry.timestamp e = None
                 /\ LogEntry.message e
                    = strip (strip_prefix (LogEntry.raw_line e))
                 /\ LogEntry.category e
                    = LogEntry.categorize (LogEntry.message e))
         entries.
Proof.
  induction lines as [|line lines IH]; intros next;
    cbn [filter_usb_entries_from filter].
  - cbn. auto.
  - destruct (filter_line next line) as [e|] eqn:He.
    + apply filter_line_fields in He.
      destruct He as (Hg & Ho & Hr & Ht & Hm & Hc).
      destruct (IH (S next)) as (IHr & IHo & IHf).
      rewrite Hg. cbn [map List.length seq].
      rewrite IHr, IHo, Ho, Hr.
      repeat split. constructor; [|exact IHf].
      rewrite Hr. auto.
    + assert (Hg : contains_any usb_keywords (lower line) = false).
      { unfold filter_line in He.
        now destruct (contains_any usb_keywords (lower line)). }
      rewrite Hg. apply IH.
Qed.

(** X9.  [filter_usb_entries] makes one entry for each line that holds a
    keyword (in any case) and none for the others, in the order of the
    lines: the entry keeps the line in [raw_line], has no time stamp, and
    its message is the line after the prefix strip and the trim.  The
    entries are pairwise distinct objects. *)
Theorem entries_follow_the_lines :
  forall lines : list string,
    let entries := filter_usb_entries lines in
    map LogEntry.raw_line entries
    = filter (fun l => contains_any usb_keywords (lower l)) lines
    /\ NoDup (map LogEntry.oid entries)
    /\ Forall (fun e =>
                 LogEntry.timestamp e = None
                 /\ LogEntry.message e
                    = strip (strip_prefix (LogEntry.raw_line e))
                 /\ LogEntry.category e
                    = LogEntry.categorize (LogEntry.message e))
         entries.
Proof.
  intros lines entries.
  destruct (filter_from_spec lines 0) as (Hr & Ho & Hf).
  split; [exact Hr|]. split; [|exact Hf].
  unfold entries, filter_usb_entries. rewrite Ho. apply seq_NoDup.
Qed.

Lemma nodup_map_inj {X Y : Type} (f : X -> Y) (l : list X) :
  NoDup (map f l) ->
  forall x y, In x l -> In y l -> f x = f y -> x = y.
Proof.
  induction l as [|a l IH]; cbn [map]; intros Hnd x y Hx Hy Hf;
    [destruct Hx|].
  inversion Hnd as [|? ? Hnot Hrest]; subst.
  destruct Hx as [<-|Hx], Hy as [<-|Hy]; auto.
  - exfalso. apply Hnot. rewrite Hf. now apply in_map.
  - exfalso. apply Hnot. rewrite <- Hf. now apply in_map.
Qed.

Lemma parsed_entries_distinct (lines : list string) :
  forall e1 e2,
    In e1 (filter_usb_entries lines) -> In e2 (filter_usb_entries lines) ->
    LogEntry.oid e1 = LogEntry.oid e2 -> e1 = e2.
Proof.
  apply nodup_map_inj.
  destruct (filter_from_spec lines 0) as (_ & Ho & _).
  unfold filter_usb_entries. rewrite Ho. apply seq_NoDup.
Qed.

Lemma dict_get_in {K V : Type} (key_eqb : K -> K -> bool) (k : K) (v : V)
  (d : dict K V) :
  dict_get key_eqb k d = Some v -> exists k', In (k', v) d.
Proof.
  induction d as [|[k0 v0] d IH]; cbn [dict_get]; [discriminate|].
  destruct (key_eqb k0 k).
  - intros [= <-]. exists k0. now left.
  - intros H. destruct (IH H) as [k' Hk']. exists k'. now right.
Qed.

Lemma logs_for_in_all (d : USBDevice.t) (logs : device_logs_t)
  (e : LogEntry.t) :
  In e (logs_for d logs) -> In e (all_logs logs).
Proof.
  unfold logs_for.
  destruct (dict_get USBDevice.same d logs) as [l|] eqn:Hget; [|intros []].
  intros He. apply dict_get_in in Hget. destruct Hget as [k Hk].
  unfold all_logs. apply in_concat. exists l. split; [|exact He].
  apply in_map_iff. now exists (k, l).
Qed.

(** X10.  Every entry made from the lines is reported once: either it is
    in the unmatched list and in no analysis, or it is in the entries of
    the analysis of some listed device and not in the unmatched list. *)
Theorem every_entry_is_reported :
  forall (devices : list USBDevice.t) (lines : list string)
         (e : LogEntry.t),
    In e (filter_usb_entries lines) ->
    (In e (snd (diagnose devices lines))
     /\ forall a, In a (fst (diagnose devices lines)) ->
                  ~ In e (DeviceAnalysis.log_entries a))
    \/ (~ In e (snd (diagnose devices lines))
        /\ exists a, In a (fst (diagnose devices lines))
                     /\ In (DeviceAnalysis.device a) devices
                     /\ In e (DeviceAnalysis.log_entries a)).
Proof.
  intros devices lines e He. unfold diagnose. cbn [fst snd].
  rewrite (unmatched_filter devices (filter_usb_entries lines)
             (parsed_entries_distinct lines)).
  rewrite analyze_devices_eq.
  set (entries := filter_usb_entries lines) in *.
  destruct (no_target devices e) eqn:Hno.
  - left. split; [apply filter_In; auto|].
    intros a Ha Hin. apply in_map_iff in Ha. destruct Ha as (d & <- & Hd).
    destruct (analysis_of_spec d
                (logs_for d (match_logs_to_devices devices entries)))
      as (_ & Hl & _).
    rewrite Hl in Hin. apply logs_for_in_all in Hin.
    apply in_all_logs in Hin. destruct Hin as [_ Hin]. congruence.
  - right. split.
    + intros H. apply filter_In in H. destruct H as [_ H]. congruence.
    + unfold no_target in Hno.
      destruct (correlation_targets devices e) as [|t ts] eqn:Ht;
        [discriminate|].
      assert (Htd : In t devices)
        by (apply (targets_in_devices devices e); rewrite Ht; now left).
      exists (analysis_of t
                (logs_for t (match_logs_to_devices devices entries))).
      destruct (analysis_of_spec t
                  (logs_for t (match_logs_to_devices devices entries)))
        as (Hd & Hl & _).
      rewrite Hd, Hl.
      split; [apply in_map_iff; now exists t|]. split; [exact Htd|].
      rewrite logs_for_match. apply in_flat_map. exists e.
      split; [exact He|].
      destruct (occurrences_pos t (correlation_targets devices e)) as [n Hn];
        [rewrite Ht; now left|].
      rewrite Hn. now left.
Qed.

Lemma no_device_no_target (e : LogEntry.t) : correlation_targets [] e = [].
Proof.
  unfold correlation_targets, entry_targets. cbn.
  destruct (truthy (LogEntry.device_id e)),
    (truthy (LogEntry.vendor_product e)); reflexivity.
Qed.

Lemma filter_all {X : Type} (p : X -> bool) (l : list X) :
  Forall (fun x => p x = true) l -> filter p l = l.
Proof.
  induction 1 as [|x l Hx _ IH]; cbn [filter]; [reflexivity|].
  now rewrite Hx, IH.
Qed.

Lemma match_without_devices (entries : list LogEntry.t) :
  match_logs_to_devices [] entries = [].
Proof.
  unfold match_logs_to_devices.
  induction entries as [|e entries IH]; cbn [fold_left]; [reflexivity|].
  rewrite match_entry_targets.
  change (entry_targets (build_tables []) e) with (correlation_targets [] e).
  rewrite no_device_no_target. exact IH.
Qed.

(** X11.  Without devices nothing is lost: [get_unmatched_logs] returns all
    the entries, unchanged and in order, and [analyze_devices] returns no
    analysis. *)
Theorem no_device_everything_unmatched :
  forall entries : list LogEntry.t,
    get_unmatched_logs [] entries = entries
    /\ analyze_devices [] entries = [].
Proof.
  intros entries. split.
  - unfold get_unmatched_logs. rewrite match_without_devices.
    cbn [fold_left]. apply filter_all. apply Forall_forall.
    intros e _. reflexivity.
  - rewrite analyze_devices_eq. reflexivity.
Qed.

Lemma every_entry_is_reported_witness :
  (In receiver_entry
      (snd (diagnose sample_devices [hub_line; receiver_line; trace_line]))
   /\ forall a,
        In a (fst (diagnose sample_devices
                     [hub_line; receiver_line; trace_line])) ->
        ~ In receiver_entry (DeviceAnalysis.log_entries a))
  \/ (~ In receiver_entry
        (snd (diagnose sample_devices [hub_line; receiver_line; trace_line]))
      /\ exists a,
           In a (fst (diagnose sample_devices
                        [hub_line; receiver_line; trace_line]))
           /\ In (DeviceAnalysis.device a) sample_devices
           /\ In receiver_entry (DeviceAnalysis.log_entries a)).
Proof.
  apply every_entry_is_reported.
  rewrite sample_entries_parsed. right; left; reflexivity.
Defined.

(* ------------------------------------------------------------------ *)
(** ** Splitting at a character *)

Lemma all_chars_app (p : ascii -> bool) (a b : string) :
  all_chars p (a ++ b) = all_chars p a && all_chars p b.
Proof.
  induction a as [|c a IH]; cbn [append all_chars]; [reflexivity|].
  now rewrite IH, andb_assoc.
Qed.

Lemma all_chars_impl (p q : ascii -> bool) (s : string) :
  (forall c, p c = true -> q c = true) ->
  all_chars p s = true -> all_chars q s = true.
Proof.
  intros Hpq. induction s as [|c s IH]; cbn [all_chars]; [reflexivity|].
  intros H. apply andb_prop in H. destruct H as [Hc Hs].
  now rewrite (Hpq c Hc), IH.
Qed.

Lemma split_on_whole (c : ascii) (s : string) :
  all_chars (other_than c) s = true -> split_on c s = [s].
Proof.
  induction s as [|x s IH]; cbn [all_chars split_on]; [reflexivity|].
  unfold other_than at 1. intros H. apply andb_prop in H.
  destruct H as [Hx Hs]. apply negb_true_iff in Hx.
  now rewrite Hx, (IH Hs).
Qed.

Lemma split_on_app (c : ascii) (a b : string) :
  all_chars (other_than c) a = true ->
  split_on c (a ++ String c b) = a :: split_on c b.
Proof.
  induction a as [|x a IH]; cbn [all_chars append split_on].
  - intros _. now rewrite Ascii.eqb_refl.
  - unfold other_than at 1. intros H. apply andb_prop in H.
    destruct H as [Hx Ha]. apply negb_true_iff in Hx.
    now rewrite Hx, (IH Ha).
Qed.

Lemma split_on_nonempty (c : ascii) (s : string) : split_on c s <> [].
Proof.
  destruct s as [|x s]; cbn [split_on]; [discriminate|].
  destruct (Ascii.eqb x c); [discriminate|].
  destruct (split_on c s); discriminate.
Qed.

(** Joining the pieces with the separator gives the text back. *)
Lemma join_split_on (c : ascii) (s : string) :
  String.concat (String c EmptyString) (split_on c s) = s.
Proof.
  induction s as [|x s IH]; cbn [split_on]; [reflexivity|].
  pose proof (split_on_nonempty c s) as Hne.
  destruct (split_on c s) as [|p ps] eqn:Hs; [now destruct Hne|].
  destruct (Ascii.eqb x c) eqn:Hx.
  - apply Ascii.eqb_eq in Hx. subst x.
    change (String.concat (String c "") ("" :: p :: ps))
      with (String c (String.concat (String c "") (p :: ps))).
    now rewrite IH.
  - destruct ps as [|q qs]; cbn [String.concat append] in *;
      now rewrite IH.
Qed.

Lemma contains_char_false (c : ascii) (s : string) :
  all_chars (other_than c) s = true ->
  contains (String c EmptyString) s = false.
Proof.
  induction s as [|x s IH]; cbn [all_chars]; [reflexivity|].
  unfold other_than at 1. intros H. apply andb_prop in H.
  destruct H as [Hx Hs]. apply negb_true_iff in Hx.
  rewrite contains_unfold, (IH Hs). cbn [starts_with].
  rewrite Ascii.eqb_sym, Hx. reflexivity.
Qed.

Lemma digit_char_facts (x : ascii) :
  is_digit x = true ->
  other_than "." x = true /\ other_than "-" x = true
  /\ other_than ":" x = true.
Proof.
  destruct x as [[] [] [] [] [] [] [] []]; vm_compute; intros H;
    try discriminate H; auto.
Qed.

Lemma digits_inv (d : string) :
  is_digits d = true -> d <> EmptyString /\ all_chars is_digit d = true.
Proof.
  unfold is_digits. intros H. apply andb_prop in H. destruct H as [Hn Ha].
  split; [|exact Ha]. intros ->. discriminate Hn.
Qed.

Lemma digits_without (c : ascii) (d : string) :
  (forall x, is_digit x = true -> other_than c x = true) ->
  is_digits d = true -> all_chars (other_than c) d = true.
Proof.
  intros Hc H. apply digits_inv in H. destruct H as [_ H].
  exact (all_chars_impl _ _ d Hc H).
Qed.

Lemma digits_no_dot (d : string) :
  is_digits d = true -> all_chars (other_than ".") d = true.
Proof. apply digits_without. intros x Hx. now apply digit_char_facts. Qed.

Lemma digits_no_hyphen (d : string) :
  is_digits d = true -> all_chars (other_than "-") d = true.
Proof. apply digits_without. intros x Hx. now apply digit_char_facts. Qed.

Lemma digits_no_colon (d : string) :
  is_digits d = true -> all_chars (other_than ":") d = true.
Proof. apply digits_without. intros x Hx. now apply digit_char_facts. Qed.

Lemma split_dotted (head : string) (subs : list string) :
  all_chars (other_than ".") head = true ->
  Forall (fun d => is_digits d = true) subs ->
  split_on "." (head ++ dotted subs) = head :: subs.
Proof.
  intros Hhead Hsubs. revert head Hhead.
  induction Hsubs as [|d subs Hd _ IH]; intros head Hhead; cbn [dotted].
  - rewrite str_app_nil_r. now apply split_on_whole.
  - change ("." ++ d ++ dotted subs)%string
      with (String "." (d ++ dotted subs)).
    rewrite (split_on_app "." head _ Hhead).
    now rewrite (IH d (digits_no_dot d Hd)).
Qed.

Lemma join_dotted (head : string) (subs : list string) :
  String.concat "." (head :: subs) = (head ++ dotted subs)%string.
Proof.
  revert head. induction subs as [|d subs IH]; intros head.
  - cbn. now rewrite str_app_nil_r.
  - change (String.concat "." (head :: d :: subs))
      with (head ++ "." ++ String.concat "." (d :: subs))%string.
    rewrite IH. cbn [dotted]. reflexivity.
Qed.

(* ------------------------------------------------------------------ *)
(** ** The parent heuristic *)

Lemma ends_with_unfold (suffix s : string) :
  ends_with suffix s
  = String.eqb s suffix
    || match s with
       | EmptyString => false
       | String _ s' => ends_with suffix s'
       end.
Proof. destruct s; reflexivity. Qed.

Lemma ends_with_hyphen_false (d : string) :
  all_chars (other_than "-") d = true -> ends_with "-0" d = false.
Proof.
  induction d as [|x d IH]; cbn [all_chars]; [reflexivity|].
  unfold other_than at 1. intros H. apply andb_prop in H.
  destruct H as [Hx Hd]. apply negb_true_iff in Hx.
  rewrite ends_with_unfold, (IH Hd). cbn [String.eqb].
  now rewrite Hx.
Qed.

Lemma ends_with_root (bus port : string) :
  is_digits bus = true -> is_digits port = true ->
  ends_with "-0" (bus ++ "-" ++ port) = String.eqb port "0".
Proof.
  intros Hbus Hport. apply digits_no_hyphen in Hbus.
  induction bus as [|x bus IH]; cbn [append].
  - rewrite ends_with_unfold. cbn [String.eqb Ascii.eqb Bool.eqb andb].
    rewrite (ends_with_hyphen_false port (digits_no_hyphen port Hport)).
    apply orb_false_r.
  - cbn [all_chars] in Hbus. apply andb_prop in Hbus.
    destruct Hbus as [Hx Hbus]. unfold other_than in Hx.
    apply negb_true_iff in Hx.
    rewrite ends_with_unfold. cbn [String.eqb]. rewrite Hx.
    now apply IH.
Qed.

Lemma head_no_dot (bus port : string) :
  is_digits bus = true -> is_digits port = true ->
  all_chars (other_than ".") (bus ++ "-" ++ port) = true.
Proof.
  intros Hbus Hport. rewrite all_chars_app. cbn [append all_chars].
  now rewrite (digits_no_dot bus Hbus), (digits_no_dot port Hport).
Qed.

Lemma removelast_cons {X : Type} (x y : X) (l : list X) :
  removelast (x :: y :: l) = x :: removelast (y :: l).
Proof. reflexivity. Qed.

(** The parent of a bus path, case by case. *)
Lemma parent_of_path (bus port : string) (subs : list string) :
  is_digits bus = true -> is_digits port = true ->
  Forall (fun d => is_digits d = true) subs ->
  parent_of (bus ++ "-" ++ port ++ dotted subs)
  = match subs with
    | [] => if String.eqb port "0" then None else Some (bus ++ "-0")%string
    | _ :: _ => Some (bus ++ "-" ++ port ++ dotted (removelast subs))%string
    end.
Proof.
  intros Hbus Hport Hsubs. unfold parent_of.
  replace (bus ++ "-" ++ port ++ dotted subs)%string
    with ((bus ++ "-" ++ port) ++ dotted subs)%string
    by (rewrite str_app_assoc; cbn [append]; reflexivity).
  rewrite (split_dotted _ subs (head_no_dot bus port Hbus Hport) Hsubs).
  destruct subs as [|d subs].
  - cbn [List.length Nat.ltb Nat.leb dotted]. rewrite str_app_nil_r.
    rewrite (ends_with_root bus port Hbus Hport).
    destruct (String.eqb port "0"); [reflexivity|].
    change ("-" ++ port)%string with (String "-" port).
    rewrite (split_on_app "-" bus port (digits_no_hyphen bus Hbus)).
    reflexivity.
  - cbn [List.length Nat.ltb Nat.leb]. rewrite removelast_cons.
    rewrite join_dotted.
    rewrite str_app_assoc. cbn [append]. reflexivity.
Qed.

Lemma forall_removelast {X : Type} (P : X -> Prop) (l : list X) :
  Forall P l -> Forall P (removelast l).
Proof.
  induction 1 as [|x l Hx Hl IH]; cbn [removelast]; [constructor|].
  destruct l; [constructor|]. constructor; assumption.
Qed.

Lemma dotted_snoc (front : list string) (l : string) :
  dotted (front ++ [l]) = (dotted front ++ "." ++ l)%string.
Proof.
  induction front as [|f front IH]; cbn [app dotted].
  - now rewrite str_app_nil_r.
  - rewrite IH.
    change ("." ++ f ++ dotted front ++ "." ++ l)%string
      with (String "." (f ++ dotted front ++ "." ++ l)).
    change ("." ++ f ++ dotted front)%string
      with (String "." (f ++ dotted front)).
    cbn [append]. now rewrite str_app_assoc.
Qed.

Lemma dotted_cons_length (d : string) (subs : list string) :
  length (dotted (d :: subs)) = 1 + length d + length (dotted subs).
Proof.
  cbn [dotted].
  change ("." ++ d ++ dotted subs)%string with (String "." (d ++ dotted subs)).
  cbn [length]. now rewrite str_length_app.
Qed.

Lemma dotted_length (subs : list string) :
  subs <> [] -> length (dotted (removelast subs)) < length (dotted subs).
Proof.
  induction subs as [|d subs IH]; [congruence|]. intros _.
  destruct subs as [|d' subs].
  - rewrite dotted_cons_length. cbn. lia.
  - rewrite removelast_cons, !dotted_cons_length.
    assert (H : d' :: subs <> []) by discriminate.
    specialize (IH H). rewrite dotted_cons_length in IH. lia.
Qed.

(** X12.  The parent heuristic keeps to bus paths: for a bus path it gives
    no parent exactly for a root hub [<bus>-0]; otherwise the parent is
    again a bus path, accepted by [parse_device_id] and different from the
    device: the path without its last [.port] group, or the root hub of the
    bus for a device without such a group. *)
Theorem parent_of_a_bus_path :
  forall id : string,
    BusPath id ->
    match parent_of id with
    | None =>
        exists bus, id = (bus ++ "-0")%string /\ is_digits bus = true
    | Some p =>
        BusPath p /\ parse_device_id p = Some p /\ p <> id
        /\ ((exists last, id = (p ++ "." ++ last)%string
                          /\ is_digits last = true)
            \/ (exists bus port,
                   id = (bus ++ "-" ++ port)%string
                   /\ p = (bus ++ "-0")%string /\ port <> "0"))
    end.
Proof.
  intros id (bus & port & subs & -> & Hbus & Hport & Hsubs).
  rewrite (parent_of_path bus port subs Hbus Hport Hsubs).
  destruct subs as [|d subs].
  - cbn [dotted]. rewrite str_app_nil_r.
    destruct (String.eqb port "0") eqn:Hp.
    + apply String.eqb_eq in Hp. subst port. now exists bus.
    + apply String.eqb_neq in Hp.
      assert (Hroot : BusPath (bus ++ "-0")).
      { exists bus, "0"%string, []. cbn [dotted]. repeat split; auto. }
      split; [exact Hroot|]. split.
      * rewrite <- (str_app_nil_r (bus ++ "-0")).
        now apply parse_device_id_accepts.
      * split.
        -- intros Heq. apply append_inj_length in Heq; [|reflexivity].
           destruct Heq as [_ Heq]. injection Heq as Heq. congruence.
        -- right. now exists bus, port.
  - assert (Hrest : Forall (fun d0 => is_digits d0 = true)
                      (removelast (d :: subs)))
      by now apply forall_removelast.
    assert (Hpath : BusPath (bus ++ "-" ++ port
                             ++ dotted (removelast (d :: subs)))).
    { exists bus, port, (removelast (d :: subs)). auto. }
    split; [exact Hpath|]. split.
    + rewrite <- (str_app_nil_r (bus ++ "-" ++ port ++ _)).
      now apply parse_device_id_accepts.
    + split.
      * intros Heq. apply (f_equal length) in Heq.
        rewrite !str_length_app in Heq.
        assert (Hne : d :: subs <> []) by discriminate.
        pose proof (dotted_length (d :: subs) Hne). lia.
      * left. exists (last (d :: subs) EmptyString). split.
        -- rewrite (app_removelast_last EmptyString
                      (l := d :: subs)) at 1 by discriminate.
           generalize (removelast (d :: subs)) as front.
           generalize (last (d :: subs) "") as l.
           intros l front. rewrite dotted_snoc.
           rewrite str_app_assoc. cbn [append].
           now rewrite str_app_assoc.
        -- assert (Hin : In (last (d :: subs) "") (d :: subs)).
           { destruct (exists_last (l := d :: subs)) as (front & l & Heq);
               [discriminate|].
             rewrite Heq, last_last. apply in_or_app. right. now left. }
           rewrite Forall_forall in Hsubs. now apply Hsubs.
Qed.

Lemma bus_path_example : BusPath "1-1.2".
Proof.
  exists "1"%string, "1"%string, ["2"%string].
  repeat split; try reflexivity. repeat constructor.
Defined.

Lemma parent_of_a_bus_path_witness :
  match parent_of "1-1.2" with
  | None => exists bus, "1-1.2" = (bus ++ "-0")%string /\ is_digits bus = true
  | Some p =>
      BusPath p /\ parse_device_id p = Some p /\ p <> "1-1.2"
      /\ ((exists last, "1-1.2" = (p ++ "." ++ last)%string
                        /\ is_digits last = true)
          \/ (exists bus port,
                 "1-1.2" = (bus ++ "-" ++ port)%string
                 /\ p = (bus ++ "-0")%string /\ port <> "0"))
  end.
Proof. exact (parent_of_a_bus_path "1-1.2" bus_path_example). Defined.

(* ------------------------------------------------------------------ *)
(** ** The device filter of the command line *)

Lemma split_two (c : ascii) (s p0 p1 : string) :
  split_on c s = [p0; p1] -> s = (p0 ++ String c p1)%string.
Proof.
  intros H. rewrite <- (join_split_on c s), H. reflexivity.
Qed.

Lemma lower_length (s : string) : length (lower s) = length s.
Proof. induction s as [|c s IH]; cbn; [reflexivity|now rewrite IH]. Qed.

Lemma hyphen_branch (arg : string) (id_filter vp_filter : option string) :
  (if contains "-" arg then (Some arg, None) else (None, None))
  = (id_filter, vp_filter) ->
  (id_filter = None \/ vp_filter = None)
  /\ (forall id, id_filter = Some id ->
                 Some arg = Some id /\ contains "-" id = true)
  /\ (forall vp, vp_filter = Some vp ->
        exists a b,
          Some arg = Some (a ++ ":" ++ b)%string
          /\ length a = 4 /\ length b = 4
          /\ int16_ok a = true /\ int16_ok b = true
          /\ vp = lower (a ++ ":" ++ b)
          /\ length vp = 9).
Proof.
  destruct (contains "-" arg) eqn:Hh; intros [= <- <-].
  - split; [now right|]. split; [|intros vp H; discriminate H].
    intros id [= <-]. auto.
  - split; [now left|]. split; intros x H; discriminate H.
Qed.

(** X13.  [parse_device_filter] never returns two filters.  A device id
    filter is the argument itself, which then contains a hyphen.  A
    vendor:product filter is the lower-cased argument, which then consists
    of two parts of four characters, each a base 16 literal for [int], with
    one colon between them. *)
Theorem parse_device_filter_result :
  forall (device_arg : option string) (id_filter vp_filter : option string),
    parse_device_filter device_arg = (id_filter, vp_filter) ->
    (id_filter = None \/ vp_filter = None)
    /\ (forall id, id_filter = Some id ->
                   device_arg = Some id /\ contains "-" id = true)
    /\ (forall vp, vp_filter = Some vp ->
          exists a b,
            device_arg = Some (a ++ ":" ++ b)%string
            /\ length a = 4 /\ length b = 4
            /\ int16_ok a = true /\ int16_ok b = true
            /\ vp = lower (a ++ ":" ++ b)
            /\ length vp = 9).
Proof.
  intros device_arg id_filter vp_filter. unfold parse_device_filter.
  destruct device_arg as [arg|]; cbn [truthy negb fmt_opt].
  2: { intros [= <- <-]. split; [now left|].
       split; intros x H; discriminate H. }
  destruct (String.eqb arg ""); cbn [negb].
  { intros [= <- <-]. split; [now left|].
    split; intros x H; discriminate H. }
  destruct (contains ":" arg && (List.length (split_on ":" arg) =? 2));
    [|apply hyphen_branch].
  destruct (split_on ":" arg) as [|p0 [|p1 [|p2 ps]]] eqn:Hsplit;
    try apply hyphen_branch.
  destruct ((length p0 =? 4) && (length p1 =? 4)) eqn:Hlen;
    [|apply hyphen_branch].
  destruct (int16_ok p0 && int16_ok p1) eqn:Hint; [|apply hyphen_branch].
  intros [= <- <-]. split; [now left|].
  split; [intros x H; discriminate H|].
  intros vp [= <-]. exists p0, p1.
  apply split_two in Hsplit.
  apply andb_prop in Hlen, Hint.
  destruct Hlen as [H0 H1]. destruct Hint as [Hi0 Hi1].
  apply Nat.eqb_eq in H0, H1.
  change (":" ++ p1)%string with (String ":" p1). rewrite <- Hsplit.
  repeat split; auto.
  rewrite lower_length, Hsplit, str_length_app. cbn [length]. lia.
Qed.

Lemma hex_char_facts (c : ascii) :
  is_hex_digit c = true ->
  is_int_space c = false
  /\ Ascii.eqb c "+" = false /\ Ascii.eqb c "-" = false
  /\ Ascii.eqb c "x" = false /\ Ascii.eqb c "X" = false
  /\ Ascii.eqb c "_" = false /\ other_than ":" c = true.
Proof.
  destruct c as [[] [] [] [] [] [] [] []]; vm_compute; intros H;
    try discriminate H; auto 10.
Qed.

Lemma int16_digits_hex (s : string) :
  all_chars is_hex_digit s = true -> int16_digits false true s = true.
Proof.
  induction s as [|c s IH]; cbn [all_chars int16_digits]; [reflexivity|].
  intros H. apply andb_prop in H. destruct H as [Hc Hs].
  destruct (hex_char_facts c Hc) as (_ & _ & _ & _ & _ & Hu & _).
  rewrite Hu, Hc. now apply IH.
Qed.

(** [int(s, 16)] accepts four hexadecimal digits. *)
Lemma int16_ok_hex4 (s : string) : is_hex4 s = true -> int16_ok s = true.
Proof.
  unfold is_hex4. intros H. apply andb_prop in H. destruct H as [Hlen Hall].
  destruct s as [|c1 [|c2 s]]; try discriminate Hlen.
  cbn [all_chars] in Hall. apply andb_prop in Hall.
  destruct Hall as [H1 Hall]. apply andb_prop in Hall.
  destruct Hall as [H2 Hall].
  destruct (hex_char_facts c1 H1) as (Hs1 & Hp1 & Hm1 & _ & _ & Hu1 & _).
  destruct (hex_char_facts c2 H2) as (_ & _ & _ & Hx2 & HX2 & Hu2 & _).
  unfold int16_ok. cbn [skip_int_space].
  rewrite Hs1, Hp1, Hm1. cbn [orb]. rewrite Hx2, HX2.
  cbn [orb]. rewrite andb_false_r, Hu1.
  cbn [int16_digits]. rewrite Hu1, H1, Hu2, H2.
  now apply int16_digits_hex.
Qed.

Lemma hex4_no_colon (s : string) :
  is_hex4 s = true -> all_chars (other_than ":") s = true.
Proof.
  unfold is_hex4. intros H. apply andb_prop in H. destruct H as [_ H].
  apply (all_chars_impl is_hex_digit (other_than ":") s); [|exact H].
  intros c Hc. now apply hex_char_facts.
Qed.

Lemma hex4_length (s : string) : is_hex4 s = true -> length s = 4.
Proof.
  unfold is_hex4. intros H. apply andb_prop in H. destruct H as [H _].
  now apply Nat.eqb_eq.
Qed.

Lemma dotted_no_colon (subs : list string) :
  Forall (fun d => is_digits d = true) subs ->
  all_chars (other_than ":") (dotted subs) = true.
Proof.
  induction 1 as [|d subs Hd _ IH]; cbn [dotted]; [reflexivity|].
  change ("." ++ d ++ dotted subs)%string with (String "." (d ++ dotted subs)).
  cbn [all_chars]. rewrite all_chars_app, (digits_no_colon d Hd), IH.
  reflexivity.
Qed.

Lemma bus_path_facts (id : string) :
  BusPath id ->
  String.eqb id "" = false
  /\ contains ":" id = false
  /\ contains "-" id = true.
Proof.
  intros (bus & port & subs & -> & Hbus & Hport & Hsubs).
  split; [|split].
  - apply digits_inv in Hbus. destruct Hbus as [Hne _].
    destruct bus; [congruence|reflexivity].
  - apply contains_char_false. rewrite all_chars_app.
    change ("-" ++ port ++ dotted subs)%string
      with (String "-" (port ++ dotted subs)).
    cbn [all_chars]. rewrite all_chars_app.
    now rewrite (digits_no_colon bus Hbus), (digits_no_colon port Hport),
      (dotted_no_colon subs Hsubs).
  - apply contains_intro.
Qed.

Lemma parse_bus_path_filter (id : string) :
  BusPath id -> parse_device_filter (Some id) = (Some id, None).
Proof.
  intros H. destruct (bus_path_facts id H) as (Hne & Hcolon & Hhyphen).
  unfold parse_device_filter. cbn [truthy fmt_opt].
  rewrite Hne, Hcolon, Hhyphen. reflexivity.
Qed.

Lemma parse_vendor_product_filter (a b : string) :
  is_hex4 a = true -> is_hex4 b = true ->
  parse_device_filter (Some (a ++ ":" ++ b)%string)
  = (None, Some (lower (a ++ ":" ++ b))).
Proof.
  intros Ha Hb. unfold parse_device_filter. cbn [truthy fmt_opt].
  change (":" ++ b)%string with (String ":" b).
  assert (Hne : String.eqb (a ++ String ":" b) "" = false).
  { pose proof (hex4_length a Ha) as Hl. destruct a; [discriminate Hl|].
    reflexivity. }
  rewrite Hne. cbn [negb].
  rewrite (split_on_app ":" a b (hex4_no_colon a Ha)).
  rewrite (split_on_whole ":" b (hex4_no_colon b Hb)).
  replace (contains ":" (a ++ String ":" b)) with true
    by (symmetry; apply (contains_intro ":" a b)).
  cbn [List.length Nat.eqb andb].
  rewrite (hex4_length a Ha), (hex4_length b Hb).
  cbn [Nat.eqb andb].
  now rewrite (int16_ok_hex4 a Ha), (int16_ok_hex4 b Hb).
Qed.

(** X14.  A bus path given as [--device] argument becomes a device id
    filter, the argument itself; four hexadecimal digits, a colon and four
    hexadecimal digits become a vendor:product filter, the argument in lower
    case. *)
Theorem device_filter_forms :
  (forall id : string,
      BusPath id -> parse_device_filter (Some id) = (Some id, None))
  /\ (forall a b : string,
         is_hex4 a = true -> is_hex4 b = true ->
         parse_device_filter (Some (a ++ ":" ++ b)%string)
         = (None, Some (lower (a ++ ":" ++ b)))).
Proof.
  split; [exact parse_bus_path_filter|exact parse_vendor_product_filter].
Qed.

Lemma device_filter_forms_witness :
  parse_device_filter (Some "1-1.2") = (Some "1-1.2", None)
  /\ parse_device_filter (Some "046D:C52B") = (None, Some "046d:c52b").
Proof.
  split.
  - exact (proj1 device_filter_forms "1-1.2" bus_path_example).
  - exact (proj2 device_filter_forms "046D" "C52B" eq_refl eq_refl).
Defined.

(** X15.  What the device filter selects.  For a bus-path argument the
    devices with exactly that device id are kept; for a vendor:product
    argument of hexadecimal digits, the devices whose vendor:product key
    equals the argument up to letter case; the order of the devices is kept.
    An argument that holds neither a colon nor a hyphen yields no filter, and
    [filter_devices] then returns every device. *)
Theorem device_filter_selects :
  forall devices : list USBDevice.t,
    (forall id : string,
        BusPath id ->
        filter_devices devices (fst (parse_device_filter (Some id)))
          (snd (parse_device_filter (Some id)))
        = filter (fun d => String.eqb (USBDevice.device_id d) id) devices)
    /\ (forall a b : string,
           is_hex4 a = true -> is_hex4 b = true ->
           filter_devices devices
             (fst (parse_device_filter (Some (a ++ ":" ++ b)%string)))
             (snd (parse_device_filter (Some (a ++ ":" ++ b)%string)))
           = filter
               (fun d =>
                  match USBDevice.get_id_vendor_product d with
                  | Some k => String.eqb (lower k) (lower (a ++ ":" ++ b))
                  | None => false
                  end)
               devices)
    /\ (forall arg : string,
           contains ":" arg = false -> contains "-" arg = false ->
           filter_devices devices (fst (parse_device_filter (Some arg)))
             (snd (parse_device_filter (Some arg)))
           = devices).
Proof.
  intros devices. split; [|split].
  - intros id Hid. rewrite (parse_bus_path_filter id Hid). cbn [fst snd].
    destruct (bus_path_facts id Hid) as (Hne & _ & _).
    unfold filter_devices, device_selected. cbn [truthy fmt_opt].
    rewrite Hne. cbn [negb andb].
    apply filter_ext. intros d.
    now destruct (String.eqb (USBDevice.device_id d) id).
  - intros a b Ha Hb. rewrite (parse_vendor_product_filter a b Ha Hb).
    cbn [fst snd].
    assert (Hne : String.eqb (lower (a ++ ":" ++ b)) "" = false).
    { pose proof (hex4_length a Ha) as Hl. destruct a; [discriminate Hl|].
      reflexivity. }
    unfold filter_devices, device_selected. cbn [truthy fmt_opt].
    rewrite Hne. cbn [negb andb].
    apply filter_ext. intros d.
    destruct (USBDevice.get_id_vendor_product d) as [k|] eqn:Hk;
      [|reflexivity].
    now rewrite (vp_key_nonempty d k Hk).
  - intros arg Hcolon Hhyphen. unfold parse_device_filter.
    cbn [truthy fmt_opt]. rewrite Hcolon, Hhyphen.
    now destruct (String.eqb arg "").
Qed.

Lemma parse_device_filter_result_witness :
  (@None string = None \/ Some "046d:c52b" = None)
  /\ (forall id, @None string = Some id ->
                 Some "046D:C52B" = Some id /\ contains "-" id = true)
  /\ (forall vp, Some "046d:c52b" = Some vp ->
        exists a b,
          Some "046D:C52B" = Some (a ++ ":" ++ b)%string
          /\ length a = 4 /\ length b = 4
          /\ int16_ok a = true /\ int16_ok b = true
          /\ vp = lower (a ++ ":" ++ b)
          /\ length vp = 9).
Proof.
  apply (parse_device_filter_result (Some "046D:C52B") None
           (Some "046d:c52b")).
  vm_compute. reflexivity.
Defined.

Lemma device_filter_selects_witness :
  filter_devices sample_devices
    (fst (parse_device_filter (Some "046D:C52B")))
    (snd (parse_device_filter (Some "046D:C52B")))
  = filter
      (fun d =>
         match USBDevice.get_id_vendor_product d with
         | Some k => String.eqb (lower k) (lower ("046D" ++ ":" ++ "C52B"))
         | None => false
         end)
      sample_devices.
Proof.
  exact (proj1 (proj2 (device_filter_selects sample_devices))
           "046D" "C52B" eq_refl eq_refl).
Defined.

(* ------------------------------------------------------------------ *)
(** ** The log window *)

Lemma parsed_without_timestamp (lines : list string) :
  Forall (fun e => LogEntry.timestamp e = None) (filter_usb_entries lines).
Proof.
  destruct (filter_from_spec lines 0) as (_ & _ & Hf).
  unfold filter_usb_entries. revert Hf. apply Forall_impl.
  intros e (Ht & _). exact Ht.
Qed.

(** X16.  [parse_kernel_logs] returns the entries made from the lines of
    the text it chose (journalctl, else dmesg, else the log files), all of
    them: the time window never removes an entry, because no entry has a
    time stamp.  The only other outcome is the overflow of the cut-off date,
    which needs a window and at least one entry.  When every source comes
    back empty the result is the empty list. *)
Theorem log_window_keeps_every_entry :
  forall (src : LogSources) (cutoff : Z -> option datetime)
         (since_seconds lines : option Z),
    let out := chosen_log_output src since_seconds lines in
    let entries :=
      if truthy out then filter_usb_entries (splitlines (fmt_opt out))
      else [] in
    match parse_kernel_logs src cutoff since_seconds lines with
    | Some result => result = entries
    | None =>
        truthy_int since_seconds = true /\ entries <> []
        /\ cutoff (match since_seconds with Some z => z | None => 0%Z end)
           = None
    end
    /\ ((forall a, truthy (read_journalctl src a) = false) ->
        (forall a, truthy (read_dmesg src a) = false) ->
        (forall f a, truthy (read_log_file src f a) = false) ->
        parse_kernel_logs src cutoff since_seconds lines = Some []).
Proof.
  intros src cutoff since_seconds lines out entries.
  unfold parse_kernel_logs. fold out.
  split.
  - unfold entries. destruct (truthy out); cbn [negb]; [|reflexivity].
    set (es := filter_usb_entries (splitlines (fmt_opt out))).
    pose proof (parsed_without_timestamp (splitlines (fmt_opt out))) as Hts.
    fold es in Hts.
    destruct (truthy_int since_seconds); cbn [andb]; [|reflexivity].
    destruct es as [|e es'] eqn:Hes; [reflexivity|].
    destruct (cutoff _) as [cutoff_time|].
    + apply filter_all. revert Hts. apply Forall_impl.
      intros x Hx. now rewrite Hx.
    + repeat split. discriminate.
  - intros Hj Hd Hf.
    assert (Hout : truthy out = false).
    { unfold out, chosen_log_output.
      assert (H1 : truthy
                     (if truthy_int since_seconds
                      then read_journalctl src since_seconds
                      else read_journalctl src None) = false)
        by (destruct (truthy_int since_seconds); apply Hj).
      rewrite H1. cbn [negb]. rewrite Hd. cbn [negb].
      cbn [log_files first_log_file]. now rewrite !Hf. }
    now rewrite Hout.
Qed.

Lemma log_window_keeps_every_entry_witness :
  parse_kernel_logs
    (mkLogSources (fun _ => None) (fun _ => None) (fun _ _ => None))
    (fun z => Some (1000 - z)%Z) (Some 60%Z) None
  = Some [].
Proof.
  apply (proj2 (log_window_keeps_every_entry
                  (mkLogSources (fun _ => None) (fun _ => None)
                     (fun _ _ => None))
                  (fun z => Some (1000 - z)%Z) (Some 60%Z) None));
    intros; reflexivity.
Defined.

(* ------------------------------------------------------------------ *)
(** ** Names from lsusb *)

Lemma strip_part (s : string) :
  exists pre post, s = (pre ++ strip s ++ post)%string.
Proof.
  unfold strip. destruct (lstrip_suffix s) as [pre Hpre].
  destruct (rstrip_prefix (lstrip s)) as [post Hpost].
  exists pre, post. now rewrite <- Hpost.
Qed.

Lemma splitlines_from_part (n : nat) :
  forall (s cur l : string),
    length s <= n ->
    In l (splitlines_from cur s) ->
    exists pre post, (cur ++ s)%string = (pre ++ l ++ post)%string.
Proof.
  induction n as [|n IH]; intros s cur l Hn; destruct s as [|c s'];
    cbn [splitlines_from]; cbn [length] in Hn; try lia.
  - destruct (String.eqb cur ""); [intros []|]. intros [<-|[]].
    exists EmptyString, EmptyString. cbn [append]. reflexivity.
  - destruct (String.eqb cur ""); [intros []|]. intros [<-|[]].
    exists EmptyString, EmptyString. cbn [append]. reflexivity.
  - destruct (is_line_break c).
    + intros [<-|Hin].
      { exists EmptyString, (String c s'). reflexivity. }
      assert (Hrest : In l (splitlines_from EmptyString s')
                      \/ exists x s'', s' = String x s''
                                       /\ In l (splitlines_from EmptyString s'')).
      { destruct s' as [|x s'']; [now left|].
        destruct (Ascii.eqb c "013" && Ascii.eqb x "010"); [|now left].
        right. now exists x, s''. }
      destruct Hrest as [Hl|(x & s'' & -> & Hl)].
      * apply IH in Hl; [|lia]. destruct Hl as (pre & post & Hl).
        cbn [append] in Hl.
        exists (cur ++ String c pre)%string, post.
        rewrite str_app_assoc. cbn [append]. now rewrite Hl.
      * apply IH in Hl; [|cbn [length] in Hn; lia].
        destruct Hl as (pre & post & Hl). cbn [append] in Hl.
        exists (cur ++ String c (String x pre))%string, post.
        rewrite str_app_assoc. cbn [append]. now rewrite Hl.
    + intros Hin. apply IH in Hin; [|lia].
      destruct Hin as (pre & post & Hl). exists pre, post.
      rewrite <- Hl, str_app_assoc. reflexivity.
Qed.

(** A line of a text is a part of it. *)
Lemma splitlines_part (text l : string) :
  In l (splitlines text) ->
  exists pre post, text = (pre ++ l ++ post)%string.
Proof.
  intros H. now apply (splitlines_from_part (length text) text EmptyString l).
Qed.

Lemma matches_word4 (w : string) (c0 c1 : captures) :
  Matches word4 w c0 c1 -> is_word4 w = true /\ c1 = c0.
Proof.
  unfold word4. cbn [seq_of]. intros H.
  apply matches_seq_inv in H. destruct H as (w1 & r1 & ca & -> & H1 & H).
  apply matches_seq_inv in H. destruct H as (w2 & r2 & cb & -> & H2 & H).
  apply matches_seq_inv in H. destruct H as (w3 & w4 & cc & -> & H3 & H4).
  apply matches_char_inv in H1. destruct H1 as (x1 & -> & Hx1 & ->).
  apply matches_char_inv in H2. destruct H2 as (x2 & -> & Hx2 & ->).
  apply matches_char_inv in H3. destruct H3 as (x3 & -> & Hx3 & ->).
  apply matches_char_inv in H4. destruct H4 as (x4 & -> & Hx4 & ->).
  split; [|reflexivity]. unfold is_word4. cbn.
  now rewrite Hx1, Hx2, Hx3, Hx4.
Qed.

(** What the search for "ID wwww:wwww" captures. *)
Lemma id_search_inv (line : string) (m : captures) :
  re_search lsusb_id_pattern line = Some m ->
  exists a b,
    group 1 m = Some a /\ group 2 m = Some b
    /\ is_word4 a = true /\ is_word4 b = true
    /\ contains ("ID " ++ a ++ ":" ++ b) line = true.
Proof.
  intros H. apply re_search_inv in H. destruct H as (pre & s1 & -> & H).
  apply re_match_sound in H. destruct H as (w & post & c1 & -> & Hm & Hk).
  injection Hk as ->.
  unfold lsusb_id_pattern, vendor_product_pattern in Hm. cbn [seq_of] in Hm.
  apply matches_seq_inv in Hm. destruct Hm as (w1 & r1 & ca & -> & H1 & Hm).
  apply matches_seq_inv in Hm. destruct Hm as (w2 & r2 & cb & -> & H2 & Hm).
  apply matches_seq_inv in Hm. destruct Hm as (w3 & r3 & cc & -> & H3 & Hm).
  apply matches_seq_inv in Hm. destruct Hm as (a & r4 & cd & -> & Ha & Hm).
  apply matches_seq_inv in Hm. destruct Hm as (w5 & b & ce & -> & H5 & Hb).
  apply matches_char_inv in H1. destruct H1 as (x1 & -> & Hx1 & ->).
  apply matches_char_inv in H2. destruct H2 as (x2 & -> & Hx2 & ->).
  apply matches_char_inv in H3. destruct H3 as (x3 & -> & Hx3 & ->).
  apply matches_char_inv in H5. destruct H5 as (x5 & -> & Hx5 & ->).
  apply matches_group_inv in Ha. destruct Ha as (cg & -> & Ha).
  apply matches_group_inv in Hb. destruct Hb as (ch & -> & Hb).
  apply matches_word4 in Ha. destruct Ha as [Ha ->].
  apply matches_word4 in Hb. destruct Hb as [Hb ->].
  unfold is_char in Hx1, Hx2, Hx3, Hx5.
  apply Ascii.eqb_eq in Hx1, Hx2, Hx3, Hx5. subst x1 x2 x3 x5.
  exists a, b. cbn [group Nat.eqb]. repeat split; try assumption.
  cbn [append].
  match goal with
  | |- contains ?sub (pre ++ ?t)%string = true =>
      change t with (sub ++ post)%string
  end.
  apply contains_intro.
Qed.

Lemma fold_left_invariant {S X : Type} (P : S -> Prop) (f : S -> X -> S)
  (l : list X) :
  (forall st x, In x l -> P st -> P (f st x)) ->
  forall st, P st -> P (fold_left f l st).
Proof.
  induction l as [|x l IH]; intros Hstep st Hst; cbn [fold_left];
    [exact Hst|].
  apply IH.
  - intros st' y Hy. apply Hstep. now right.
  - apply Hstep; [now left|exact Hst].
Qed.

(** What one line of the loop keeps true: every key saved so far, and the
    pending key, was read after "ID ", and nothing is saved before a line
    with "idProduct". *)
Lemma lsusb_line_keys (text raw : string) (st : LsusbState) :
  (exists pre post, text = (pre ++ raw ++ post)%string) ->
  ((forall k, In k (map fst (lsusb_info st)) ->
              read_from_id text k /\ contains "idProduct" text = true)
   /\ (forall vp, current_vendor_product st = Some vp ->
                  read_from_id text vp)) ->
  (forall k, In k (map fst (lsusb_info (lsusb_line st raw))) ->
             read_from_id text k /\ contains "idProduct" text = true)
  /\ (forall vp, current_vendor_product (lsusb_line st raw) = Some vp ->
                 read_from_id text vp).
Proof.
  intros (pre & post & Htext) [Hinfo Hcur].
  assert (Hsub : forall sub, contains sub (strip raw) = true ->
                             contains sub text = true).
  { intros sub H. rewrite Htext. apply contains_in_part.
    destruct (strip_part raw) as (p1 & p2 & Hraw). rewrite Hraw.
    now apply contains_in_part. }
  unfold lsusb_line.
  set (line := strip raw) in *.
  set (st1 := if starts_with "Bus " line && contains "Device " line
                 && contains "ID " line
              then _ else st).
  assert (H1 : lsusb_info st1 = lsusb_info st
               /\ forall vp, current_vendor_product st1 = Some vp ->
                             read_from_id text vp).
  { unfold st1.
    destruct (starts_with "Bus " line && contains "Device " line
              && contains "ID " line); [|auto].
    destruct (re_search lsusb_id_pattern line) as [m|] eqn:Hs; [|auto].
    cbn [lsusb_info current_vendor_product]. split; [reflexivity|].
    intros vp [= <-]. apply id_search_inv in Hs.
    destruct Hs as (a & b & -> & -> & Ha & Hb & Hc). cbn [fmt_opt].
    exists a, b. repeat split; try assumption. now apply Hsub. }
  clearbody st1. destruct H1 as [Hi1 Hc1].
  set (st2 := if contains "idVendor" line
                 && truthy (current_vendor_product st1)
              then _ else st1).
  assert (H2 : lsusb_info st2 = lsusb_info st1
               /\ current_vendor_product st2 = current_vendor_product st1).
  { unfold st2.
    destruct (contains "idVendor" line
              && truthy (current_vendor_product st1)); [|auto].
    destruct (re_search (lsusb_field_pattern "idVendor") line); auto. }
  clearbody st2. destruct H2 as [Hi2 Hc2].
  assert (Hkeep :
    (forall k, In k (map fst (lsusb_info st2)) ->
               read_from_id text k /\ contains "idProduct" text = true)
    /\ (forall vp, current_vendor_product st2 = Some vp ->
                   read_from_id text vp)).
  { rewrite Hi2, Hi1, Hc2. auto. }
  destruct (contains "idProduct" line) eqn:Hp; cbn [andb]; [|exact Hkeep].
  destruct (truthy (current_vendor_product st2)) eqn:Ht; [|exact Hkeep].
  set (st3 := match re_search (lsusb_field_pattern "idProduct") line with
              | Some m => _
              | None => st2
              end).
  assert (H3 : lsusb_info st3 = lsusb_info st2
               /\ current_vendor_product st3 = current_vendor_product st2).
  { unfold st3.
    destruct (re_search (lsusb_field_pattern "idProduct") line); auto. }
  clearbody st3. destruct H3 as [Hi3 Hc3].
  rewrite Hc3, Ht. cbn [lsusb_info current_vendor_product]. split.
  - intros k Hk. apply dict_set_keys in Hk. destruct Hk as [Hk| ->].
    + rewrite Hi3 in Hk. now apply (proj1 Hkeep).
    + split; [|now apply Hsub].
      destruct (current_vendor_product st2) as [vp|] eqn:Hvp;
        [|discriminate Ht].
      cbn [fmt_opt]. now apply (proj2 Hkeep).
  - intros vp H. discriminate H.
Qed.

(** Every key of the dictionary was read after "ID ", and a text with a
    key has a line with "idProduct". *)
Lemma lsusb_keys_listed (text k : string) :
  In k (map fst (parse_lsusb_v text)) ->
  read_from_id text k /\ contains "idProduct" text = true.
Proof.
  revert k.
  assert (Hinv :
    (forall k, In k (map fst (parse_lsusb_v text)) ->
               read_from_id text k /\ contains "idProduct" text = true)
    /\ (forall vp,
           current_vendor_product
             (fold_left lsusb_line (splitlines text)
                (mkLsusbState [] None (mkNameInfo None None))) = Some vp ->
           read_from_id text vp)).
  { unfold parse_lsusb_v.
    apply (fold_left_invariant
             (fun st =>
                (forall k, In k (map fst (lsusb_info st)) ->
                           read_from_id text k
                           /\ contains "idProduct" text = true)
                /\ (forall vp, current_vendor_product st = Some vp ->
                               read_from_id text vp))).
    - intros st raw Hraw Hst. apply lsusb_line_keys; [|exact Hst].
      now apply splitlines_part.
    - cbn [lsusb_info current_vendor_product map]. split.
      + intros k [].
      + intros vp H. discriminate H. }
  exact (proj1 Hinv).
Qed.

(** X17.  Every key of the dictionary [parse_lsusb_v] returns has the form
    wwww:wwww (word characters) and stands after "ID " in the text, and a
    text with a key contains "idProduct": the short [lsusb] listing, which
    has no such line, gives the empty dictionary. *)
Theorem lsusb_keys_come_from_id_fields :
  forall text : string,
    (forall k : string,
        In k (map fst (parse_lsusb_v text)) ->
        read_from_id text k /\ length k = 9)
    /\ (contains "idProduct" text = false -> parse_lsusb_v text = []).
Proof.
  intros text. split.
  - intros k Hk. destruct (lsusb_keys_listed text k Hk) as [Hr _].
    split; [exact Hr|].
    destruct Hr as (a & b & -> & Ha & Hb & _).
    rewrite str_length_app. cbn [append length].
    rewrite (word4_length a Ha), (word4_length b Hb). reflexivity.
  - intros Hno. destruct (parse_lsusb_v text) as [|[k v] d] eqn:Hd;
      [reflexivity|].
    assert (Hk : In k (map fst (parse_lsusb_v text)))
      by (rewrite Hd; now left).
    destruct (lsusb_keys_listed text k Hk) as [_ Hyes].
    rewrite Hyes in Hno. discriminate Hno.
Qed.

Lemma lsusb_keys_come_from_id_fields_witness :
  (read_from_id lsusb_v_sample "046d:c52b" /\ length "046d:c52b" = 9)
  /\ contains "idProduct" lsusb_sample = false
  /\ parse_lsusb_v lsusb_sample = [].
Proof.
  split.
  - apply (proj1 (lsusb_keys_come_from_id_fields lsusb_v_sample)
             "046d:c52b").
    vm_compute. left. reflexivity.
  - split; [vm_compute; reflexivity|].
    apply (proj2 (lsusb_keys_come_from_id_fields lsusb_sample)).
    vm_compute. reflexivity.
Defined.

(* ------------------------------------------------------------------ *)
(** ** Device objects that differ in their names only *)

Section Names.

Variable f : USBDevice.t -> USBDevice.t.
Hypothesis f_keeps : forall d, same_but_names d (f d).

Lemma renamed_device_id (d : USBDevice.t) :
  USBDevice.device_id (f d) = USBDevice.device_id d.
Proof. now destruct (f_keeps d) as (_ & H & _). Qed.

Lemma renamed_key (d : USBDevice.t) :
  USBDevice.get_id_vendor_product (f d) = USBDevice.get_id_vendor_product d.
Proof.
  destruct (f_keeps d) as (_ & _ & Hv & Hp & _).
  unfold USBDevice.get_id_vendor_product. now rewrite Hv, Hp.
Qed.

Lemma renamed_same (a b : USBDevice.t) :
  USBDevice.same (f a) (f b) = USBDevice.same a b.
Proof.
  destruct (f_keeps a) as (Ha & _). destruct (f_keeps b) as (Hb & _).
  unfold USBDevice.same. now rewrite Ha, Hb.
Qed.

Lemma existsb_renamed (p q : USBDevice.t -> bool)
  (Hpq : forall d, p (f d) = q d) (l : list USBDevice.t) :
  existsb p (map f l) = existsb q l.
Proof.
  induction l as [|d l IH]; cbn [map existsb]; [reflexivity|].
  now rewrite Hpq, IH.
Qed.

Lemma find_renamed (p q : USBDevice.t -> bool)
  (Hpq : forall d, p (f d) = q d) (l : list USBDevice.t) :
  find p (map f l) = option_map f (find q l).
Proof.
  induction l as [|d l IH]; cbn [map find]; [reflexivity|].
  rewrite Hpq, IH. now destruct (q d).
Qed.

Lemma filter_renamed (p q : USBDevice.t -> bool)
  (Hpq : forall d, p (f d) = q d) (l : list USBDevice.t) :
  filter p (map f l) = map f (filter q l).
Proof.
  induction l as [|d l IH]; cbn [map filter]; [reflexivity|].
  rewrite Hpq, IH. now destruct (q d).
Qed.

Lemma renamed_has_key (vp : string) (d : USBDevice.t) :
  has_key vp (f d) = has_key vp d.
Proof. unfold has_key. now rewrite renamed_key. Qed.

Lemma targets_renamed (devices : list USBDevice.t) (e : LogEntry.t) :
  correlation_targets (map f devices) e
  = map f (correlation_targets devices e).
Proof.
  rewrite !correlation_targets_cases.
  assert (Hid : id_matches (map f devices) e = id_matches devices e).
  { unfold id_matches. destruct (LogEntry.device_id e) as [id|];
      [|reflexivity].
    f_equal. apply existsb_renamed. intros d. now rewrite renamed_device_id. }
  assert (Hvp : vp_matches (map f devices) e = vp_matches devices e).
  { unfold vp_matches. destruct (LogEntry.vendor_product e) as [vp|];
      [|reflexivity].
    apply existsb_renamed. intros d. apply renamed_has_key. }
  rewrite Hid, Hvp. destruct (id_matches devices e).
  - rewrite <- map_rev.
    rewrite (find_renamed _
               (fun d => String.eqb (USBDevice.device_id d)
                           (fmt_opt (LogEntry.device_id e)))).
    + now destruct (find _ (rev devices)).
    + intros d. now rewrite renamed_device_id.
  - destruct (vp_matches devices e); [|reflexivity].
    apply filter_renamed. intros d. apply renamed_has_key.
Qed.

Lemma occurrences_renamed (d : USBDevice.t) (l : list USBDevice.t) :
  occurrences (f d) (map f l) = occurrences d l.
Proof.
  unfold occurrences.
  rewrite (filter_renamed _ (fun x => USBDevice.same x d)).
  - apply length_map.
  - intros x. apply renamed_same.
Qed.

Lemma logs_renamed (devices : list USBDevice.t) (entries : list LogEntry.t)
  (d : USBDevice.t) :
  logs_for (f d) (match_logs_to_devices (map f devices) entries)
  = logs_for d (match_logs_to_devices devices entries).
Proof.
  rewrite !logs_for_match. apply flat_map_ext. intros e.
  now rewrite targets_renamed, occurrences_renamed.
Qed.

Lemma add_log_entry_with_device (d : USBDevice.t) (e : LogEntry.t)
  (a : DeviceAnalysis.t) :
  DeviceAnalysis.add_log_entry e (with_device d a)
  = with_device d (DeviceAnalysis.add_log_entry e a).
Proof.
  unfold DeviceAnalysis.add_log_entry.
  destruct (LogEntry.category e); reflexivity.
Qed.

Lemma collect_with_device (d d' : USBDevice.t) (entries : list LogEntry.t) :
  collect d' entries = with_device d' (collect d entries).
Proof.
  unfold collect.
  change (DeviceAnalysis.new d') with (with_device d' (DeviceAnalysis.new d)).
  generalize (DeviceAnalysis.new d) as a.
  induction entries as [|e entries IH]; intros a; cbn [fold_left];
    [reflexivity|].
  now rewrite add_log_entry_with_device, IH.
Qed.

Lemma checks_keep_device (a : DeviceAnalysis.t) :
  DeviceAnalysis.device
    (DeviceAnalysis.check_timeouts
       (DeviceAnalysis.check_enumeration
          (DeviceAnalysis.check_descriptor
             (DeviceAnalysis.check_over_current
                (DeviceAnalysis.check_resets a)))))
  = DeviceAnalysis.device a.
Proof.
  unfold DeviceAnalysis.check_timeouts, DeviceAnalysis.check_enumeration,
    DeviceAnalysis.check_descriptor, DeviceAnalysis.check_over_current,
    DeviceAnalysis.check_resets.
  repeat match goal with
         | |- context [if ?c then _ else _] => destruct c
         end; reflexivity.
Qed.

Lemma analyze_with_device (d' : USBDevice.t) (a : DeviceAnalysis.t) :
  USBDevice.driver d' = USBDevice.driver (DeviceAnalysis.device a) ->
  USBDevice.device_class d'
  = USBDevice.device_class (DeviceAnalysis.device a) ->
  DeviceAnalysis.analyze (with_device d' a)
  = with_device d' (DeviceAnalysis.analyze a).
Proof.
  intros Hdrv Hcls. unfold DeviceAnalysis.analyze.
  assert (H1 : DeviceAnalysis.check_resets (with_device d' a)
               = with_device d' (DeviceAnalysis.check_resets a)).
  { unfold DeviceAnalysis.check_resets.
    cbn [with_device DeviceAnalysis.reset_count
           DeviceAnalysis.disconnect_count].
    destruct (5 <=? _); [reflexivity|]. now destruct (3 <=? _). }
  rewrite H1. pose proof (checks_keep_device a) as Hdev.
  set (a1 := DeviceAnalysis.check_resets a) in *.
  assert (H2 : DeviceAnalysis.check_over_current (with_device d' a1)
               = with_device d' (DeviceAnalysis.check_over_current a1)).
  { unfold DeviceAnalysis.check_over_current.
    cbn [with_device DeviceAnalysis.over_current_count].
    now destruct (0 <? _). }
  rewrite H2. set (a2 := DeviceAnalysis.check_over_current a1) in *.
  assert (H3 : DeviceAnalysis.check_descriptor (with_device d' a2)
               = with_device d' (DeviceAnalysis.check_descriptor a2)).
  { unfold DeviceAnalysis.check_descriptor.
    cbn [with_device DeviceAnalysis.descriptor_error_count].
    now destruct (0 <? _). }
  rewrite H3. set (a3 := DeviceAnalysis.check_descriptor a2) in *.
  assert (H4 : DeviceAnalysis.check_enumeration (with_device d' a3)
               = with_device d' (DeviceAnalysis.check_enumeration a3)).
  { unfold DeviceAnalysis.check_enumeration.
    cbn [with_device DeviceAnalysis.enumeration_error_count].
    now destruct (0 <? _). }
  rewrite H4. set (a4 := DeviceAnalysis.check_enumeration a3) in *.
  assert (H5 : DeviceAnalysis.check_timeouts (with_device d' a4)
               = with_device d' (DeviceAnalysis.check_timeouts a4)).
  { unfold DeviceAnalysis.check_timeouts.
    cbn [with_device DeviceAnalysis.timeout_count].
    now destruct (0 <? _). }
  rewrite H5. set (a5 := DeviceAnalysis.check_timeouts a4) in *.
  assert (H6 : DeviceAnalysis.check_driver (with_device d' a5)
               = with_device d' (DeviceAnalysis.check_driver a5)).
  { unfold DeviceAnalysis.check_driver.
    cbn [with_device DeviceAnalysis.device]. rewrite Hdev, Hdrv, Hcls.
    destruct (USBDevice.driver (DeviceAnalysis.device a)); [reflexivity|].
    destruct (USBDevice.device_class (DeviceAnalysis.device a)) as [cls|];
      [|reflexivity].
    destruct (negb (String.eqb cls "")); [|reflexivity].
    now destruct (existsb (String.eqb cls) ["00"; "0"; "ff"]). }
  rewrite H6. set (a6 := DeviceAnalysis.check_driver a5).
  unfold DeviceAnalysis.check_errors.
  cbn [with_device DeviceAnalysis.error_count].
  now destruct (3 <=? _).
Qed.

Lemma analysis_of_renamed (d : USBDevice.t) (entries : list LogEntry.t) :
  analysis_of (f d) entries = with_device (f d) (analysis_of d entries).
Proof.
  unfold analysis_of. rewrite (collect_with_device d (f d)).
  assert (Hd : DeviceAnalysis.device (collect d entries) = d).
  { destruct (collect_spec d entries) as (_ & _ & _ & H). exact H. }
  destruct (f_keeps d) as (_ & _ & _ & _ & Hcls & _ & Hdrv & _).
  apply analyze_with_device; now rewrite Hd.
Qed.

Lemma analyses_renamed (devices : list USBDevice.t)
  (entries : list LogEntry.t) :
  analyze_devices (map f devices) entries
  = map (fun a => with_device (f (DeviceAnalysis.device a)) a)
      (analyze_devices devices entries).
Proof.
  rewrite !analyze_devices_eq, !map_map. apply map_ext. intros d.
  rewrite logs_renamed, analysis_of_renamed.
  destruct (analysis_of_spec d
              (logs_for d (match_logs_to_devices devices entries)))
    as (Hd & _).
  now rewrite Hd.
Qed.

Lemma unmatched_renamed (devices : list USBDevice.t)
  (entries : list LogEntry.t) :
  (forall e1 e2, In e1 entries -> In e2 entries ->
                 LogEntry.oid e1 = LogEntry.oid e2 -> e1 = e2) ->
  get_unmatched_logs (map f devices) entries
  = get_unmatched_logs devices entries.
Proof.
  intros Hdistinct. rewrite !unmatched_filter by exact Hdistinct.
  apply filter_ext. intros e. unfold no_target.
  rewrite targets_renamed. now destruct (correlation_targets devices e).
Qed.

Lemma selected_renamed (id_filter vp_filter : option string)
  (devices : list USBDevice.t) :
  filter_devices (map f devices) id_filter vp_filter
  = map f (filter_devices devices id_filter vp_filter).
Proof.
  unfold filter_devices.
  destruct (negb (truthy id_filter) && negb (truthy vp_filter));
    [reflexivity|].
  apply filter_renamed. intros d. unfold device_selected.
  now rewrite renamed_device_id, renamed_key.
Qed.

Lemma forall2_renamed (l : list USBDevice.t) :
  Forall2 same_but_names l (map f l).
Proof.
  induction l as [|d l IH]; cbn [map]; constructor; [apply f_keeps|exact IH].
Qed.

End Names.

Lemma enrich_device_keeps (lsusb_info : dict string NameInfo)
  (d : USBDevice.t) :
  same_but_names d (enrich_device lsusb_info d).
Proof.
  unfold enrich_device, same_but_names.
  destruct (truthy (USBDevice.get_id_vendor_product d));
    [|repeat split; reflexivity].
  destruct (dict_get String.eqb _ lsusb_info) as [names|];
    [|repeat split; reflexivity].
  destruct (info_vendor_name names), (info_product_name names);
    repeat split; reflexivity.
Qed.

Lemma enrich_without_names (devices : list USBDevice.t) :
  map (enrich_device []) devices = devices.
Proof.
  induction devices as [|d devices IH]; cbn [map]; [reflexivity|].
  rewrite IH. unfold enrich_device. cbn [dict_get].
  now destruct (truthy (USBDevice.get_id_vendor_product d)).
Qed.

(** Whatever way [enrich_devices_with_lsusb] takes, it is the loop body run
    over the devices with some dictionary. *)
Lemma enrich_is_a_loop (lsusb_output : option string) (run : LsusbRun)
  (devices : list USBDevice.t) :
  exists lsusb_info,
    enrich_devices_with_lsusb lsusb_output run devices
    = map (enrich_device lsusb_info) devices.
Proof.
  unfold enrich_devices_with_lsusb.
  destruct (negb (truthy lsusb_output)).
  - exists []. now rewrite enrich_without_names.
  - destruct run as [returncode stdout|]; [|eauto].
    destruct (Z.eqb returncode 0); [eauto|].
    exists []. now rewrite enrich_without_names.
Qed.

Lemma forall2_with_device (g : USBDevice.t -> USBDevice.t)
  (l : list DeviceAnalysis.t) :
  Forall2 (fun a a' => a' = with_device (DeviceAnalysis.device a') a)
    l (map (fun a => with_device (g (DeviceAnalysis.device a)) a) l).
Proof.
  induction l as [|a l IH]; cbn [map]; constructor; [reflexivity|exact IH].
Qed.

Lemma analyses_devices (devices : list USBDevice.t)
  (entries : list LogEntry.t) :
  map DeviceAnalysis.device (analyze_devices devices entries) = devices.
Proof.
  rewrite analyze_devices_eq, map_map.
  rewrite <- (map_id devices) at 2. apply map_ext. intros d.
  now destruct (analysis_of_spec d
                  (logs_for d (match_logs_to_devices devices entries))).
Qed.

(** X18.  Enrichment with the names from lsusb changes names only: every
    device keeps its identity and all other attributes, the selection by
    the device filter picks the same devices, the unmatched entries of a
    run are the same, and each analysis is the one of the device without
    the names, entries, counters and issues included. *)
Theorem lsusb_names_change_names_only :
  forall (lsusb_output : option string) (run : LsusbRun)
         (devices : list USBDevice.t) (lines : list string),
    let devices' := enrich_devices_with_lsusb lsusb_output run devices in
    Forall2 same_but_names devices devices'
    /\ (forall id_filter vp_filter : option string,
           Forall2 same_but_names
             (filter_devices devices id_filter vp_filter)
             (filter_devices devices' id_filter vp_filter))
    /\ snd (diagnose devices' lines) = snd (diagnose devices lines)
    /\ map DeviceAnalysis.device (fst (diagnose devices' lines)) = devices'
    /\ Forall2 (fun a a' => a' = with_device (DeviceAnalysis.device a') a)
         (fst (diagnose devices lines)) (fst (diagnose devices' lines)).
Proof.
  intros lsusb_output run devices lines devices'.
  destruct (enrich_is_a_loop lsusb_output run devices) as [names Hloop].
  unfold devices'. rewrite Hloop. clear Hloop devices'.
  pose proof (enrich_device_keeps names) as Hkeeps.
  unfold diagnose. cbn [fst snd]. repeat split.
  - now apply forall2_renamed.
  - intros id_filter vp_filter.
    rewrite (selected_renamed _ Hkeeps). now apply forall2_renamed.
  - apply (unmatched_renamed _ Hkeeps). apply parsed_entries_distinct.
  - apply analyses_devices.
  - rewrite (analyses_renamed _ Hkeeps). apply forall2_with_device.
Qed.

Lemma in_combine_map {X Y : Type} (g : X -> Y) (l : list X) (x : X) (y : Y) :
  In (x, y) (combine l (map g l)) -> y = g x.
Proof.
  induction l as [|a l IH]; cbn [map combine In]; [intros []|].
  intros [[= <- <-]|H]; [reflexivity|now apply IH].
Qed.

Lemma dict_get_key (k : string) {V : Type} (v : V) (d : dict string V) :
  dict_get String.eqb k d = Some v -> In k (map fst d).
Proof.
  induction d as [|[k0 v0] d IH]; cbn [dict_get map fst In]; [discriminate|].
  destruct (String.eqb k0 k) eqn:Hk.
  - intros _. left. now apply String.eqb_eq.
  - intros H. right. now apply IH.
Qed.

Lemma enrich_device_changes (lsusb_info : dict string NameInfo)
  (d : USBDevice.t) :
  enrich_device lsusb_info d <> d ->
  exists vp, USBDevice.get_id_vendor_product d = Some vp
             /\ In vp (map fst lsusb_info).
Proof.
  unfold enrich_device.
  destruct (USBDevice.get_id_vendor_product d) as [vp|];
    cbn [truthy fmt_opt]; [|intros H; now destruct H].
  destruct (negb (String.eqb vp "")); [|intros H; now destruct H].
  destruct (dict_get String.eqb vp lsusb_info) as [names|] eqn:Hget;
    [|intros H; now destruct H].
  intros _. exists vp. split; [reflexivity|].
  now apply (dict_get_key vp names).
Qed.

(** X19.  A device comes out of [enrich_devices_with_lsusb] changed only
    if [lsusb] gave output, the text then parsed ([lsusb -v] ended with
    return code 0, or it raised and the short listing is used) contains
    "idProduct", and the device's vendor:product pair stands in that text
    after "ID ".  A short listing without "idProduct" changes nothing in
    the fallback. *)
Theorem enrichment_needs_a_listed_pair :
  forall (lsusb_output : option string) (run : LsusbRun)
         (devices : list USBDevice.t),
    (forall d d' : USBDevice.t,
        In (d, d')
           (combine devices
              (enrich_devices_with_lsusb lsusb_output run devices)) ->
        d' <> d ->
        exists text vp : string,
          truthy lsusb_output = true
          /\ (run = Completed 0 text
              \/ (run = Raised /\ lsusb_output = Some text))
          /\ USBDevice.get_id_vendor_product d = Some vp
          /\ read_from_id text vp
          /\ contains "idProduct" text = true)
    /\ (contains "idProduct" (fmt_opt lsusb_output) = false ->
        enrich_devices_with_lsusb lsusb_output Raised devices = devices).
Proof.
  intros lsusb_output run devices. split.
  - intros d d' Hin Hneq.
    assert (Hsame : In (d, d') (combine devices devices) -> d' = d).
    { clear. induction devices as [|a l IH]; cbn [combine In]; [intros []|].
      intros [[= <- <-]|H]; [reflexivity|now apply IH]. }
    assert (Hparsed :
      forall text,
        In (d, d')
           (combine devices (map (enrich_device (parse_lsusb_v text))
                               devices)) ->
        exists vp, USBDevice.get_id_vendor_product d = Some vp
                   /\ read_from_id text vp
                   /\ contains "idProduct" text = true).
    { intros text H. apply in_combine_map in H. subst d'.
      apply enrich_device_changes in Hneq.
      destruct Hneq as (vp & Hvp & Hk). exists vp. split; [exact Hvp|].
      exact (lsusb_keys_listed text vp Hk). }
    unfold enrich_devices_with_lsusb in Hin.
    destruct (truthy lsusb_output) eqn:Ht; cbn [negb] in Hin;
      [|now destruct Hneq; apply Hsame].
    destruct run as [returncode stdout|].
    + destruct (Z.eqb returncode 0) eqn:Hrc;
        [|now destruct Hneq; apply Hsame].
      apply Z.eqb_eq in Hrc. subst returncode.
      destruct (Hparsed stdout Hin) as (vp & H1 & H2 & H3).
      exists stdout, vp. auto.
    + destruct lsusb_output as [text|]; [|discriminate Ht].
      cbn [fmt_opt] in Hin.
      destruct (Hparsed text Hin) as (vp & H1 & H2 & H3).
      exists text, vp. auto 8.
  - intros Hno. unfold enrich_devices_with_lsusb.
    destruct (negb (truthy lsusb_output)); [reflexivity|].
    pose proof (lsusb_keys_listed (fmt_opt lsusb_output)) as Hkeys.
    destruct (parse_lsusb_v (fmt_opt lsusb_output)) as [|[k v] l];
      [apply enrich_without_names|].
    destruct (Hkeys k (or_introl eq_refl)) as [_ Hyes].
    rewrite Hyes in Hno. discriminate Hno.
Qed.

Lemma enrichment_needs_a_listed_pair_witness :
  exists text vp : string,
    truthy (Some lsusb_sample) = true
    /\ (Completed 0 lsusb_v_sample = Completed 0 text
        \/ (Completed 0 lsusb_v_sample = Raised
            /\ Some lsusb_sample = Some text))
    /\ USBDevice.get_id_vendor_product sample_device = Some vp
    /\ read_from_id text vp
    /\ contains "idProduct" text = true.
Proof.
  apply (proj1 (enrichment_needs_a_listed_pair (Some lsusb_sample)
                  (Completed 0 lsusb_v_sample) [sample_device])
           sample_device
           (set_product_name (Some "Unifying Receiver")
              (set_vendor_name (Some "Logitech, Inc.") sample_device))).
  - vm_compute. left. reflexivity.
  - vm_compute. intros H. discriminate H.
Defined.
